(** * ADOR: extraction, merge and classification core

    A shallow embedding of the deterministic core of the ADOR document
    pipeline (app/utils, app/services, app/nlp) and the properties its
    specification states about it.

    Conventions of the embedding.
    - A Python [str] is a [string]; the model covers ASCII text: the
      character classes, case mappings and whitespace below are those of
      CPython on code points under 128, and a code unit of 128 or more is a
      caseless symbol that is neither a space, a letter nor a digit.
    - A Python [float] is a primitive binary64 [float]: the same format, with
      the same round-to-nearest-even operations, as CPython's.
    - A [dict] used as an entity map is a [gmap string (list string)]; a dict
      whose iteration order the code relies on (the classifier's score table)
      is an association list in insertion order.
    - The external collaborators (the DOCX decoder, the spaCy model, the
      OpenAI client) appear through what they return. *)

From Stdlib Require Import ZArith List Ascii String Bool Lia.
From Stdlib Require Import Floats.PrimFloat Floats.FloatOps Floats.SpecFloat.
From Stdlib Require Import Numbers.Cyclic.Int63.Uint63.
From Stdlib Require Import Sorting.Sorted.
From stdpp Require Import gmap strings list.

Set Warnings "-inexact-float,-clear-no-such-hyp".
Open Scope string_scope.
Open Scope list_scope.

(** ** Python string primitives (ASCII) *)

Module PyStr.

Definition code (c : ascii) : nat := nat_of_ascii c.

Definition in_range (lo hi : nat) (c : ascii) : bool :=
  (lo <=? code c)%nat && (code c <=? hi)%nat.

(** [str.isspace] on one character: TAB..CR, FS..US and the space. *)
Definition isspace_c (c : ascii) : bool := in_range 9 13 c || in_range 28 32 c.
Definition isupper_c (c : ascii) : bool := in_range 65 90 c.
Definition islower_c (c : ascii) : bool := in_range 97 122 c.
Definition isalpha_c (c : ascii) : bool := isupper_c c || islower_c c.
Definition isdigit_c (c : ascii) : bool := in_range 48 57 c.
Definition isalnum_c (c : ascii) : bool := isalpha_c c || isdigit_c c.
(** The class [\w] of [re]. *)
Definition isword_c (c : ascii) : bool := isalnum_c c || (code c =? 95)%nat.

Definition lower_c (c : ascii) : ascii :=
  if isupper_c c then ascii_of_nat (code c + 32) else c.
Definition upper_c (c : ascii) : ascii :=
  if islower_c c then ascii_of_nat (code c - 32) else c.

Fixpoint smap (f : ascii -> ascii) (s : string) : string :=
  match s with
  | EmptyString => EmptyString
  | String c t => String (f c) (smap f t)
  end.

Fixpoint sall (p : ascii -> bool) (s : string) : bool :=
  match s with
  | EmptyString => true
  | String c t => p c && sall p t
  end.

Fixpoint sany (p : ascii -> bool) (s : string) : bool :=
  match s with
  | EmptyString => false
  | String c t => p c || sany p t
  end.

Definition len (s : string) : nat := String.length s.

Definition is_empty (s : string) : bool :=
  match s with EmptyString => true | _ => false end.

(** [s.lower()] and [s.upper()]. *)
Definition lower (s : string) : string := smap lower_c s.
Definition upper (s : string) : string := smap upper_c s.

(** [s.isupper()]: some cased character, and no lower-case one. *)
Definition isupper (s : string) : bool :=
  sany isupper_c s && negb (sany islower_c s).

(** [s.isalpha()], [s.isalnum()], [s.isdigit()]: false on the empty string. *)
Definition isalpha (s : string) : bool := negb (is_empty s) && sall isalpha_c s.
Definition isalnum (s : string) : bool := negb (is_empty s) && sall isalnum_c s.
Definition isdigit (s : string) : bool := negb (is_empty s) && sall isdigit_c s.

(** [s.title()]: a cased character is upper-cased when the character before
    it is not cased, and lower-cased otherwise. *)
Fixpoint title_from (prev_cased : bool) (s : string) : string :=
  match s with
  | EmptyString => EmptyString
  | String c t =>
      String (if prev_cased then lower_c c else upper_c c)
             (title_from (isalpha_c c) t)
  end.
Definition title (s : string) : string := title_from false s.

(** [s.lstrip()], [s.rstrip()], [s.strip()]. *)
Fixpoint lstrip (s : string) : string :=
  match s with
  | EmptyString => EmptyString
  | String c t => if isspace_c c then lstrip t else s
  end.

Fixpoint rstrip (s : string) : string :=
  match s with
  | EmptyString => EmptyString
  | String c t =>
      let t' := rstrip t in
      if isspace_c c && is_empty t' then EmptyString else String c t'
  end.

Definition strip (s : string) : string := rstrip (lstrip s).

(** The slices [s[:n]], [s[n:]] and [s[a:b]] (for [a <= b]), and [s[i]]. *)
Fixpoint take (n : nat) (s : string) : string :=
  match n, s with
  | S n', String c t => String c (take n' t)
  | _, _ => EmptyString
  end.

Fixpoint drop (n : nat) (s : string) : string :=
  match n, s with
  | S n', String _ t => drop n' t
  | _, _ => s
  end.

Definition slice (a b : nat) (s : string) : string := take (b - a) (drop a s).

Definition index (i : nat) (s : string) : option ascii := String.get i s.

Fixpoint startswith (p s : string) : bool :=
  match p, s with
  | EmptyString, _ => true
  | String a p', String b s' => Ascii.eqb a b && startswith p' s'
  | String _ _, EmptyString => false
  end.

(** [sub in s]. *)
Fixpoint contains (sub s : string) : bool :=
  startswith sub s
  || match s with
     | EmptyString => false
     | String _ t => contains sub t
     end.

(** [any(term in key for term in terms)]. *)
Definition any_in (terms : list string) (key : string) : bool :=
  existsb (fun term => contains term key) terms.

(** [s.split(sep)] for a one-character separator. *)
Fixpoint split_chr (sep : ascii) (s : string) : list string :=
  match s with
  | EmptyString => [EmptyString]
  | String c t =>
      if Ascii.eqb c sep then EmptyString :: split_chr sep t
      else match split_chr sep t with
           | w :: ws => String c w :: ws
           | [] => [String c EmptyString]
           end
  end.

(** [sep.join(parts)]. *)
Fixpoint join (sep : string) (parts : list string) : string :=
  match parts with
  | [] => EmptyString
  | [p] => p
  | p :: ps => (p ++ sep ++ join sep ps)%string
  end.

(** A split at the first character of a class, as [s.split(c, 1)] and
    [re.split(class, s, 1)] do: [None] when no character of the class
    occurs (the call then returns the one-element list [[s]]). *)
Fixpoint split_first (p : ascii -> bool) (s : string) : option (string * string) :=
  match s with
  | EmptyString => None
  | String c t =>
      if p c then Some (EmptyString, t)
      else match split_first p t with
           | Some (a, b) => Some (String c a, b)
           | None => None
           end
  end.

Definition nl : ascii := ascii_of_nat 10.
Definition nl_s : string := String nl EmptyString.

End PyStr.

(** ** The fragment of [re] the pattern library uses

    A backtracking matcher in continuation-passing style: alternatives are
    tried left to right and a repetition is greedy, as in CPython's engine. *)

Module Re.
Import PyStr.

Inductive regex : Type :=
| Eps
| Chr (p : ascii -> bool)
| Seq (r1 r2 : regex)
| Alt (r1 r2 : regex)
| Star (r : regex)
| Bound
| Grp (r : regex).

(** A position in the subject: the character before it (for [\b]), what is
    left of the subject, and the text of the capture group if it is set. *)
Record mstate : Type := MState {
  prev : option ascii;
  rest : string;
  grp : option string
}.

Definition isword_o (o : option ascii) : bool :=
  match o with Some c => isword_c c | None => false end.

Definition isword_hd (s : string) : bool :=
  match s with String c _ => isword_c c | EmptyString => false end.

(** The loop of a greedy repetition of [body]: one more round when [body]
    matches and consumes something, the continuation otherwise. [n] bounds
    the rounds; a round that consumes nothing is not taken. *)
Section StarLoop.
Variable body : (mstate -> option mstate) -> mstate -> option mstate.
Variable k : mstate -> option mstate.

Fixpoint star_loop (n : nat) (s : mstate) {struct n} : option mstate :=
  match n with
  | O => k s
  | S n' =>
      match body (fun s' =>
                    if (len (rest s') <? len (rest s))%nat
                    then star_loop n' s' else None) s with
      | Some x => Some x
      | None => k s
      end
  end.

End StarLoop.

Fixpoint run (r : regex) (k : mstate -> option mstate) (s : mstate) : option mstate :=
  match r with
  | Eps => k s
  | Chr p =>
      match rest s with
      | String c t => if p c then k (MState (Some c) t (grp s)) else None
      | EmptyString => None
      end
  | Seq r1 r2 => run r1 (run r2 k) s
  | Alt r1 r2 =>
      match run r1 k s with
      | Some x => Some x
      | None => run r2 k s
      end
  | Star r1 => star_loop (run r1) k (S (len (rest s))) s
  | Bound => if xorb (isword_o (prev s)) (isword_hd (rest s)) then k s else None
  | Grp r1 =>
      run r1 (fun s' =>
                k (MState (prev s') (rest s')
                     (Some (take (len (rest s) - len (rest s')) (rest s))))) s
  end.

(** One attempt at a position. *)
Definition match_at (r : regex) (p : option ascii) (s : string) : option mstate :=
  run r Some (MState p s None).

Fixpoint has_grp (r : regex) : bool :=
  match r with
  | Seq a b | Alt a b => has_grp a || has_grp b
  | Star a => has_grp a
  | Grp _ => true
  | _ => false
  end.

(** What [findall] reports for one match: the group when the pattern has
    one (the empty string when it did not take part), the whole match
    otherwise. *)
Definition item (r : regex) (s : string) (m : mstate) : string :=
  if has_grp r then match grp m with Some g => g | None => EmptyString end
  else take (len s - len (rest m)) s.

(** [pattern.search(s)]: is there a match at some position. *)
Fixpoint search_from (r : regex) (p : option ascii) (s : string) : bool :=
  match match_at r p s with
  | Some _ => true
  | None =>
      match s with
      | String c t => search_from r (Some c) t
      | EmptyString => false
      end
  end.

Definition search (r : regex) (s : string) : bool := search_from r None s.

(** [pattern.findall(s)]: the matches from left to right, without overlap.
    After an empty match the scan moves one character on. *)
Fixpoint findall_from (fuel : nat) (r : regex) (p : option ascii) (s : string)
  : list string :=
  match fuel with
  | O => []
  | S fuel' =>
      match match_at r p s with
      | Some m =>
          if (len (rest m) <? len s)%nat
          then item r s m :: findall_from fuel' r (prev m) (rest m)
          else item r s m ::
               match s with
               | String c t => findall_from fuel' r (Some c) t
               | EmptyString => []
               end
      | None =>
          match s with
          | String c t => findall_from fuel' r (Some c) t
          | EmptyString => []
          end
      end
  end.

Definition findall (r : regex) (s : string) : list string :=
  findall_from (S (len s)) r None s.

(** [pattern.sub(repl, s)] for a pattern that matches no empty string: each
    match is replaced by [repl], every other character is copied. *)
Fixpoint sub_from (fuel : nat) (r : regex) (repl : string) (p : option ascii)
  (s : string) : string :=
  match fuel with
  | O => s
  | S fuel' =>
      match match_at r p s with
      | Some m =>
          if (len (rest m) <? len s)%nat
          then (repl ++ sub_from fuel' r repl (prev m) (rest m))%string
          else match s with
               | String c t => String c (sub_from fuel' r repl (Some c) t)
               | EmptyString => EmptyString
               end
      | None =>
          match s with
          | String c t => String c (sub_from fuel' r repl (Some c) t)
          | EmptyString => EmptyString
          end
      end
  end.

Definition sub (r : regex) (repl s : string) : string :=
  sub_from (S (len s)) r repl None s.

(** Pattern syntax. *)
Definition chr (c : ascii) : regex := Chr (Ascii.eqb c).
(** A character under [re.IGNORECASE]. *)
Definition chr_i (c : ascii) : regex :=
  Chr (fun x => Ascii.eqb (lower_c x) (lower_c c)).

Fixpoint lit (s : string) : regex :=
  match s with
  | EmptyString => Eps
  | String c t => Seq (chr c) (lit t)
  end.

Fixpoint lit_i (s : string) : regex :=
  match s with
  | EmptyString => Eps
  | String c t => Seq (chr_i c) (lit_i t)
  end.

Definition plus (r : regex) : regex := Seq r (Star r).
Definition opt (r : regex) : regex := Alt r Eps.

Fixpoint alts (rs : list regex) : regex :=
  match rs with
  | [] => Chr (fun _ => false)
  | [r] => r
  | r :: rs' => Alt r (alts rs')
  end.

Fixpoint seqs (rs : list regex) : regex :=
  match rs with
  | [] => Eps
  | [r] => r
  | r :: rs' => Seq r (seqs rs')
  end.

Fixpoint times (n : nat) (r : regex) : regex :=
  match n with
  | O => Eps
  | S n' => Seq r (times n' r)
  end.

(** At most [n] greedy repetitions. *)
Fixpoint upto (n : nat) (r : regex) : regex :=
  match n with
  | O => Eps
  | S n' => opt (Seq r (upto n' r))
  end.

(** [r{lo,hi}]. *)
Definition rep (lo hi : nat) (r : regex) : regex :=
  Seq (times lo r) (upto (hi - lo) r).

Definition space : regex := Chr isspace_c.
Definition digit : regex := Chr isdigit_c.
Definition word : regex := Chr isword_c.

End Re.

(** ** app/utils/text_utils.py *)

Module TextProcessor.
Import PyStr.

(** [\s+] and [\n\s*\n]. *)
Definition ws_run : Re.regex := Re.plus Re.space.
Definition blank_lines : Re.regex :=
  Re.seqs [Re.chr nl; Re.Star Re.space; Re.chr nl].

(** [TextProcessor.clean_text]. *)
Definition clean_text (text : string) : string :=
  let text := Re.sub ws_run " " text in
  let text := strip text in
  Re.sub blank_lines (String nl (String nl EmptyString)) text.

(** [TextProcessor.normalize_entity]. *)
Definition normalize_entity (entity_text : string) : string :=
  let entity_text := Re.sub ws_run " " entity_text in
  let entity_text :=
    if isupper entity_text && (3 <? len entity_text)%nat
    then title entity_text else entity_text in
  strip entity_text.

End TextProcessor.

(** ** app/utils/regex_patterns.py *)

Module FinancialPatterns.
Import PyStr Re.

(** A character this model has no code for (the euro and pound signs). *)
Definition non_ascii : regex := Chr (fun _ => false).

Definition is_chr (a : ascii) (c : ascii) : bool := Ascii.eqb a c.

(** [[\d,]+\.?\d*] *)
Definition number : regex :=
  seqs [plus (Chr (fun c => isdigit_c c || is_chr "," c));
        opt (chr "."); Star digit].

(** [\d+\.?\d*\s*%] *)
Definition percent : regex :=
  seqs [plus digit; opt (chr "."); Star digit; Star space; chr "%"].

Definition sep : regex := Chr (fun c => is_chr "-" c || is_chr "/" c).

(** [ISIN = \b[A-Z]{2}[A-Z0-9]{9}[0-9]\b] *)
Definition ISIN : regex :=
  seqs [Bound; times 2 (Chr isupper_c);
        times 9 (Chr (fun c => isupper_c c || isdigit_c c));
        Chr isdigit_c; Bound].

(** [CURRENCY], with [re.IGNORECASE]. *)
Definition CURRENCY : regex :=
  seqs [alts [lit_i "USD"; lit_i "EUR"; lit_i "GBP"; lit_i "JPY"; chr "$";
              non_ascii; non_ascii];
        Star space;
        plus (Chr (fun c => isdigit_c c || is_chr "," c));
        opt (chr "."); Star digit;
        opt (alts [chr_i "M"; chr_i "K"; chr_i "B"])].

(** [DATE], with [re.IGNORECASE]. *)
Definition DATE : regex :=
  seqs [Bound;
        alts [seqs [rep 1 2 digit; sep; rep 1 2 digit; sep; rep 2 4 digit];
              seqs [times 4 digit; sep; times 2 digit; sep; times 2 digit];
              seqs [alts (List.map lit_i
                            ["Jan"; "Feb"; "Mar"; "Apr"; "May"; "Jun";
                             "Jul"; "Aug"; "Sep"; "Oct"; "Nov"; "Dec"]);
                    Star (Chr isalpha_c); plus space; rep 1 2 digit;
                    opt (chr ","); plus space; times 4 digit]];
        Bound].

(** [PERCENTAGE = \b\d+\.?\d*\s*%] *)
Definition PERCENTAGE : regex := Seq Bound percent.

(** The keyword-anchored patterns, all with [re.IGNORECASE]. *)
Definition keyed (keys : list regex) (value : regex) : regex :=
  seqs [alts keys; chr ":"; Star space; Grp value].

Definition not_nl : regex := Chr (fun c => negb (is_chr nl c)).

Definition NOTIONAL_KEYWORDS : regex :=
  keyed [lit_i "notional"; lit_i "principal"; lit_i "amount"] number.

Definition COUPON_KEYWORDS : regex :=
  keyed [lit_i "coupon"; seqs [lit_i "interest"; plus space; lit_i "rate"]]
        percent.

Definition MATURITY_KEYWORDS : regex :=
  keyed [lit_i "maturity"; lit_i "expiry"; lit_i "expiration"] (plus not_nl).

Definition COUNTERPARTY_KEYWORDS : regex :=
  keyed [lit_i "counterparty"; lit_i "party"; lit_i "issuer"]
        (seqs [Chr isalpha_c;
               plus (Chr (fun c => isalpha_c c || isspace_c c || is_chr "&" c
                                   || is_chr "," c || is_chr "." c));
               opt (alts (List.map lit_i
                            ["Inc"; "LLC"; "Ltd"; "Corp"; "AG"; "SA"; "plc"]))]).

Definition UNDERLYING_KEYWORDS : regex :=
  keyed [lit_i "underlying"; lit_i "reference"; lit_i "asset"] (plus not_nl).

Definition BARRIER_KEYWORDS : regex :=
  keyed [lit_i "barrier"; lit_i "strike"; lit_i "trigger"] number.

(** [FinancialPatterns.extract_all]: every key is present, possibly with an
    empty list. *)
Definition extract_all (text : string) : gmap string (list string) :=
  list_to_map
    [("isin", findall ISIN text);
     ("currency_amounts", findall CURRENCY text);
     ("dates", findall DATE text);
     ("percentages", findall PERCENTAGE text);
     ("notional", findall NOTIONAL_KEYWORDS text);
     ("coupon", findall COUPON_KEYWORDS text);
     ("maturity", findall MATURITY_KEYWORDS text);
     ("counterparty", findall COUNTERPARTY_KEYWORDS text);
     ("underlying", findall UNDERLYING_KEYWORDS text);
     ("barrier", findall BARRIER_KEYWORDS text)].

End FinancialPatterns.

(** ** app/services/chat_ner.py *)

Module ChatNER.
Import PyStr.

(** The first loop of [_merge_entities]: the value lists of one input dict
    are appended, type by type, to what was collected so far. *)
Definition collect_dict (merged entity_dict : gmap string (list string))
  : gmap string (list string) :=
  map_fold (fun entity_type values merged =>
              <[entity_type := default [] (merged !! entity_type) ++ values]> merged)
           merged entity_dict.

Definition collect (entity_dicts : list (gmap string (list string)))
  : gmap string (list string) :=
  fold_left collect_dict entity_dicts ∅.

(** The second loop, for one type: [seen] holds the trimmed, lower-cased
    forms met so far. *)
Fixpoint dedup_from (seen : gset string) (items : list string) : list string :=
  match items with
  | [] => []
  | item :: items' =>
      let normalized := lower (strip item) in
      if bool_decide (normalized ∈ seen) then dedup_from seen items'
      else strip item :: dedup_from ({[normalized]} ∪ seen) items'
  end.

Definition deduplicate (items : list string) : list string := dedup_from ∅ items.

(** [ChatNER._merge_entities]. *)
Definition merge_entities (entity_dicts : list (gmap string (list string)))
  : gmap string (list string) :=
  deduplicate <$> collect entity_dicts.

Definition abbreviations : gmap string string :=
  list_to_map
    [("GS", "Goldman Sachs"); ("MS", "Morgan Stanley"); ("JPM", "JPMorgan");
     ("BAC", "Bank of America"); ("C", "Citigroup"); ("DB", "Deutsche Bank");
     ("UBS", "UBS Group"); ("CS", "Credit Suisse"); ("HSBC", "HSBC Holdings");
     ("BNP", "BNP Paribas")].

(** [ChatNER._expand_abbreviations]. *)
Definition expand_abbreviations (text : string) : string :=
  match abbreviations !! upper text with
  | Some expansion => expansion
  | None => text
  end.

(** [ChatNER._validate_isin]. *)
Definition validate_isin (isin : string) : bool :=
  if negb (len isin =? 12)%nat then false
  else if negb (isalpha (slice 0 2 isin)) then false
  else if negb (isalnum (slice 2 11 isin)) then false
  else match index 11 isin with
       | Some c => isdigit (String c EmptyString)
       | None => false
       end.

(** The body of the inner loop of [_post_process]: [None] is a [continue]. *)
Definition process_value (entity_type value : string) : option string :=
  if (len value <? 2)%nat then None
  else
    let normalized := TextProcessor.normalize_entity value in
    let normalized :=
      if String.eqb entity_type "counterparty"
      then expand_abbreviations normalized else normalized in
    if String.eqb entity_type "isin" && negb (validate_isin normalized)
    then None
    else Some normalized.

Definition process_values (entity_type : string) (values : list string)
  : list string :=
  omap (process_value entity_type) values.

(** [ChatNER._post_process]. *)
Definition post_process (entities : gmap string (list string)) (text : string)
  : gmap string (list string) :=
  map_imap (fun entity_type values =>
              match process_values entity_type values with
              | [] => None
              | processed_values => Some processed_values
              end) entities.

(** [list(set(matches))]: the distinct matches, in an order the set fixes. *)
Definition list_set (matches : list string) : list string :=
  elements (list_to_set matches : gset string).

Definition notional_pattern : Re.regex :=
  Re.seqs [Re.plus Re.digit; Re.Star Re.space;
           Re.alts [Re.lit_i "mio"; Re.lit_i "million"; Re.lit_i "bn";
                    Re.lit_i "billion"]].

(** [(\d+)\s*(mio|million|bn|billion)] has two groups; [findall] then
    yields pairs, which the code prints as [amount unit]. *)
Definition notional_phrase (whole : string) : string :=
  let amount := match Re.match_at (Re.plus Re.digit) None whole with
                | Some m => take (len whole - len (Re.rest m)) whole
                | None => EmptyString
                end in
  let unit := lstrip (drop (len amount) whole) in
  (amount ++ " " ++ unit)%string.

Definition rate_pattern : Re.regex :=
  Re.Grp (Re.seqs [Re.plus Re.word; Re.Star Re.space;
                   Re.Chr (fun c => Ascii.eqb "+" c || Ascii.eqb "-" c);
                   Re.Star Re.space; Re.plus Re.digit; Re.Star Re.space;
                   Re.lit_i "bps"]).

Definition freq_pattern : Re.regex :=
  Re.seqs [Re.Bound;
           Re.Grp (Re.alts [Re.lit_i "Quarterly"; Re.lit_i "Monthly";
                            Re.lit_i "Semi-annually"; Re.lit_i "Annually"]);
           Re.Bound].

Definition tenor_pattern : Re.regex :=
  Re.seqs [Re.Bound; Re.Grp (Re.Seq (Re.plus Re.digit) (Re.chr "Y")); Re.Bound].

Definition underlying_pattern : Re.regex :=
  Re.seqs [Re.Bound;
           Re.Grp (Re.alts [Re.lit_i "estr"; Re.lit_i "euribor";
                            Re.lit_i "libor"; Re.lit_i "sofr"]);
           Re.Bound].

Definition put_if_any (key : string) (matches : list string)
  (entities : gmap string (list string)) : gmap string (list string) :=
  match matches with
  | [] => entities
  | _ => <[key := matches]> entities
  end.

(** [ChatNER._extract_chat_specific]. *)
Definition extract_chat_specific (text : string) : gmap string (list string) :=
  let entities := put_if_any "isin" (Re.findall FinancialPatterns.ISIN text) ∅ in
  let entities :=
    put_if_any "notional"
      (List.map notional_phrase (Re.findall notional_pattern text)) entities in
  let entities :=
    put_if_any "interest_rate" (Re.findall rate_pattern text) entities in
  let entities :=
    put_if_any "payment_frequency"
      (list_set (Re.findall freq_pattern text)) entities in
  let entities := put_if_any "tenor" (Re.findall tenor_pattern text) entities in
  put_if_any "underlying"
    (list_set (List.map lower (Re.findall underlying_pattern text))) entities.

(** [ChatNER.extract], the spaCy pass being given by what it returns on the
    cleaned text. *)
Definition extract (extract_financial_entities : string -> gmap string (list string))
  (text : string) : gmap string (list string) :=
  let cleaned_text := TextProcessor.clean_text text in
  let ner_entities := extract_financial_entities cleaned_text in
  let pattern_entities := FinancialPatterns.extract_all cleaned_text in
  let chat_entities := extract_chat_specific cleaned_text in
  let merged := merge_entities [ner_entities; pattern_entities; chat_entities] in
  post_process merged cleaned_text.

End ChatNER.

(** ** app/services/docx_parser.py *)

Module DocxParser.
Import PyStr.

(** What [python-docx] hands over: the paragraph texts, and for every table
    its rows of cell texts. *)
Record document : Type := Document {
  paragraphs : list string;
  tables : list (list (list string))
}.

(** [DocxParser._extract_text]. *)
Definition extract_text (doc : document) : string :=
  let paragraphs :=
    List.filter (fun para => negb (is_empty (strip para))) (paragraphs doc) in
  TextProcessor.clean_text (join nl_s paragraphs).

(** [entities[key].append(value)] and [entities[key].extend(values)]. *)
Definition append (key value : string) (entities : gmap string (list string))
  : gmap string (list string) :=
  alter (fun l => l ++ [value]) key entities.

Definition extend (key : string) (values : list string)
  (entities : gmap string (list string)) : gmap string (list string) :=
  alter (fun l => l ++ values) key entities.

Definition long_value (value : string) : bool :=
  negb (is_empty value) && (2 <? len value)%nat.

(** One adjacent cell pair of a table row. *)
Definition table_pair (key value : string) (entities : gmap string (list string))
  : gmap string (list string) :=
  if any_in ["counterparty"; "party"; "issuer"] key then
    if long_value value then append "counterparty" value entities else entities
  else if any_in ["notional"; "principal"; "amount"] key then
    extend "notional" (Re.findall FinancialPatterns.number value) entities
  else if contains "isin" key then
    extend "isin" (Re.findall FinancialPatterns.ISIN value) entities
  else if any_in ["underlying"; "reference"; "asset"] key then
    if long_value value then append "underlying" value entities else entities
  else if any_in ["maturity"; "expiry"; "expiration"] key then
    match Re.findall FinancialPatterns.DATE value with
    | [] => if negb (is_empty value) then append "maturity" value entities
            else entities
    | date_match => extend "maturity" date_match entities
    end
  else if any_in ["coupon"; "rate"; "interest"] key then
    extend "coupon" (Re.findall FinancialPatterns.PERCENTAGE value) entities
  else if any_in ["barrier"; "strike"; "trigger"] key then
    extend "barrier" (Re.findall FinancialPatterns.number value) entities
  else if any_in ["trade date"; "execution date"] key then
    extend "trade_date" (Re.findall FinancialPatterns.DATE value) entities
  else if contains "currency" key then
    if negb (is_empty value) && (len value =? 3)%nat && isupper value
    then append "currency" value entities else entities
  else entities.

(** [for i in range(len(cells) - 1)]. *)
Fixpoint table_row (cells : list string) (entities : gmap string (list string))
  : gmap string (list string) :=
  match cells with
  | key :: ((value :: _) as cells') =>
      table_row cells' (table_pair (lower key) value entities)
  | _ => entities
  end.

Definition empty_lists (keys : list string) : gmap string (list string) :=
  list_to_map (List.map (fun k => (k, [])) keys).

(** [DocxParser._extract_from_tables]. *)
Definition extract_from_tables (doc : document) : gmap string (list string) :=
  fold_left
    (fun entities table =>
       fold_left (fun entities row => table_row (List.map strip row) entities)
                 table entities)
    (tables doc)
    (empty_lists ["counterparty"; "notional"; "isin"; "underlying"; "maturity";
                  "coupon"; "barrier"; "trade_date"; "currency"]).

Definition is_key_sep (c : ascii) : bool := Ascii.eqb ":" c || Ascii.eqb "-" c.

(** One line of [_extract_key_value_pairs]. *)
Definition kv_line (line : string) (entities : gmap string (list string))
  : gmap string (list string) :=
  let line := strip line in
  match split_first is_key_sep line with
  | None => entities
  | Some (part0, part1) =>
      let key := lower (strip part0) in
      let value := strip part1 in
      if any_in ["counterparty"; "party"; "issuer"; "client"] key then
        append "counterparty" value entities
      else if any_in ["notional"; "principal"; "nominal"] key then
        append "notional" value entities
      else if any_in ["underlying"; "reference"; "asset"] key then
        append "underlying" value entities
      else if any_in ["maturity"; "expiry"; "expiration"] key then
        append "maturity" value entities
      else if any_in ["coupon"; "interest rate"] key then
        append "coupon" value entities
      else if any_in ["barrier"; "strike"; "trigger"] key then
        append "barrier" value entities
      else if any_in ["trade date"; "execution"] key then
        append "trade_date" value entities
      else if any_in ["payment frequency"; "frequency"] key then
        append "payment_frequency" value entities
      else entities
  end.

(** [DocxParser._extract_key_value_pairs]. *)
Definition extract_key_value_pairs (text : string) : gmap string (list string) :=
  fold_left (fun entities line => kv_line line entities)
            (split_chr nl text)
            (empty_lists ["counterparty"; "notional"; "underlying"; "maturity";
                          "coupon"; "barrier"; "trade_date"; "payment_frequency"]).

(** The innermost loop of [_merge_entities]: [values] and [seen] run through
    the items of every input dict in turn. *)
Definition add_item (st : list string * gset string) (item : string)
  : list string * gset string :=
  let '(values, seen) := st in
  let normalized := TextProcessor.normalize_entity item in
  if negb (is_empty normalized) && negb (bool_decide (lower normalized ∈ seen))
  then (values ++ [normalized], {[lower normalized]} ∪ seen)
  else st.

Definition add_dict (entity_type : string) (st : list string * gset string)
  (entity_dict : gmap string (list string)) : list string * gset string :=
  match entity_dict !! entity_type with
  | Some items => fold_left add_item items st
  | None => st
  end.

Definition merged_values (entity_dicts : list (gmap string (list string)))
  (entity_type : string) : list string :=
  fst (fold_left (add_dict entity_type) entity_dicts ([], ∅)).

Definition all_types (entity_dicts : list (gmap string (list string)))
  : gset string :=
  fold_left (fun types d => types ∪ dom d) entity_dicts ∅.

(** [DocxParser._merge_entities]. *)
Definition merge_entities (entity_dicts : list (gmap string (list string)))
  : gmap string (list string) :=
  fold_right
    (fun entity_type merged =>
       match merged_values entity_dicts entity_type with
       | [] => merged
       | values => <[entity_type := values]> merged
       end)
    ∅ (elements (all_types entity_dicts)).

(** [DocxParser.parse], on the decoded document. *)
Definition parse (doc : document) : gmap string (list string) :=
  let full_text := extract_text doc in
  let table_data := extract_from_tables doc in
  let pattern_entities := FinancialPatterns.extract_all full_text in
  let kv_entities := extract_key_value_pairs full_text in
  merge_entities [pattern_entities; table_data; kv_entities].

End DocxParser.

(** ** Python floats *)

Module PyFloat.

(** [float(n)] for an [int] below [2^53]. *)
Definition of_nat (n : nat) : float := PrimFloat.of_uint63 (Uint63.of_Z (Z.of_nat n)).
Definition of_Z (n : Z) : float := PrimFloat.of_uint63 (Uint63.of_Z n).

(** [min(a, b)] and [max(a, b)]: the first argument stays unless the second
    is strictly smaller (larger). *)
Definition min (a b : float) : float := if (b <? a)%float then b else a.
Definition max (a b : float) : float := if (a <? b)%float then b else a.

(** The nearest integer to [num / den], ties to even ([0 <= num], [0 < den]). *)
Definition round_half_even (num den : Z) : Z :=
  let q := (num / den)%Z in
  let r := (num mod den)%Z in
  match (2 * r ?= den)%Z with
  | Lt => q
  | Gt => (q + 1)%Z
  | Eq => if Z.even q then q else (q + 1)%Z
  end.

(** [round(v, 2)]: the exact binary value of [v] is rounded, ties to even,
    to a multiple of one hundredth [n / 100], and the result is the double
    nearest to that decimal (for [n] below [2^53]). *)
Definition round2 (v : float) : float :=
  match Prim2SF v with
  | S754_finite s m e =>
      let n := if (0 <=? e)%Z then (100 * Zpos m * 2 ^ e)%Z
               else round_half_even (100 * Zpos m) (2 ^ (- e)) in
      let r := (of_Z n / 100)%float in
      if s then (- r)%float else r
  | _ => v
  end.

End PyFloat.

(** ** app/nlp/spacy_pipeline.py *)

Module SpacyNERPipeline.
Import PyStr.

(** A span [ent] of a spaCy [doc]. *)
Record span : Type := Span {
  text : string;
  label_ : string;
  start_char : nat;
  end_char : nat
}.

Definition confidence_map : gmap string float :=
  list_to_map
    [("ORG", 0.85%float); ("PERSON", 0.80%float); ("MONEY", 0.90%float);
     ("DATE", 0.85%float); ("PERCENT", 0.88%float); ("CARDINAL", 0.75%float);
     ("GPE", 0.82%float); ("PRODUCT", 0.78%float)].

(** [SpacyNERPipeline._get_confidence]. *)
Definition get_confidence (ent : span) : float :=
  let base_confidence := default 0.70%float (confidence_map !! label_ ent) in
  let base_confidence :=
    if (15 <? len (text ent))%nat then (base_confidence + 0.05)%float
    else if (len (text ent) <? 3)%nat then (base_confidence - 0.10)%float
    else base_confidence in
  PyFloat.min 0.95 (PyFloat.max 0.50 base_confidence).

(** An entry of the list [extract_entities] returns. *)
Record entity : Type := Entity {
  e_text : string;
  e_label : string;
  e_start : nat;
  e_end : nat;
  e_confidence : float
}.

(** [SpacyNERPipeline.extract_entities]; [ents] is [self.nlp(text).ents]. *)
Definition extract_entities (ents : list span) : list entity :=
  List.map (fun ent => Entity (text ent) (label_ ent) (start_char ent)
                              (end_char ent) (get_confidence ent)) ents.

Definition add (key value : string) (m : gmap string (list string))
  : gmap string (list string) :=
  alter (fun l => l ++ [value]) key m.

Definition categorize (m : gmap string (list string)) (ent : entity)
  : gmap string (list string) :=
  let label := e_label ent in
  let text := e_text ent in
  if String.eqb label "ORG" then add "organizations" text (add "counterparty" text m)
  else if String.eqb label "PERSON" then add "person" text m
  else if String.eqb label "MONEY" then add "currency_amounts" text m
  else if String.eqb label "DATE" then add "dates" text m
  else if String.eqb label "PERCENT" then add "percentages" text m
  else if String.eqb label "CARDINAL" then add "numbers" text m
  else if String.eqb label "GPE" then add "locations" text m
  else m.

(** [SpacyNERPipeline.extract_financial_entities]. *)
Definition extract_financial_entities (ents : list span)
  : gmap string (list string) :=
  let financial_entities :=
    fold_left categorize (extract_entities ents)
      (list_to_map (List.map (fun k => (k, []))
         ["counterparty"; "person"; "currency_amounts"; "dates";
          "percentages"; "numbers"; "organizations"; "locations"])) in
  filter (fun kv => kv.2 <> []) financial_entities.

End SpacyNERPipeline.

(** ** app/services/document_classifier.py *)

Module DocumentClassifier.
Import PyStr.

Record config : Type := Config {
  keywords : list string;
  patterns : list Re.regex;
  weight : float
}.

Definition ws : Re.regex := Re.Star Re.space.
Definition ws1 : Re.regex := Re.plus Re.space.
Definition d2 : Re.regex := Re.times 2 Re.digit.

(** [self.categories], in insertion order. *)
Definition categories : list (string * config) :=
  [("term_sheet",
    Config ["term sheet"; "termsheet"; "terms and conditions"; "product terms"]
           [Re.seqs [Re.lit "term"; ws; Re.lit "sheet"];
            Re.seqs [Re.lit "final"; ws; Re.lit "terms"]]
           1.0);
   ("trade_confirmation",
    Config ["trade confirmation"; "trade date"; "settlement date"; "confirmation"]
           [Re.seqs [Re.lit "trade"; ws; Re.lit "confirmation"];
            Re.seqs [Re.lit "confirmation"; ws; Re.lit "of"; ws; Re.lit "trade"]]
           1.0);
   ("trading_chat",
    Config ["chat"; "conversation"; "message"; "meeting"]
           [Re.seqs [Re.chr "["; d2; Re.chr ":"; d2; Re.chr "]"];
            Re.seqs [Re.chr "["; d2; Re.chr ":"; d2; Re.chr ":"; d2; Re.chr "]"]]
           0.9);
   ("structured_note",
    Config ["structured note"; "structured product"; "capital protected";
            "autocall"; "barrier"; "coupon"]
           [Re.seqs [Re.lit "structured"; ws1; Re.lit "note"];
            Re.seqs [Re.lit "capital"; ws1; Re.lit "protected"]]
           0.95);
   ("contract",
    Config ["agreement"; "contract"; "isda"; "master agreement"; "parties"]
           [Re.seqs [Re.lit "this"; ws1; Re.lit "agreement"];
            Re.seqs [Re.lit "master"; ws1; Re.lit "agreement"]]
           0.85);
   ("invoice",
    Config ["invoice"; "bill"; "payment due"; "total amount"; "invoice number"]
           [Re.seqs [Re.lit "invoice"; ws; Re.opt (Re.chr "#"); Re.plus Re.digit];
            Re.seqs [Re.lit "payment"; ws1; Re.lit "due"]]
           0.9);
   ("research_report",
    Config ["analysis"; "research"; "recommendation"; "target price"; "outlook"]
           [Re.seqs [Re.lit "price"; ws1; Re.lit "target"];
            Re.alts [Re.lit "buy"; Re.lit "sell";
                     Re.seqs [Re.lit "hold"; ws1; Re.lit "recommendation"]]]
           0.8);
   ("general_financial",
    Config ["financial"; "finance"; "investment"; "portfolio"] [] 0.5)].

Definition keyword_matches (cfg : config) (text_lower : string) : nat :=
  length (List.filter (fun kw => contains kw text_lower) (keywords cfg)).

Definition pattern_matches (cfg : config) (text_lower : string) : nat :=
  length (List.filter (fun pattern => Re.search pattern text_lower) (patterns cfg)).

(** The body of the scoring loop of [classify]. *)
Definition category_score (cfg : config) (text_lower : string) : float :=
  let score := 0.0%float in
  let score := (score + PyFloat.of_nat (keyword_matches cfg text_lower) * 0.3)%float in
  let score := (score + PyFloat.of_nat (pattern_matches cfg text_lower) * 0.5)%float in
  (score * weight cfg)%float.

Definition base_scores (text_lower : string) : list (string * float) :=
  List.map (fun '(category, cfg) => (category, category_score cfg text_lower))
           categories.

(** [scores[key] += delta]. *)
Definition bump (key : string) (delta : float) (scores : list (string * float))
  : list (string * float) :=
  List.map (fun '(k, v) => if String.eqb k key then (k, (v + delta)%float) else (k, v))
           scores.

(** ['key' in entities and entities['key']]. *)
Definition present (key : string) (entities : gmap string (list string)) : bool :=
  match entities !! key with
  | Some (_ :: _) => true
  | _ => false
  end.

(** [DocumentClassifier._adjust_with_entities]. *)
Definition adjust_with_entities (scores : list (string * float))
  (entities : gmap string (list string)) : list (string * float) :=
  let scores :=
    if present "isin" entities
    then bump "trade_confirmation" 0.3 (bump "structured_note" 0.5 scores)
    else scores in
  let scores :=
    if present "trade_references" entities
    then bump "trade_confirmation" 0.6 scores else scores in
  let scores :=
    if (1 <? length (default [] (entities !! "person")))%nat
    then bump "trading_chat" 0.4 scores else scores in
  if present "coupon" entities && present "barrier" entities
  then bump "structured_note" 0.6 scores else scores.

(** [DocumentClassifier._format_category_name]. *)
Definition format_category_name (category : string) : string :=
  title (smap (fun c => if Ascii.eqb c "_" then " "%char else c) category).

(** [max(scores.values())]. *)
Definition max_value (scores : list (string * float)) : option float :=
  match scores with
  | [] => None
  | (_, v) :: rest =>
      Some (fold_left (fun best kv => if (best <? kv.2)%float then kv.2 else best)
                      rest v)
  end.

(** [max(scores, key=scores.get)]: the first key of a largest value. *)
Definition max_key (scores : list (string * float)) : option string :=
  match scores with
  | [] => None
  | kv :: rest =>
      Some (fst (fold_left (fun best kv => if (best.2 <? kv.2)%float then kv else best)
                           rest kv))
  end.

(** [sorted(scores.items(), key=lambda x: x[1], reverse=True)]: a stable
    sort, larger values first. *)
Fixpoint insert_desc (x : string * float) (l : list (string * float))
  : list (string * float) :=
  match l with
  | [] => [x]
  | y :: l' => if (x.2 <? y.2)%float then y :: insert_desc x l' else x :: l
  end.

Definition sorted_desc (items : list (string * float)) : list (string * float) :=
  fold_right insert_desc [] items.

Record classification : Type := Classification {
  document_type : string;
  all_scores : list (string * float)
}.

Definition truthy (entities : option (gmap string (list string))) : bool :=
  match entities with
  | Some m => negb (bool_decide (m = ∅))
  | None => false
  end.

Definition scores_of (text : string) (entities : option (gmap string (list string)))
  : list (string * float) :=
  let scores := base_scores (lower text) in
  if truthy entities
  then adjust_with_entities scores (default ∅ entities) else scores.

(** [DocumentClassifier.classify]; the [all_scores] dict is given by its
    items in insertion order. *)
Definition classify (text : string) (entities : option (gmap string (list string)))
  : classification :=
  let scores := scores_of text entities in
  match max_value scores, max_key scores with
  | Some top, Some top_category =>
      if (top =? 0)%float then Classification "Unknown" []
      else
        Classification (format_category_name top_category)
          (List.map (fun '(k, v) => (format_category_name k, PyFloat.round2 v))
                    (firstn 3 (sorted_desc scores)))
  | _, _ => Classification "Unknown" []
  end.

End DocumentClassifier.

(** ** app/services/pdf_llm.py and app/services/document_router.py *)

Module PdfLLM.
Import PyStr.

(** The OpenAI client as [extract] sees it: [None] when no client was
    initialised; otherwise what the chat completion answers to the prompt
    built from the document text, [None] standing for any exception raised
    inside the [try] block. *)
Definition client : Type := option (string -> option string).

Inductive result (A : Type) : Type :=
| Ok (a : A)
| Raise (msg : string).
Arguments Ok {A} a.
Arguments Raise {A} msg.

Definition sentinels : list string :=
  ["not found"; "n/a"; "none"; "-"; ""; "not specified"].

Definition one_of (keys : list string) (key : string) : bool :=
  existsb (String.eqb key) keys.

(** [entities.setdefault(key, []).append(value)]. *)
Definition setdefault_append (key value : string)
  (entities : gmap string (list string)) : gmap string (list string) :=
  <[key := default [] (entities !! key) ++ [value]]> entities.

Definition is_colon (c : ascii) : bool := Ascii.eqb ":" c.

Definition parse_line (entities : gmap string (list string)) (line : string)
  : gmap string (list string) :=
  match split_first is_colon line with
  | None => entities
  | Some (part0, part1) =>
      let key := lower (strip part0) in
      let value := strip part1 in
      if one_of sentinels (lower value) then entities
      else if one_of ["counterparty"; "issuer"; "party"; "investor"] key then
        setdefault_append "counterparty" value entities
      else if one_of ["notional"; "principal"; "amount"; "investment"] key then
        setdefault_append "notional" value entities
      else if String.eqb key "isin" then
        setdefault_append "isin" value entities
      else if one_of ["underlying"; "reference"; "asset"; "instrument"] key then
        setdefault_append "underlying" value entities
      else if one_of ["maturity"; "maturity_date"; "expiry"; "exit"] key then
        setdefault_append "maturity" value entities
      else if one_of ["coupon"; "interest_rate"; "dividend"; "irr"; "return"] key then
        setdefault_append "coupon" value entities
      else if one_of ["barrier"; "threshold"; "multiplier"] key then
        setdefault_append "barrier" value entities
      else if one_of ["trade_date"; "issue_date"; "date"] key then
        setdefault_append "trade_date" value entities
      else if String.eqb key "currency" then
        setdefault_append "currency" value entities
      else if one_of ["payment_frequency"; "frequency"] key then
        setdefault_append "payment_frequency" value entities
      else if one_of ["strike_price"; "strike"] key then
        setdefault_append "strike_price" value entities
      else entities
  end.

(** [PdfLLM._parse_llm_response]. *)
Definition parse_llm_response (response_text : string) : gmap string (list string) :=
  fold_left parse_line (split_chr nl (strip response_text)) ∅.

(** [PdfLLM._extract_with_patterns]. *)
Definition extract_with_patterns (text : string) : gmap string (list string) :=
  filter (fun kv => kv.2 <> []) (FinancialPatterns.extract_all text).

(** [PdfLLM._extract_with_llm]. *)
Definition extract_with_llm (completion : string -> option string) (text : string)
  : gmap string (list string) :=
  match completion text with
  | Some result_text => parse_llm_response result_text
  | None => extract_with_patterns text
  end.

(** What [extract] returns: the entity lists, and the text stored under
    the key [_full_text]. *)
Record extraction : Type := Extraction {
  entities : gmap string (list string);
  _full_text : string
}.

(** [PdfLLM._extract_text_from_pdf], from the page texts and table rows
    [pdfplumber] yields. *)
Definition extract_text_from_pdf (text_parts : list string) : string :=
  TextProcessor.clean_text (join nl_s text_parts).

(** [PdfLLM.extract]. *)
Definition extract (self_client : client) (text_parts : list string)
  : result extraction :=
  let text := extract_text_from_pdf text_parts in
  if is_empty text then Raise "Could not extract text from PDF"
  else
    let entities :=
      match self_client with
      | Some completion => extract_with_llm completion text
      | None => extract_with_patterns text
      end in
    Ok (Extraction entities text).

(** Which of the two strategies produced the entities of a run. *)
Inductive strategy : Type := LLM | Patterns.

Definition strategy_used (self_client : client) (text_parts : list string)
  : strategy :=
  match self_client with
  | Some completion =>
      match completion (extract_text_from_pdf text_parts) with
      | Some _ => LLM
      | None => Patterns
      end
  | None => Patterns
  end.

End PdfLLM.

Module DocumentRouter.

Record routed : Type := Routed {
  file_type : string;
  filename : string;
  method : string;
  entities : PdfLLM.extraction
}.

(** [DocumentRouter._process_pdf]. *)
Definition process_pdf (pdf_llm : PdfLLM.client) (text_parts : list string)
  (filename : string) : PdfLLM.result routed :=
  match PdfLLM.extract pdf_llm text_parts with
  | PdfLLM.Ok entities => PdfLLM.Ok (Routed "pdf" filename "llm_rag" entities)
  | PdfLLM.Raise msg => PdfLLM.Raise msg
  end.

End DocumentRouter.

(** ** First-occurrence deduplication, as both merge engines do it

    [f] is the form stored for an item and [ok] says whether a stored form
    is kept at all; two items collide when their stored forms agree in lower
    case, and [seen] holds the lower-cased forms stored so far. *)

Module Dedup.
Import PyStr.

Fixpoint kept (f : string -> string) (ok : string -> bool) (seen : gset string)
  (items : list string) : list string :=
  match items with
  | [] => []
  | v :: items' =>
      if ok (f v) && negb (bool_decide (lower (f v) ∈ seen))
      then f v :: kept f ok ({[lower (f v)]} ∪ seen) items'
      else kept f ok seen items'
  end.

(** What a merged list [out] owes to the items it was built from: it keeps
    their order, holds no two forms that agree after trimming and
    lower-casing, represents every admissible item, and stores for each the
    form of its first occurrence. *)
Definition first_seen (f : string -> string) (ok : string -> bool)
  (items out : list string) : Prop :=
  out `sublist_of` (f <$> items)
  /\ NoDup ((fun w => lower (strip w)) <$> out)
  /\ (forall w, w ∈ out -> ok w = true)
  /\ (forall v, v ∈ items -> ok (f v) = true ->
        exists w, w ∈ out /\ lower w = lower (f v))
  /\ (forall i v, items !! i = Some v -> ok (f v) = true ->
        (forall j u, j < i -> items !! j = Some u -> lower (f u) <> lower (f v)) ->
        f v ∈ out).

Definition always (_ : string) : bool := true.
Definition nonempty (s : string) : bool := negb (is_empty s).

(** An entity map as the merge engines leave it: no empty list, no two
    values of a list equal in lower case, every value its own normal form
    and not empty. *)
Definition canonical (m : gmap string (list string)) : Prop :=
  map_Forall (fun _ l =>
    l <> []
    /\ NoDup (lower <$> l)
    /\ Forall (fun v => TextProcessor.normalize_entity v = v /\ v <> EmptyString) l) m.

(** The lists an entity type has in the input dicts, in input order. *)
Definition lists_of (entity_type : string)
  (entity_dicts : list (gmap string (list string))) : list (list string) :=
  omap (fun d : gmap string (list string) => d !! entity_type) entity_dicts.

End Dedup.

(** ** Sample inputs *)

Module Samples.

Definition sample_map : gmap string (list string) :=
  <["counterparty" := ["Goldman Sachs"; "JPMorgan"]]>
    (<["isin" := ["Us0378331005"]]> ∅).

End Samples.

(** ** Whitespace collapsing, written out *)

Module TextSpec.
Import PyStr.
(** Whitespace collapsing written out: every maximal run of whitespace
    becomes one space. [in_ws] says that the character before was a space
    of the current run. *)
Fixpoint collapse_from (in_ws : bool) (s : string) : string :=
  match s with
  | EmptyString => EmptyString
  | String c t =>
      if isspace_c c
      then if in_ws then collapse_from true t
           else String " " (collapse_from true t)
      else String c (collapse_from false t)
  end.

Definition collapse (s : string) : string := collapse_from false s.

(** Strings without whitespace. *)
Definition nows (s : string) : Prop := sany isspace_c s = false.
End TextSpec.

(** ** The ISIN format *)

Module IsinSpec.
Import PyStr.
(** The ISIN format as the specification words it: twelve characters, two
    alphabetic, nine alphanumeric, one digit. *)
Definition isin_format (s : string) : Prop :=
  len s = 12
  /\ (forall i c, i < 2 -> index i s = Some c -> isalpha_c c = true)
  /\ (forall i c, 2 <= i < 11 -> index i s = Some c -> isalnum_c c = true)
  /\ (forall c, index 11 s = Some c -> isdigit_c c = true).

Definition long_enough (value : string) : bool := negb (len value <? 2)%nat.

(** The [isin] list after post-processing, as a filter. *)
Definition valid_isins (values : list string) : list string :=
  List.filter ChatNER.validate_isin
    (List.map TextProcessor.normalize_entity (List.filter long_enough values)).
End IsinSpec.

(** ** The confidence heuristic, in parts *)

Module ConfidenceSpec.
Import PyStr.
(** The base score of a label, and the clamp to [0.50, 0.95]. *)
Definition base_of (label : string) : float :=
  default 0.70%float (SpacyNERPipeline.confidence_map !! label).

Definition clamp (x : float) : float := PyFloat.min 0.95 (PyFloat.max 0.50 x).

Definition base_values : list float :=
  [0.85; 0.80; 0.90; 0.85; 0.88; 0.75; 0.82; 0.78; 0.70]%float.
End ConfidenceSpec.

(** ** Scenarios *)

Module Scenarios.
Import PyStr.

(** The text of the end-to-end scenario, four lines. *)
Definition scenario_lines : list string :=
  ["Counterparty: Goldman Sachs"; "Notional: 200 mio"; "ISIN: US0378331005";
   "Coupon: 5%"].

Definition scenario_text : string := join nl_s scenario_lines.

(** The scenario as a document without tables: one paragraph holding the
    text, or one paragraph per line. *)
Definition scenario_doc : DocxParser.document :=
  DocxParser.Document [scenario_text] [].

Definition scenario_doc_lines : DocxParser.document :=
  DocxParser.Document scenario_lines [].

(** What the specification expects of the scenario. *)
Definition scenario_expected (m : gmap string (list string)) : Prop :=
  m !! "counterparty" = Some ["Goldman Sachs"]
  /\ (m !! "notional" = Some ["200 mio"] \/ m !! "notional" = Some ["200"])
  /\ m !! "isin" = Some ["US0378331005"]
  /\ m !! "coupon" = Some ["5%"].

(** A PDF with one line of text, and two clients: one that answers and one
    whose call raises. *)
Definition pdf_parts : list string := ["ISIN: US0378331005"].

Definition answering : PdfLLM.client := Some (fun _ => Some "ISIN: US0378331005").
Definition failing : PdfLLM.client := Some (fun _ => None).

(** The method tag and the entities of a routed PDF. *)
Definition method_of (r : PdfLLM.result DocumentRouter.routed) : option string :=
  match r with
  | PdfLLM.Ok routed => Some (DocumentRouter.method routed)
  | PdfLLM.Raise _ => None
  end.

Definition entities_of (r : PdfLLM.result DocumentRouter.routed)
  : option (gmap string (list string)) :=
  match r with
  | PdfLLM.Ok routed => Some (PdfLLM.entities (DocumentRouter.entities routed))
  | PdfLLM.Raise _ => None
  end.

End Scenarios.

(** ** The classifier's scores, in parts *)

Module ClassifierSpec.
Import PyStr DocumentClassifier.

(** [scores[category]]. *)
Fixpoint get (category : string) (scores : list (string * float)) : option float :=
  match scores with
  | [] => None
  | (k, v) :: rest => if String.eqb k category then Some v else get category rest
  end.

(** The score of a category as the specification words it. *)
Definition spec_score (cfg : config) (text_lower : string) : float :=
  ((PyFloat.of_nat (keyword_matches cfg text_lower) * 0.3
    + PyFloat.of_nat (pattern_matches cfg text_lower) * 0.5) * weight cfg)%float.

Definition add_if (b : bool) (delta v : float) : float :=
  if b then (v + delta)%float else v.

Definition many_persons (entities : gmap string (list string)) : bool :=
  (1 <? length (default [] (entities !! "person")))%nat.

(** The boosts of each category, in the order the code adds them. *)
Definition boosted (category : string) (entities : gmap string (list string))
  (v : float) : float :=
  if String.eqb category "structured_note" then
    add_if (present "coupon" entities && present "barrier" entities) 0.6
      (add_if (present "isin" entities) 0.5 v)
  else if String.eqb category "trade_confirmation" then
    add_if (present "trade_references" entities) 0.6
      (add_if (present "isin" entities) 0.3 v)
  else if String.eqb category "trading_chat" then
    add_if (many_persons entities) 0.4 v
  else v.

(** Every value a score can take: the scoring loop at every possible pair of
    counts, under every combination of boosts. *)
Definition score_at (cfg : config) (k p : nat) : float :=
  ((0.0 + PyFloat.of_nat k * 0.3 + PyFloat.of_nat p * 0.5) * weight cfg)%float.

Definition score_values (cfg : config) : list float :=
  flat_map (fun k => List.map (score_at cfg k) (seq 0 (S (length (patterns cfg)))))
           (seq 0 (S (length (keywords cfg)))).

Definition flag_pairs : list (bool * bool) :=
  [(false, false); (false, true); (true, false); (true, true)].

Definition boosts (category : string) (v : float) : list float :=
  if String.eqb category "structured_note" then
    List.map (fun '(a, b) => add_if b 0.6 (add_if a 0.5 v)) flag_pairs
  else if String.eqb category "trade_confirmation" then
    List.map (fun '(a, b) => add_if b 0.6 (add_if a 0.3 v)) flag_pairs
  else if String.eqb category "trading_chat" then
    [v; add_if true 0.4 v]
  else [v].

Definition attainable : list float :=
  flat_map (fun '(category, cfg) => flat_map (boosts category) (score_values cfg))
           categories.

(** The exact value of a non-negative double, scaled to an integer. *)
Definition key (x : float) : Z :=
  match Prim2SF x with
  | S754_zero _ => 0
  | S754_finite false m e => Zpos m * 2 ^ (e + 1100)
  | _ => -1
  end.

(** On the attainable scores the comparisons of doubles are those of the
    exact values. *)
Definition keyed : list (float * Z) := List.map (fun x => (x, key x)) attainable.

Definition order_check (ks : list (float * Z)) : bool :=
  forallb (fun '(x, kx) =>
    (0 <=? kx)%Z
    && Bool.eqb (x =? 0)%float (kx =? 0)%Z
    && forallb (fun '(y, ky) =>
         Bool.eqb (x <? y)%float (kx <? ky)%Z
         && Bool.eqb (x <=? y)%float (kx <=? ky)%Z) ks)
    ks.

(** The first entry of a largest score: no entry is larger, and every
    earlier one is smaller. *)
Definition first_max (scores : list (string * float)) (i : nat) (k : string)
  (v : float) : Prop :=
  scores !! i = Some (k, v)
  /\ (forall j kj vj, scores !! j = Some (kj, vj) -> (vj <=? v)%float = true)
  /\ (forall j kj vj, j < i -> scores !! j = Some (kj, vj) -> (vj <? v)%float = true).

(** A score table built from the category table. *)
Definition table (g : string -> config -> float) (l : list (string * config))
  : list (string * float) :=
  List.map (fun '(c, cfg) => (c, g c cfg)) l.

(** One step of the search for the largest score. *)
Definition step_pair (best kv : string * float) : string * float :=
  if (best.2 <? kv.2)%float then kv else best.

(** The decision of [classify], from the score table. *)
Definition decide_scores (scores : list (string * float)) : classification :=
  match max_value scores, max_key scores with
  | Some top, Some top_category =>
      if (top =? 0)%float then Classification "Unknown" []
      else
        Classification (format_category_name top_category)
          (List.map (fun '(k, v) => (format_category_name k, PyFloat.round2 v))
                    (firstn 3 (sorted_desc scores)))
  | _, _ => Classification "Unknown" []
  end.

(** Larger scores first. *)
Definition desc (a b : string * float) : Prop := (b.2 <=? a.2)%float = true.

(** Score tables whose values are all attainable. *)
Definition within (scores : list (string * float)) : Prop :=
  forall kv, In kv scores -> In kv.2 attainable.

(** A text in which no keyword occurs and no pattern matches. *)
Definition no_hit (text_lower : string) : Prop :=
  forall category cfg, (category, cfg) ∈ categories ->
    (forall kw, kw ∈ keywords cfg -> contains kw text_lower = false)
    /\ (forall pattern, pattern ∈ patterns cfg -> Re.search pattern text_lower = false).

End ClassifierSpec.

(** ** Tidy text *)

Module TidySpec.
Import PyStr.

(** A text whose whitespace is made of single spaces only; [after_space]
    says that the character before is a space. *)
Fixpoint single_spaced (after_space : bool) (s : string) : bool :=
  match s with
  | EmptyString => true
  | String c t =>
      if isspace_c c
      then Ascii.eqb c " " && negb after_space && single_spaced true t
      else single_spaced false t
  end.

End TidySpec.

(** ** The entity types of the scanners *)

Module ScannerSpec.
Import PyStr.

(** The entity types of the key-value scanner and of the table walker. *)
Definition kv_types : list string :=
  ["counterparty"; "notional"; "underlying"; "maturity"; "coupon"; "barrier";
   "trade_date"; "payment_frequency"].

Definition table_types : list string :=
  ["counterparty"; "notional"; "isin"; "underlying"; "maturity"; "coupon";
   "barrier"; "trade_date"; "currency"].

End ScannerSpec.

(** ** What an LLM answer may hold *)

Module LlmSpec.
Import PyStr PdfLLM.

(** The entity types an LLM answer can fill. *)
Definition llm_types : list string :=
  ["counterparty"; "notional"; "isin"; "underlying"; "maturity"; "coupon";
   "barrier"; "trade_date"; "currency"; "payment_frequency"; "strike_price"].

(** A value as the answer parser stores it: trimmed, not empty, and none of
    the words that stand for an absent value. *)
Definition real_value (v : string) : Prop :=
  strip v = v /\ v <> EmptyString /\ one_of sentinels (lower v) = false.

Definition parsed (m : gmap string (list string)) : Prop :=
  forall t l, m !! t = Some l ->
    t ∈ llm_types /\ l <> [] /\ Forall real_value l.

End LlmSpec.

(** ** The shape the ISIN pattern matches *)

Module PatternSpec.
Import PyStr.

(** What the pattern [ISIN] matches: two upper-case letters, nine
    upper-case letters or digits, one digit. *)
Definition isin_shape (v : string) : bool :=
  (len v =? 12)%nat && sall isupper_c (take 2 v)
  && sall (fun c => isupper_c c || isdigit_c c) (slice 2 11 v)
  && sall isdigit_c (drop 11 v).

End PatternSpec.

(** ** The verdict of the classifier *)

Module VerdictSpec.
Import PyStr DocumentClassifier ClassifierSpec.

(** Every document type [classify] can report. *)
Definition document_types : list string :=
  ["Unknown"; "Term Sheet"; "Trade Confirmation"; "Trading Chat";
   "Structured Note"; "Contract"; "Invoice"; "Research Report";
   "General Financial"].

(** What [_adjust_with_entities] reads of an entity map. *)
Definition hints (entities : gmap string (list string))
  : bool * bool * bool * bool :=
  (present "isin" entities, present "trade_references" entities,
   many_persons entities,
   present "coupon" entities && present "barrier" entities).

(** A boost lowers no score a category can have, and leaves none at zero
    that was not. *)
Definition boosts_check : bool :=
  forallb (fun '(category, cfg) =>
    forallb (fun v =>
      forallb (fun b => (v <=? b)%float
                        && implb (negb (v =? 0)%float) (negb (b =? 0)%float))
              (boosts category v))
      (score_values cfg))
    categories.

End VerdictSpec.

(** ** The categories of the spaCy pass *)

Module CategorySpec.
Import PyStr SpacyNERPipeline.

(** The spaCy label each financial category is filled from. *)
Definition labels : gmap string string :=
  list_to_map
    [("counterparty", "ORG"); ("person", "PERSON");
     ("currency_amounts", "MONEY"); ("dates", "DATE");
     ("percentages", "PERCENT"); ("numbers", "CARDINAL");
     ("organizations", "ORG"); ("locations", "GPE")].

(** The texts of the spans of one label, in document order. *)
Definition texts_of (ents : list span) (label : string) : list string :=
  List.map text (List.filter (fun ent => String.eqb (label_ ent) label) ents).

Definition nonempty (l : list string) : option (list string) :=
  match l with [] => None | _ => Some l end.

(** The categories before the empty ones are removed. *)
Definition filled (ents : list span) : gmap string (list string) :=
  texts_of ents <$> labels.

End CategorySpec.

(** ** app/services/entity_formatter.py *)

Module EntityFormatter.
Import PyStr.

(** A value of the [entities] dict: a list of strings, or one string. *)
Inductive values : Type :=
| Many (l : list string)
| One (s : string).

(** [if not values]. *)
Definition truthy (v : values) : bool :=
  match v with
  | Many [] => false
  | One EmptyString => false
  | _ => true
  end.

(** [values if isinstance(values, list) else [values]]. *)
Definition value_list (v : values) : list string :=
  match v with
  | Many l => l
  | One s => [s]
  end.

(** An entry [{"type": ..., "value": ...}]. *)
Record item : Type := Item {
  type : string;
  value : string
}.

(** [EntityFormatter._standardize_entities]; the dict is given by its items
    in insertion order. *)
Definition standardize_entities (entities : list (string * values)) : list item :=
  fold_left
    (fun standardized '(entity_type, values) =>
       if negb (truthy values) then standardized
       else fold_left
              (fun standardized value =>
                 standardized ++ [Item entity_type (strip value)])
              (value_list values) standardized)
    entities [].

Record stats : Type := Stats {
  total_entities : nat;
  entity_types : gmap string nat
}.

(** [EntityFormatter._calculate_stats]. *)
Definition calculate_stats (entities : list item) : stats :=
  Stats (length entities)
        (fold_left
           (fun entity_types entity =>
              <[type entity := default 0 (entity_types !! type entity) + 1]>
                entity_types)
           entities ∅).

(** What [format] reads of [raw_result]; a key that is missing is [None]. *)
Record raw_result : Type := Raw {
  raw_entities : option (list (string * values));
  raw_file_type : option string;
  raw_method : option string
}.

(** What [format] returns, without the classification, the summary and the
    topics, which it passes on as they are, and without the time stamp. *)
Record formatted : Type := Formatted {
  success : bool;
  filename : string;
  file_type : option string;
  extraction_method : option string;
  entity_count : nat;
  entities : list item;
  statistics : stats
}.

(** [EntityFormatter.format]. *)
Definition format (raw : raw_result) (filename : string) : formatted :=
  let entities := default [] (raw_entities raw) in
  let formatted_entities := standardize_entities entities in
  let stats := calculate_stats formatted_entities in
  Formatted true filename (raw_file_type raw) (raw_method raw)
            (total_entities stats) formatted_entities stats.

End EntityFormatter.

Module FormatterSpec.
Import PyStr EntityFormatter.

(** The entries one pair of the dict gives. *)
Definition entries (kv : string * values) : list item :=
  if truthy kv.2 then List.map (fun v => Item kv.1 (strip v)) (value_list kv.2)
  else [].

(** How many entries have a type. *)
Definition count (t : string) (items : list item) : nat :=
  length (List.filter (fun e => String.eqb (type e) t) items).

Definition positive (n : nat) : option nat :=
  match n with O => None | _ => Some n end.

(** The sum of the counts of a table. *)
Definition sum_counts (m : gmap string nat) : nat :=
  map_fold (fun _ n acc => n + acc) 0 m.

End FormatterSpec.

(** ** app/utils/text_utils.py: chunk_text *)

Module Chunking.
Import PyStr.

(** An index of a slice of a sequence of length [n], as Python reads it: a
    negative one counts from the end, and both are cut to [0, n]. *)
Definition clamp_index (n : nat) (i : Z) : nat :=
  if (i <? 0)%Z then Z.to_nat (Z.max 0 (Z.of_nat n + i))
  else Nat.min (Z.to_nat i) n.

(** [s[a:b]] for any integers. *)
Definition py_slice (a b : Z) (s : string) : string :=
  slice (clamp_index (len s) a) (clamp_index (len s) b) s.

(** [s.rfind(c)]: the last index of [c], or [-1]. *)
Fixpoint rfind_from (c : ascii) (s : string) (i last : Z) : Z :=
  match s with
  | EmptyString => last
  | String x t => rfind_from c t (i + 1) (if Ascii.eqb x c then i else last)
  end.

Definition rfind (c : ascii) (s : string) : Z := rfind_from c s 0 (-1).

(** The end of the chunk that starts at [start]: the body of the loop of
    [chunk_text] up to the [append]. *)
Definition chunk_end (text : string) (max_length start : Z) : Z :=
  let text_len := Z.of_nat (len text) in
  let end_ := (start + max_length)%Z in
  if (end_ <? text_len)%Z then
    let chunk := py_slice start end_ text in
    let last_period := rfind "." chunk in
    let last_question := rfind "?" chunk in
    let last_exclaim := rfind "!" chunk in
    let break_point := Z.max (Z.max last_period last_question) last_exclaim in
    if (Z.of_nat (len chunk) - 100 <? break_point)%Z
    then (start + break_point + 1)%Z else end_
  else end_.

(** The [while] loop of [chunk_text]; [None] when [fuel] rounds do not
    bring it to its end. *)
Fixpoint chunk_loop (fuel : nat) (text : string) (max_length overlap start : Z)
  (chunks : list string) : option (list string) :=
  match fuel with
  | O => None
  | S fuel' =>
      if (start <? Z.of_nat (len text))%Z then
        let end_ := chunk_end text max_length start in
        chunk_loop fuel' text max_length overlap (end_ - overlap)%Z
                   (chunks ++ [strip (py_slice start end_ text)])
      else Some chunks
  end.

(** [TextProcessor.chunk_text]. *)
Definition chunk_text (fuel : nat) (text : string) (max_length overlap : Z)
  : option (list string) :=
  chunk_loop fuel text max_length overlap 0 [].

End Chunking.

Module ChunkingSpec.
Import PyStr.

(** The characters [chunk_text] breaks after. *)
Definition is_break (c : ascii) : bool :=
  Ascii.eqb c "." || Ascii.eqb c "?" || Ascii.eqb c "!".

(** What holds of every chunk. *)
Definition chunk_ok (max_length : Z) (c : string) : Prop :=
  strip c = c /\ (Z.of_nat (len c) <= max_length)%Z.

End ChunkingSpec.

(** ** app/utils/text_utils.py: extract_sentences *)

Module Sentences.
Import PyStr.

(** [pattern.split(s)] for a pattern that matches no empty string: the
    pieces between the matches; [piece] is what was read since the last
    match. *)
Fixpoint split_from (fuel : nat) (r : Re.regex) (p : option ascii) (s piece : string)
  : list string :=
  match fuel with
  | O => [piece]
  | S fuel' =>
      let next :=
        match s with
        | String c t =>
            split_from fuel' r (Some c) t (piece ++ String c EmptyString)%string
        | EmptyString => [piece]
        end in
      match Re.match_at r p s with
      | Some m =>
          if (len (Re.rest m) <? len s)%nat
          then piece :: split_from fuel' r (Re.prev m) (Re.rest m) EmptyString
          else next
      | None => next
      end
  end.

Definition split (r : Re.regex) (s : string) : list string :=
  split_from (S (len s)) r None s EmptyString.

Definition is_end (c : ascii) : bool :=
  Ascii.eqb c "." || Ascii.eqb c "!" || Ascii.eqb c "?".

(** [[.!?]+] *)
Definition sentence_end : Re.regex := Re.plus (Re.Chr is_end).

(** [[s.strip() for s in sentences if s.strip()]]. *)
Definition stripped (sentences : list string) : list string :=
  List.map strip (List.filter (fun s => negb (is_empty (strip s))) sentences).

(** [TextProcessor.extract_sentences]. *)
Definition extract_sentences (text : string) : list string :=
  stripped (split sentence_end text).

End Sentences.

Module SentencesSpec.
Import PyStr Sentences.

(** The pieces between the runs of sentence ends, written out; [in_run]
    says that the character before ended a sentence. *)
Fixpoint pieces (in_run : bool) (s piece : string) : list string :=
  match s with
  | EmptyString => [piece]
  | String c t =>
      if is_end c
      then if in_run then pieces true t EmptyString
           else piece :: pieces true t EmptyString
      else pieces false t (piece ++ String c EmptyString)%string
  end.

(** What is left after the sentence ends at the head of a text. *)
Fixpoint skip_ends (s : string) : string :=
  match s with
  | EmptyString => EmptyString
  | String c t => if is_end c then skip_ends t else s
  end.

End SentencesSpec.

(** ** app/utils/file_handler.py and the dispatch of app/services/document_router.py *)

Module FileHandler.
Import PyStr Chunking.





End FileHandler.

Module Routing.
Import PyStr PdfLLM.

Section Route.
(** The upload, and the three pipelines [route] hands it to. *)
Variable content : Type.
Variable size : content -> Z.
Variable magic : content -> option string.
Variable result_dict : Type.
Variables process_docx process_chat process_pdf
  : content -> string -> result result_dict.


End Route.

End Routing.

Module RoutingSpec.
Import PyStr Chunking.





End RoutingSpec.

(** ** The ISINs of the chat pipeline *)

Module ChatIsinSpec.
Import PyStr.

(** The chat pipeline with the spaCy pass written in: [nlp] gives the spans
    the model finds in a text. *)
Definition chat_extract (nlp : string -> list SpacyNERPipeline.span)
  (text : string) : gmap string (list string) :=
  ChatNER.extract
    (fun cleaned_text =>
       SpacyNERPipeline.extract_financial_entities (nlp cleaned_text))
    text.

(** The matches of the ISIN pattern in the cleaned text. *)
Definition isin_matches (text : string) : list string :=
  Re.findall FinancialPatterns.ISIN (TextProcessor.clean_text text).

Definition some_list (l : list string) : option (list string) :=
  match l with [] => None | _ => Some l end.

End ChatIsinSpec.

(** * Properties *)

(** ** Facts about the string primitives *)

Module PyStrFacts.
Import PyStr.

Lemma is_empty_true (s : string) : is_empty s = true <-> s = EmptyString.
Proof. destruct s; simpl; split; congruence. Qed.

Lemma rstrip_idemp (s : string) : rstrip (rstrip s) = rstrip s.
Proof.
  induction s as [|c t IH]; simpl; [reflexivity|].
  destruct (isspace_c c && is_empty (rstrip t)) eqn:E; simpl; [reflexivity|].
  rewrite IH, E. reflexivity.
Qed.

Lemma lstrip_head (s : string) :
  lstrip s = EmptyString \/
  exists c t, lstrip s = String c t /\ isspace_c c = false.
Proof.
  induction s as [|c t IH]; simpl; [now left|].
  destruct (isspace_c c) eqn:E; [exact IH|].
  right. exists c, t. split; [reflexivity | exact E].
Qed.

Lemma lstrip_rstrip_lstrip (s : string) :
  lstrip (rstrip (lstrip s)) = rstrip (lstrip s).
Proof.
  destruct (lstrip_head s) as [-> | (c & t & -> & Hc)]; [reflexivity|].
  simpl. rewrite Hc. simpl. rewrite Hc. reflexivity.
Qed.

Lemma strip_idemp (s : string) : strip (strip s) = strip s.
Proof.
  unfold strip. rewrite lstrip_rstrip_lstrip. apply rstrip_idemp.
Qed.

Lemma len_empty (s : string) : len s = 0 -> s = EmptyString.
Proof. destruct s; simpl; [reflexivity | discriminate]. Qed.

End PyStrFacts.

(** ** First-occurrence deduplication *)

Module DedupFacts.
Import PyStr Dedup.

Section Kept.
Variable f : string -> string.
Variable ok : string -> bool.

Lemma kept_fresh seen items w :
  w ∈ kept f ok seen items -> lower w ∉ seen.
Proof.
  revert seen. induction items as [|v r IH]; intros seen; simpl.
  - intros H. inversion H.
  - destruct (ok (f v) && negb (bool_decide (lower (f v) ∈ seen))) eqn:E.
    + apply andb_true_iff in E as [_ E]. apply negb_true_iff in E.
      apply bool_decide_eq_false in E.
      intros [-> | H]%elem_of_cons; [exact E|].
      apply IH in H. set_solver.
    + apply IH.
Qed.

Lemma kept_ok seen items w : w ∈ kept f ok seen items -> ok w = true.
Proof.
  revert seen. induction items as [|v r IH]; intros seen; simpl.
  - intros H. inversion H.
  - destruct (ok (f v) && negb (bool_decide (lower (f v) ∈ seen))) eqn:E.
    + apply andb_true_iff in E as [E _].
      intros [-> | H]%elem_of_cons; [exact E | by eapply IH].
    + apply IH.
Qed.

Lemma kept_NoDup seen items : NoDup (lower <$> kept f ok seen items).
Proof.
  revert seen. induction items as [|v r IH]; intros seen; simpl.
  - constructor.
  - destruct (ok (f v) && negb (bool_decide (lower (f v) ∈ seen))) eqn:E.
    + rewrite fmap_cons. constructor; [|apply IH].
      intros (w & Hw & Hin)%list_elem_of_fmap.
      apply kept_fresh in Hin. rewrite <- Hw in Hin. set_solver.
    + apply IH.
Qed.

Lemma kept_sublist seen items : kept f ok seen items `sublist_of` (f <$> items).
Proof.
  revert seen. induction items as [|v r IH]; intros seen; simpl.
  - constructor.
  - destruct (ok (f v) && negb (bool_decide (lower (f v) ∈ seen))).
    + apply sublist_skip, IH.
    + apply sublist_cons, IH.
Qed.

Lemma kept_complete seen items v :
  v ∈ items -> ok (f v) = true ->
  lower (f v) ∈ seen \/ exists w, w ∈ kept f ok seen items /\ lower w = lower (f v).
Proof.
  revert seen. induction items as [|u r IH]; intros seen Hin Hok.
  - inversion Hin.
  - simpl. apply elem_of_cons in Hin as [<- | Hin].
    + rewrite Hok. simpl.
      destruct (bool_decide (lower (f v) ∈ seen)) eqn:E; simpl.
      * left. by apply bool_decide_eq_true in E.
      * right. exists (f v). split; [apply elem_of_cons; by left | done].
    + destruct (ok (f u) && negb (bool_decide (lower (f u) ∈ seen))) eqn:E.
      * destruct (IH ({[lower (f u)]} ∪ seen) Hin Hok) as [H | (w & Hw & Hk)].
        -- apply elem_of_union in H as [H | H]; [|by left].
           apply elem_of_singleton in H. right. exists (f u).
           split; [apply elem_of_cons; by left | done].
        -- right. exists w. split; [apply elem_of_cons; by right | done].
      * by apply IH.
Qed.

(** The form that is kept for a key is that of the first item with it. *)
Lemma kept_first seen items i v :
  items !! i = Some v -> ok (f v) = true -> lower (f v) ∉ seen ->
  (forall j u, j < i -> items !! j = Some u -> lower (f u) <> lower (f v)) ->
  f v ∈ kept f ok seen items.
Proof.
  revert seen i. induction items as [|u r IH]; intros seen i Hi Hok Hns Hfirst.
  - by rewrite lookup_nil in Hi.
  - simpl. destruct i as [|i]; simpl in Hi.
    + injection Hi as ->. rewrite Hok. simpl.
      rewrite bool_decide_eq_false_2 by done. simpl.
      apply elem_of_cons; by left.
    + assert (Hu : lower (f u) <> lower (f v)).
      { apply (Hfirst 0 u); [lia | done]. }
      assert (Hr : forall j w, j < i -> r !! j = Some w ->
                               lower (f w) <> lower (f v)).
      { intros j w Hj Hw. apply (Hfirst (S j) w); [lia | done]. }
      destruct (ok (f u) && negb (bool_decide (lower (f u) ∈ seen))).
      * apply elem_of_cons; right. apply (IH _ i); try done. set_solver.
      * by apply (IH _ i).
Qed.

Lemma kept_all_seen seen items :
  (forall v, v ∈ items -> lower (f v) ∈ seen) -> kept f ok seen items = [].
Proof.
  induction items as [|u r IH]; intros H; simpl; [done|].
  rewrite (bool_decide_eq_true_2 (lower (f u) ∈ seen)).
  - rewrite andb_false_r. apply IH. intros v Hv. apply H.
    apply elem_of_cons; by right.
  - apply H. apply elem_of_cons; by left.
Qed.

(** A list that is already canonical passes unchanged, and what follows is
    filtered against its keys. *)
Lemma kept_canonical_app l : forall seen l',
  Forall (fun v => f v = v /\ ok v = true) l ->
  NoDup (lower <$> l) ->
  (forall v, v ∈ l -> lower v ∉ seen) ->
  kept f ok seen (l ++ l') = l ++ kept f ok (list_to_set (lower <$> l) ∪ seen) l'.
Proof.
  induction l as [|u r IH]; intros seen l' Hc Hnd Hns; simpl.
  - f_equal. set_solver.
  - apply Forall_cons in Hc as [[Hu Hok] Hc].
    rewrite fmap_cons in Hnd. apply NoDup_cons in Hnd as [Hnu Hnd].
    rewrite Hu, Hok. simpl.
    rewrite bool_decide_eq_false_2
      by (apply Hns; apply elem_of_cons; by left).
    simpl. f_equal. rewrite IH; try done.
    + f_equal. f_equal. set_solver.
    + intros v Hv. apply not_elem_of_union. split.
      * intros Heq%elem_of_singleton. apply Hnu. rewrite <- Heq.
        apply list_elem_of_fmap. by exists v.
      * apply Hns. apply elem_of_cons; by right.
Qed.

Lemma kept_twice l :
  Forall (fun v => f v = v /\ ok v = true) l ->
  NoDup (lower <$> l) ->
  kept f ok ∅ (l ++ l) = l.
Proof.
  intros Hc Hnd.
  rewrite kept_canonical_app; [| done | done | intros v _; apply not_elem_of_empty].
  rewrite kept_all_seen; [by rewrite app_nil_r|].
  intros v Hv. apply elem_of_union; left.
  apply elem_of_list_to_set, list_elem_of_fmap. exists v. split; [|done].
  f_equal. rewrite Forall_forall in Hc. by apply Hc.
Qed.


End Kept.

End DedupFacts.

(** ** The two merge engines *)

Module MergeFacts.
Import PyStr PyStrFacts Dedup DedupFacts.

Lemma dedup_from_kept (seen : gset string) (items : list string) :
  ChatNER.dedup_from seen items = kept strip always seen items.
Proof.
  revert seen. induction items as [|v r IH]; intros seen; simpl; [done|].
  destruct (bool_decide (lower (strip v) ∈ seen)); simpl; by rewrite IH.
Qed.

Lemma collect_dict_lookup (merged d : gmap string (list string)) (t : string) :
  ChatNER.collect_dict merged d !! t =
  match d !! t with
  | Some values => Some (default [] (merged !! t) ++ values)
  | None => merged !! t
  end.
Proof.
  unfold ChatNER.collect_dict.
  apply (map_fold_weak_ind (fun r (m : gmap string (list string)) =>
    r !! t = match m !! t with
             | Some values => Some (default [] (merged !! t) ++ values)
             | None => merged !! t
             end)).
  - by rewrite lookup_empty.
  - intros i x m r Hi IH. destruct (decide (i = t)) as [->|Hne].
    + rewrite !lookup_insert_eq. rewrite IH, Hi. done.
    + rewrite !lookup_insert_ne by done. exact IH.
Qed.

Lemma collect_from_lookup (ds : list (gmap string (list string))) :
  forall (acc : gmap string (list string)) (t : string),
  fold_left ChatNER.collect_dict ds acc !! t =
  match acc !! t, lists_of t ds with
  | None, [] => None
  | o, ls => Some (default [] o ++ concat ls)
  end.
Proof.
  unfold lists_of.
  induction ds as [|d ds IH]; intros acc t; simpl.
  - destruct (acc !! t); simpl; [by rewrite app_nil_r | done].
  - rewrite IH, collect_dict_lookup.
    destruct (d !! t) as [values|]; simpl.
    + destruct (acc !! t) as [l|]; simpl.
      * by rewrite app_assoc.
      * done.
    + done.
Qed.

Lemma collect_lookup (ds : list (gmap string (list string))) (t : string) :
  ChatNER.collect ds !! t =
  match lists_of t ds with
  | [] => None
  | ls => Some (concat ls)
  end.
Proof.
  unfold ChatNER.collect. rewrite collect_from_lookup, lookup_empty. done.
Qed.

Lemma chat_merge_lookup (ds : list (gmap string (list string))) (t : string) :
  ChatNER.merge_entities ds !! t =
  match lists_of t ds with
  | [] => None
  | ls => Some (ChatNER.deduplicate (concat ls))
  end.
Proof.
  unfold ChatNER.merge_entities. rewrite lookup_fmap, collect_lookup.
  by destruct (lists_of t ds).
Qed.

Lemma kept_first_seen (f : string -> string) (ok : string -> bool)
  (items : list string) :
  (forall v, strip (f v) = f v) ->
  first_seen f ok items (kept f ok ∅ items).
Proof.
  intros Hstrip. unfold first_seen. repeat split.
  - apply kept_sublist.
  - assert (Heq : (fun w => lower (strip w)) <$> kept f ok ∅ items
                  = lower <$> kept f ok ∅ items).
    { apply Forall_fmap_ext_1, Forall_forall. intros w Hw.
      pose proof (elem_of_sublist _ _ _ Hw (kept_sublist f ok ∅ items)) as Hw'.
      apply list_elem_of_fmap in Hw' as (v & -> & _). by rewrite Hstrip. }
    rewrite Heq. apply kept_NoDup.
  - intros w. apply kept_ok.
  - intros v Hv Hok.
    destruct (kept_complete f ok ∅ items v Hv Hok) as [H | H]; [|done].
    by apply not_elem_of_empty in H.
  - intros i v Hi Hok Hfirst. by apply (kept_first f ok ∅ items i v).
Qed.

Lemma chat_deduplicate_first_seen (items : list string) :
  first_seen strip always items (ChatNER.deduplicate items).
Proof.
  unfold ChatNER.deduplicate. rewrite dedup_from_kept.
  apply kept_first_seen. apply strip_idemp.
Qed.

(** The loops of [DocxParser._merge_entities], for one entity type. *)
Lemma add_items_kept (items : list string) :
  forall (values : list string) (seen : gset string),
  (fold_left DocxParser.add_item items (values, seen)).1 =
  values ++ kept TextProcessor.normalize_entity nonempty seen items.
Proof.
  induction items as [|v r IH]; intros values seen; simpl.
  - by rewrite app_nil_r.
  - unfold nonempty at 1.
    destruct (negb (is_empty (TextProcessor.normalize_entity v)) &&
              negb (bool_decide (lower (TextProcessor.normalize_entity v) ∈ seen)));
      rewrite IH; [by rewrite <- app_assoc | done].
Qed.

Lemma add_dicts_items (t : string) (ds : list (gmap string (list string))) :
  forall st,
  fold_left (DocxParser.add_dict t) ds st =
  fold_left DocxParser.add_item (concat (lists_of t ds)) st.
Proof.
  unfold lists_of.
  induction ds as [|d ds IH]; intros st; simpl; [done|].
  rewrite IH. unfold DocxParser.add_dict.
  destruct (d !! t) as [items|]; simpl; [|done].
  by rewrite fold_left_app.
Qed.

Lemma merged_values_kept (ds : list (gmap string (list string))) (t : string) :
  DocxParser.merged_values ds t =
  kept TextProcessor.normalize_entity nonempty ∅ (concat (lists_of t ds)).
Proof.
  unfold DocxParser.merged_values. by rewrite add_dicts_items, add_items_kept.
Qed.

Lemma normalize_entity_stripped (v : string) :
  strip (TextProcessor.normalize_entity v) = TextProcessor.normalize_entity v.
Proof. unfold TextProcessor.normalize_entity. apply strip_idemp. Qed.

Lemma docx_merged_values_first_seen (ds : list (gmap string (list string)))
  (t : string) :
  first_seen TextProcessor.normalize_entity nonempty
    (concat (lists_of t ds)) (DocxParser.merged_values ds t).
Proof.
  rewrite merged_values_kept. apply kept_first_seen, normalize_entity_stripped.
Qed.

Lemma elem_of_all_types (ds : list (gmap string (list string))) (t : string) :
  forall acc : gset string,
  t ∈ fold_left (fun types (d : gmap string (list string)) => types ∪ dom d) ds acc
  <-> t ∈ acc \/ lists_of t ds <> [].
Proof.
  unfold lists_of.
  induction ds as [|d ds IH]; intros acc; simpl.
  - naive_solver.
  - rewrite IH, elem_of_union, elem_of_dom.
    destruct (d !! t) as [l|] eqn:E; simpl.
    + split; [intros _; by right | intros _; left; right; by eexists].
    + split.
      * intros [[H | [x Hx]] | H]; [by left | done | by right].
      * intros [H | H]; [left; by left | by right].
Qed.

Lemma merged_values_absent (ds : list (gmap string (list string))) (t : string) :
  lists_of t ds = [] -> DocxParser.merged_values ds t = [].
Proof. intros H. rewrite merged_values_kept, H. done. Qed.

Lemma docx_fold_lookup (ds : list (gmap string (list string))) (t : string)
  (types : list string) :
  fold_right
    (fun entity_type (merged : gmap string (list string)) =>
       match DocxParser.merged_values ds entity_type with
       | [] => merged
       | values => <[entity_type := values]> merged
       end) ∅ types !! t =
  if bool_decide (t ∈ types)
  then match DocxParser.merged_values ds t with
       | [] => None
       | values => Some values
       end
  else None.
Proof.
  induction types as [|k types IH]; simpl.
  - by rewrite lookup_empty.
  - destruct (decide (t = k)) as [->|Hne].
    + rewrite bool_decide_eq_true_2 by (apply elem_of_cons; by left).
      destruct (DocxParser.merged_values ds k) eqn:E.
      * rewrite IH. by case_bool_decide.
      * by rewrite lookup_insert_eq.
    + assert (Hiff : bool_decide (t ∈ k :: types) = bool_decide (t ∈ types)).
      { apply bool_decide_ext. rewrite elem_of_cons. naive_solver. }
      rewrite Hiff.
      destruct (DocxParser.merged_values ds k) eqn:E; [exact IH|].
      by rewrite lookup_insert_ne.
Qed.

Lemma docx_merge_lookup (ds : list (gmap string (list string))) (t : string) :
  DocxParser.merge_entities ds !! t =
  match DocxParser.merged_values ds t with
  | [] => None
  | values => Some values
  end.
Proof.
  unfold DocxParser.merge_entities. rewrite docx_fold_lookup.
  case_bool_decide as Hin; [done|].
  rewrite merged_values_absent; [done|].
  destruct (lists_of t ds) eqn:E; [done|]. exfalso. apply Hin.
  apply elem_of_elements. unfold DocxParser.all_types.
  apply elem_of_all_types. right. by rewrite E.
Qed.

End MergeFacts.

(** ** The merge contract and its idempotence *)

Module MergeClaims.
Import PyStr PyStrFacts Dedup DedupFacts MergeFacts Samples.

Lemma post_process_lookup (entities : gmap string (list string)) (text t : string) :
  ChatNER.post_process entities text !! t =
  entities !! t ≫= (fun values =>
    match ChatNER.process_values t values with
    | [] => None
    | processed_values => Some processed_values
    end).
Proof. unfold ChatNER.post_process. by rewrite map_lookup_imap. Qed.

Lemma post_process_nonempty (entities : gmap string (list string))
  (text t : string) (l : list string) :
  ChatNER.post_process entities text !! t = Some l -> l <> [].
Proof.
  rewrite post_process_lookup. destruct (entities !! t) as [values|]; simpl; [|done].
  destruct (ChatNER.process_values t values); [done|]. by intros [= <-].
Qed.

(** C1, as amended. [ChatNER._merge_entities] gives every entity type of an
    input dict the deduplicated concatenation of its lists (a type whose
    lists are all empty stays, with an empty list, until [_post_process]
    drops it), and [DocxParser._merge_entities] gives a type its merged
    values unless there are none. In both the list keeps the input order,
    holds no two values equal after trimming and lower-casing, represents
    every admissible input value and stores the first occurrence: trimmed in
    the chat engine, passed through [normalize_entity] (and dropped when
    that is empty) in the DOCX engine. *)
Theorem merge_first_seen_contract :
  (forall ds t,
     ChatNER.merge_entities ds !! t =
     match lists_of t ds with
     | [] => None
     | ls => Some (ChatNER.deduplicate (concat ls))
     end)
  /\ (forall items, first_seen strip always items (ChatNER.deduplicate items))
  /\ (forall entities text t l,
        ChatNER.post_process entities text !! t = Some l -> l <> [])
  /\ (forall ds t,
        DocxParser.merge_entities ds !! t =
        match DocxParser.merged_values ds t with
        | [] => None
        | values => Some values
        end)
  /\ (forall ds t,
        first_seen TextProcessor.normalize_entity nonempty
          (concat (lists_of t ds)) (DocxParser.merged_values ds t)).
Proof.
  split; [exact chat_merge_lookup|].
  split; [exact chat_deduplicate_first_seen|].
  split; [exact post_process_nonempty|].
  split; [exact docx_merge_lookup | exact docx_merged_values_first_seen].
Qed.

(** C1 fails as stated: the chat engine keeps a type whose list is empty,
    and the DOCX engine stores a title-cased form, not the trimmed
    original. *)
Lemma merge_contract_counterexample :
  ChatNER.merge_entities [({["isin" := []]} : gmap string (list string))] !! "isin"
    = Some []
  /\ DocxParser.merge_entities
       [({["counterparty" := ["ACME CORP"]]} : gmap string (list string))]
       !! "counterparty" = Some ["Acme Corp"]
  /\ "Acme Corp" <> strip "ACME CORP".
Proof. vm_compute. repeat split; discriminate. Qed.

Lemma lists_of_twice (m : gmap string (list string)) (t : string) :
  lists_of t [m; m] = match m !! t with Some l => [l; l] | None => [] end.
Proof. unfold lists_of. simpl. by destruct (m !! t). Qed.

(** C3. Merging an entity map with itself gives the map back, in both merge
    engines, when its lists are deduplicated and normalized. *)
Theorem merge_idempotent (m : gmap string (list string)) :
  canonical m ->
  ChatNER.merge_entities [m; m] = m /\ DocxParser.merge_entities [m; m] = m.
Proof.
  intros Hc. split; apply map_eq; intros t.
  - rewrite chat_merge_lookup, lists_of_twice.
    destruct (m !! t) as [l|] eqn:E; [|done].
    destruct (Hc t l E) as (_ & Hnd & Hall).
    f_equal. unfold ChatNER.deduplicate. rewrite dedup_from_kept. simpl.
    rewrite app_nil_r. apply kept_twice; [|done].
    eapply Forall_impl; [exact Hall|]. simpl. intros v [Hv _]. split; [|done].
    rewrite <- Hv. apply normalize_entity_stripped.
  - rewrite docx_merge_lookup, merged_values_kept, lists_of_twice.
    destruct (m !! t) as [l|] eqn:E; [|done].
    destruct (Hc t l E) as (Hne & Hnd & Hall).
    simpl. rewrite app_nil_r, kept_twice; [by destruct l | | done].
    eapply Forall_impl; [exact Hall|]. simpl. intros v [Hv Hv']. split; [done|].
    unfold nonempty. by destruct v.
Qed.

Lemma merge_idempotent_witness :
  ChatNER.merge_entities [sample_map; sample_map] = sample_map
  /\ DocxParser.merge_entities [sample_map; sample_map] = sample_map.
Proof.
  apply (merge_idempotent sample_map).
  unfold canonical, sample_map.
  apply map_Forall_insert_2; [|apply map_Forall_insert_2; [|apply map_Forall_empty]].
  - split; [discriminate|]. split.
    + vm_compute. repeat constructor; set_solver.
    + repeat constructor; vm_compute; congruence.
  - split; [discriminate|]. split.
    + vm_compute. repeat constructor; set_solver.
    + repeat constructor; vm_compute; congruence.
Defined.

End MergeClaims.

(** ** The substitution of whitespace runs *)

Module ReFacts.
Import PyStr PyStrFacts Re TextSpec.

Lemma len_lstrip (s : string) : len (lstrip s) <= len s.
Proof.
  induction s as [|c t IH]; simpl; [lia|].
  destruct (isspace_c c); simpl; unfold len in *; lia.
Qed.

(** A greedy run of spaces, followed by acceptance, takes them all. *)
Lemma star_loop_space (n : nat) :
  forall (o : option ascii) (s : string) (g : option string),
  len s < n ->
  exists o', star_loop (run space) Some n (MState o s g)
             = Some (MState o' (lstrip s) g).
Proof.
  induction n as [|n IH]; intros o s g Hn; [lia|].
  destruct s as [|c t]; simpl.
  - exists o. reflexivity.
  - destruct (isspace_c c) eqn:Hc.
    + assert (Ht : len t < n) by (unfold len in *; simpl in Hn; lia).
      destruct (IH (Some c) t g Ht) as [o' Ho'].
      exists o'. unfold len. simpl. rewrite (proj2 (Nat.ltb_lt _ _)) by lia.
      simpl in Ho'. rewrite Ho'. reflexivity.
    + exists o. reflexivity.
Qed.

Lemma match_at_ws_run (o : option ascii) (s : string) :
  match s with
  | String c t =>
      if isspace_c c
      then exists o', match_at TextProcessor.ws_run o s
                      = Some (MState o' (lstrip t) None)
      else match_at TextProcessor.ws_run o s = None
  | EmptyString => match_at TextProcessor.ws_run o s = None
  end.
Proof.
  destruct s as [|c t]; [reflexivity|].
  unfold match_at, TextProcessor.ws_run, plus.
  change (run (Seq space (Star space)) Some (MState o (String c t) None))
    with (if isspace_c c
          then star_loop (run space) Some (S (len t)) (MState (Some c) t None)
          else None).
  destruct (isspace_c c) eqn:Hc; [|reflexivity].
  apply star_loop_space. lia.
Qed.

Lemma collapse_from_true (s : string) :
  collapse_from true s = collapse_from false (lstrip s).
Proof.
  induction s as [|c t IH]; simpl; [reflexivity|].
  destruct (isspace_c c) eqn:Hc; [exact IH|].
  simpl. rewrite Hc. reflexivity.
Qed.

Lemma sub_from_ws_run (fuel : nat) :
  forall (o : option ascii) (s : string),
  len s < fuel ->
  sub_from fuel TextProcessor.ws_run " " o s = collapse s.
Proof.
  induction fuel as [|fuel IH]; intros o s Hf; [lia|].
  pose proof (match_at_ws_run o s) as Hm.
  destruct s as [|c t]; cbn [sub_from].
  - rewrite Hm. reflexivity.
  - unfold collapse. cbn [collapse_from]. destruct (isspace_c c) eqn:Hc.
    + destruct Hm as [o' ->]. cbn [rest prev].
      pose proof (len_lstrip t) as Hl.
      assert (Hlt : (len (lstrip t) <? len (String c t))%nat = true).
      { apply Nat.ltb_lt. unfold len in *. simpl. lia. }
      rewrite Hlt.
      rewrite IH by (unfold len in *; simpl in Hf; lia).
      rewrite collapse_from_true. reflexivity.
    + rewrite Hm. f_equal. apply IH. unfold len in *. simpl in Hf. lia.
Qed.

(** [re.sub(r'\s+', ' ', s)] collapses every run of whitespace. *)
Lemma sub_ws_run (s : string) : sub TextProcessor.ws_run " " s = collapse s.
Proof. unfold sub. apply sub_from_ws_run. lia. Qed.

End ReFacts.

(** ** Case mappings and normalization *)

Module NormalizeFacts.
Import PyStr PyStrFacts Re TextSpec ReFacts.

Ltac all_chars c := destruct c as [[] [] [] [] [] [] [] []]; vm_compute; reflexivity.

Lemma upper_lower_c (c : ascii) : upper_c (lower_c c) = upper_c c.
Proof. all_chars c. Qed.

Lemma upper_upper_c (c : ascii) : upper_c (upper_c c) = upper_c c.
Proof. all_chars c. Qed.

Lemma isspace_upper_c (c : ascii) : isspace_c (upper_c c) = isspace_c c.
Proof. all_chars c. Qed.

Lemma isspace_lower_c (c : ascii) : isspace_c (lower_c c) = isspace_c c.
Proof. all_chars c. Qed.

Lemma upper_lower (s : string) : upper (lower s) = upper s.
Proof.
  induction s as [|c t IH]; simpl; [reflexivity|].
  unfold upper, lower in *. simpl. by rewrite upper_lower_c, IH.
Qed.

Lemma upper_title_from (b : bool) (s : string) : upper (title_from b s) = upper s.
Proof.
  revert b. induction s as [|c t IH]; intros b; simpl; [reflexivity|].
  unfold upper in *. simpl. rewrite IH.
  destruct b; by rewrite ?upper_lower_c, ?upper_upper_c.
Qed.

Lemma upper_title (s : string) : upper (title s) = upper s.
Proof. apply upper_title_from. Qed.

Lemma lower_eq_upper_eq (a b : string) : lower a = lower b -> upper a = upper b.
Proof. intros H. by rewrite <- (upper_lower a), H, upper_lower. Qed.

Lemma nows_upper (s : string) : nows (upper s) -> nows s.
Proof.
  unfold nows, upper. induction s as [|c t IH]; simpl; [done|].
  rewrite isspace_upper_c. intros [Hc Ht]%orb_false_iff.
  by rewrite Hc, IH.
Qed.

Lemma nows_title_from (b : bool) (s : string) : nows s -> nows (title_from b s).
Proof.
  unfold nows. revert b. induction s as [|c t IH]; intros b; simpl; [done|].
  intros [Hc Ht]%orb_false_iff. rewrite IH by done.
  destruct b; by rewrite ?isspace_lower_c, ?isspace_upper_c, Hc.
Qed.

Lemma nows_collapse_from (b : bool) (s : string) : nows s -> collapse_from b s = s.
Proof.
  unfold nows. revert b. induction s as [|c t IH]; intros b; simpl; [done|].
  intros [Hc Ht]%orb_false_iff. by rewrite Hc, IH.
Qed.

Lemma nows_lstrip (s : string) : nows s -> lstrip s = s.
Proof.
  unfold nows. destruct s as [|c t]; simpl; [done|].
  intros [Hc Ht]%orb_false_iff. by rewrite Hc.
Qed.

Lemma nows_rstrip (s : string) : nows s -> rstrip s = s.
Proof.
  unfold nows. induction s as [|c t IH]; simpl; [done|].
  intros [Hc Ht]%orb_false_iff. by rewrite Hc, IH.
Qed.

Lemma nows_strip (s : string) : nows s -> strip s = s.
Proof. intros H. unfold strip. by rewrite nows_lstrip, nows_rstrip. Qed.

(** [normalize_entity], with the substitution read as whitespace collapsing. *)
Lemma normalize_entity_collapse (v : string) :
  TextProcessor.normalize_entity v =
  strip (if isupper (collapse v) && (3 <? len (collapse v))%nat
         then title (collapse v) else collapse v).
Proof. unfold TextProcessor.normalize_entity. by rewrite sub_ws_run. Qed.

Lemma normalize_entity_nows (v : string) :
  nows v ->
  TextProcessor.normalize_entity v =
  if isupper v && (3 <? len v)%nat then title v else v.
Proof.
  intros H. rewrite normalize_entity_collapse. unfold collapse.
  rewrite nows_collapse_from by done.
  destruct (isupper v && (3 <? len v)%nat).
  - apply nows_strip. by apply nows_title_from.
  - by apply nows_strip.
Qed.

Lemma upper_normalize_entity_nows (v : string) :
  nows v -> upper (TextProcessor.normalize_entity v) = upper v.
Proof.
  intros H. rewrite normalize_entity_nows by done.
  destruct (isupper v && (3 <? len v)%nat); [apply upper_title | done].
Qed.

End NormalizeFacts.

(** ** ISIN validation *)

Module IsinClaims.
Import PyStr PyStrFacts MergeClaims IsinSpec.

Ltac twelve s :=
  let rec go n s :=
    lazymatch n with
    | O => destruct s as [|? ?]
    | S ?n' => destruct s as [|? s]; [|go n' s]
    end in
  go 12 s.

Lemma validate_isin_len (s : string) : ChatNER.validate_isin s = true -> len s = 12.
Proof.
  unfold ChatNER.validate_isin.
  destruct (len s =? 12)%nat eqn:E; simpl; [|discriminate].
  intros _. by apply Nat.eqb_eq.
Qed.

Lemma validate_isin_format (s : string) :
  ChatNER.validate_isin s = true <-> isin_format s.
Proof.
  split.
  - intros H. pose proof (validate_isin_len s H) as Hl.
    twelve s; try (exfalso; unfold len in Hl; simpl in Hl; lia).
    unfold ChatNER.validate_isin in H. cbn in H.
    repeat match type of H with
    | context [isalpha_c ?x] =>
        destruct (isalpha_c x) eqn:?; cbn in H; [|discriminate H]
    | context [isalnum_c ?x] =>
        destruct (isalnum_c x) eqn:?; cbn in H; [|discriminate H]
    | context [isdigit_c ?x] =>
        destruct (isdigit_c x) eqn:?; cbn in H; [|discriminate H]
    end.
    split; [reflexivity|]. split; [|split].
    + intros i c Hi Hget. do 2 (destruct i as [|i]; [cbn in Hget; congruence|]). lia.
    + intros i c Hi Hget.
      do 2 (destruct i as [|i]; [lia|]).
      do 9 (destruct i as [|i]; [cbn in Hget; congruence|]). lia.
    + intros c Hget. cbn in Hget. congruence.
  - intros (Hl & Ha & Hn & Hd).
    twelve s; try (exfalso; unfold len in Hl; simpl in Hl; lia).
    unfold ChatNER.validate_isin. cbn.
    rewrite (Ha 0 _ ltac:(lia) eq_refl), (Ha 1 _ ltac:(lia) eq_refl).
    rewrite (Hn 2 _ ltac:(lia) eq_refl), (Hn 3 _ ltac:(lia) eq_refl),
      (Hn 4 _ ltac:(lia) eq_refl), (Hn 5 _ ltac:(lia) eq_refl),
      (Hn 6 _ ltac:(lia) eq_refl), (Hn 7 _ ltac:(lia) eq_refl),
      (Hn 8 _ ltac:(lia) eq_refl), (Hn 9 _ ltac:(lia) eq_refl),
      (Hn 10 _ ltac:(lia) eq_refl).
    rewrite (Hd _ eq_refl). reflexivity.
Qed.

Lemma process_values_isin (values : list string) :
  ChatNER.process_values "isin" values = valid_isins values.
Proof.
  unfold ChatNER.process_values, valid_isins.
  induction values as [|v r IH]; [reflexivity|].
  cbn [omap list_omap List.filter List.map]. fold (omap (ChatNER.process_value "isin") r).
  rewrite IH. unfold ChatNER.process_value, long_enough.
  destruct (len v <? 2)%nat; cbn; [reflexivity|].
  destruct (ChatNER.validate_isin (TextProcessor.normalize_entity v)); reflexivity.
Qed.

Lemma valid_isins_valid (values : list string) (v : string) :
  v ∈ valid_isins values -> ChatNER.validate_isin v = true.
Proof.
  unfold valid_isins. rewrite list_elem_of_In, filter_In. by intros [_ H].
Qed.

(** C4. [_validate_isin] accepts exactly the strings of twelve characters
    with two alphabetic, then nine alphanumeric, then one digit; it accepts
    US0378331005 and rejects US037833100 and 12AB34567890; and
    [_post_process] returns, without any error, an [isin] list that holds
    the normalized values that validate and nothing else. *)
Theorem isin_validation :
  (forall s, ChatNER.validate_isin s = true <-> isin_format s)
  /\ ChatNER.validate_isin "US0378331005" = true
  /\ ChatNER.validate_isin "US037833100" = false
  /\ ChatNER.validate_isin "12AB34567890" = false
  /\ (forall entities text,
        ChatNER.post_process entities text !! "isin" =
        entities !! "isin" ≫= (fun values =>
          match valid_isins values with
          | [] => None
          | isins => Some isins
          end))
  /\ (forall entities text isins v,
        ChatNER.post_process entities text !! "isin" = Some isins ->
        v ∈ isins -> ChatNER.validate_isin v = true).
Proof.
  split; [exact validate_isin_format|].
  do 3 (split; [reflexivity|]).
  assert (Hpp : forall entities text,
    ChatNER.post_process entities text !! "isin" =
    entities !! "isin" ≫= (fun values =>
      match valid_isins values with [] => None | isins => Some isins end)).
  { intros entities text. rewrite post_process_lookup.
    destruct (entities !! "isin") as [values|]; [|reflexivity].
    cbn [mbind option_bind]. by rewrite process_values_isin. }
  split; [exact Hpp|].
  intros entities text isins v H Hv. rewrite Hpp in H.
  destruct (entities !! "isin") as [values|]; [|discriminate H].
  cbn [mbind option_bind] in H.
  destruct (valid_isins values) eqn:E; [discriminate H|].
  injection H as <-. rewrite <- E in Hv. by apply valid_isins_valid in Hv.
Qed.

End IsinClaims.

(** ** Normalization and abbreviation expansion in post-processing *)

Module PostProcessClaims.
Import PyStr PyStrFacts TextSpec ReFacts NormalizeFacts Dedup DedupFacts MergeFacts MergeClaims.

Lemma lower_upper_c (c : ascii) : lower_c (upper_c c) = lower_c c.
Proof. all_chars c. Qed.

Lemma lower_upper (s : string) : lower (upper s) = lower s.
Proof.
  induction s as [|c t IH]; simpl; [reflexivity|].
  unfold upper, lower in *. simpl. by rewrite lower_upper_c, IH.
Qed.

Lemma abbreviations_keys (key e : string) :
  ChatNER.abbreviations !! key = Some e -> upper key = key /\ nows key.
Proof.
  unfold ChatNER.abbreviations. intros H.
  apply elem_of_list_to_map_2 in H.
  repeat (apply elem_of_cons in H as [[= -> ->] | H]; [by vm_compute|]).
  inversion H.
Qed.

Lemma expand_matching (text key e : string) :
  ChatNER.abbreviations !! key = Some e -> lower text = lower key ->
  ChatNER.expand_abbreviations text = e.
Proof.
  intros Hk Heq. destruct (abbreviations_keys key e Hk) as [Hu _].
  unfold ChatNER.expand_abbreviations.
  by rewrite (lower_eq_upper_eq _ _ Heq), Hu, Hk.
Qed.

Lemma expand_other (text : string) :
  (forall key, is_Some (ChatNER.abbreviations !! key) -> lower text <> lower key) ->
  ChatNER.expand_abbreviations text = text.
Proof.
  intros H. unfold ChatNER.expand_abbreviations.
  destruct (ChatNER.abbreviations !! upper text) as [e|] eqn:E; [|reflexivity].
  exfalso. apply (H (upper text)); [by eexists|]. by rewrite lower_upper.
Qed.

Lemma process_value_counterparty (v : string) :
  2 <= len v ->
  ChatNER.process_value "counterparty" v =
  Some (ChatNER.expand_abbreviations (TextProcessor.normalize_entity v)).
Proof.
  intros H. unfold ChatNER.process_value.
  by rewrite (proj2 (Nat.ltb_ge _ _)) by done.
Qed.

Lemma process_value_isin (v : string) :
  2 <= len v ->
  ChatNER.process_value "isin" v =
  if ChatNER.validate_isin (TextProcessor.normalize_entity v)
  then Some (TextProcessor.normalize_entity v) else None.
Proof.
  intros H. unfold ChatNER.process_value.
  rewrite (proj2 (Nat.ltb_ge _ _)) by done. cbn.
  by destruct (ChatNER.validate_isin _).
Qed.

Lemma process_value_other (t v : string) :
  2 <= len v -> t <> "counterparty" -> t <> "isin" ->
  ChatNER.process_value t v = Some (TextProcessor.normalize_entity v).
Proof.
  intros H Hc Hi. unfold ChatNER.process_value.
  rewrite (proj2 (Nat.ltb_ge _ _)) by done.
  by rewrite (proj2 (String.eqb_neq _ _) Hc), (proj2 (String.eqb_neq _ _) Hi).
Qed.

Lemma docx_values_normalized (ds : list (gmap string (list string)))
  (t w : string) :
  w ∈ DocxParser.merged_values ds t ->
  exists v, v ∈ concat (lists_of t ds) /\ w = TextProcessor.normalize_entity v.
Proof.
  intros Hw. destruct (docx_merged_values_first_seen ds t) as (Hsub & _).
  pose proof (elem_of_sublist _ _ _ Hw Hsub) as H.
  apply list_elem_of_fmap in H as (v & -> & Hv). by exists v.
Qed.

(** C5. [normalize_entity] title-cases a value that, after whitespace
    collapsing, is fully upper-case and longer than three characters, and
    only trims any other; [_post_process] applies it to the values of every
    entity type and the DOCX merge stores nothing else. So the ISIN
    US0378331005 leaves both pipelines as Us0378331005, which still
    validates, and USD stays as it is. *)
Theorem normalization_title_cases :
  (forall v, isupper (collapse v) = true -> 3 < len (collapse v) ->
     TextProcessor.normalize_entity v = strip (title (collapse v)))
  /\ (forall v, isupper (collapse v) = false \/ len (collapse v) <= 3 ->
        TextProcessor.normalize_entity v = strip (collapse v))
  /\ (forall v, nows v -> isupper v = true -> 3 < len v ->
        TextProcessor.normalize_entity v = title v)
  /\ (forall t v, 2 <= len v -> t <> "counterparty" -> t <> "isin" ->
        ChatNER.process_value t v = Some (TextProcessor.normalize_entity v))
  /\ (forall v, 2 <= len v ->
        ChatNER.process_value "isin" v =
        if ChatNER.validate_isin (TextProcessor.normalize_entity v)
        then Some (TextProcessor.normalize_entity v) else None)
  /\ (forall v, 2 <= len v ->
        ChatNER.process_value "counterparty" v =
        Some (ChatNER.expand_abbreviations (TextProcessor.normalize_entity v)))
  /\ (forall ds t w, w ∈ DocxParser.merged_values ds t ->
        exists v, v ∈ concat (lists_of t ds)
                  /\ w = TextProcessor.normalize_entity v)
  /\ TextProcessor.normalize_entity "US0378331005" = "Us0378331005"
  /\ ChatNER.validate_isin "Us0378331005" = true
  /\ ChatNER.post_process
       ({["isin" := ["US0378331005"]]} : gmap string (list string)) ""
       !! "isin" = Some ["Us0378331005"]
  /\ DocxParser.merge_entities
       [({["isin" := ["US0378331005"]]} : gmap string (list string))]
       !! "isin" = Some ["Us0378331005"]
  /\ TextProcessor.normalize_entity "USD" = "USD".
Proof.
  split.
  { intros v Hu Hl. rewrite normalize_entity_collapse, Hu.
    by rewrite (proj2 (Nat.ltb_lt _ _)) by done. }
  split.
  { intros v H. rewrite normalize_entity_collapse.
    destruct H as [-> | H]; [done|].
    rewrite (proj2 (Nat.ltb_ge _ _)) by done. by rewrite andb_false_r. }
  split.
  { intros v Hn Hu Hl. rewrite normalize_entity_nows by done.
    by rewrite Hu, (proj2 (Nat.ltb_lt _ _)) by done. }
  split; [exact process_value_other|].
  split; [exact process_value_isin|].
  split; [exact process_value_counterparty|].
  split; [exact docx_values_normalized|].
  vm_compute. repeat split.
Qed.

(** C10. [_expand_abbreviations] replaces a value that matches one of the
    ten abbreviations, whatever its case, by the expansion, and returns
    every other value unchanged; GS becomes Goldman Sachs and Goldman Sachs
    stays. In [_post_process] its argument is a normalized, hence trimmed,
    value, and normalization does not disturb the match. *)
Theorem abbreviation_expansion :
  size ChatNER.abbreviations = 10
  /\ (forall text key e,
        ChatNER.abbreviations !! key = Some e -> lower text = lower key ->
        ChatNER.expand_abbreviations text = e)
  /\ (forall text,
        (forall key, is_Some (ChatNER.abbreviations !! key) ->
                     lower text <> lower key) ->
        ChatNER.expand_abbreviations text = text)
  /\ ChatNER.expand_abbreviations "GS" = "Goldman Sachs"
  /\ ChatNER.expand_abbreviations "Goldman Sachs" = "Goldman Sachs"
  /\ (forall v, strip (TextProcessor.normalize_entity v)
                = TextProcessor.normalize_entity v)
  /\ (forall v key e,
        ChatNER.abbreviations !! key = Some e -> lower v = lower key ->
        ChatNER.expand_abbreviations (TextProcessor.normalize_entity v) = e).
Proof.
  split; [by vm_compute|].
  split; [exact expand_matching|].
  split; [exact expand_other|].
  do 2 (split; [by vm_compute|]).
  split; [exact normalize_entity_stripped|].
  intros v key e Hk Heq.
  destruct (abbreviations_keys key e Hk) as [Hu Hn].
  pose proof (lower_eq_upper_eq _ _ Heq) as Hup. rewrite Hu in Hup.
  assert (Hv : nows v) by (apply nows_upper; by rewrite Hup).
  unfold ChatNER.expand_abbreviations.
  by rewrite upper_normalize_entity_nows, Hup, Hk.
Qed.

End PostProcessClaims.

(** ** The recognizer's confidence heuristic *)

Module ConfidenceClaims.
Import PyStr ConfidenceSpec SpacyNERPipeline.

Lemma confidence_map_entries (label : string) (v : float) :
  confidence_map !! label = Some v ->
  (label, v) ∈ [("ORG", 0.85%float); ("PERSON", 0.80%float); ("MONEY", 0.90%float);
                ("DATE", 0.85%float); ("PERCENT", 0.88%float);
                ("CARDINAL", 0.75%float); ("GPE", 0.82%float);
                ("PRODUCT", 0.78%float)].
Proof. unfold confidence_map. apply elem_of_list_to_map_2. Qed.

Lemma base_of_cases (label : string) : In (base_of label) base_values.
Proof.
  unfold base_of. destruct (confidence_map !! label) as [v|] eqn:E.
  - apply confidence_map_entries in E.
    repeat (apply elem_of_cons in E as [[= -> ->] | E]; [by vm_compute; tauto|]).
    inversion E.
  - vm_compute. tauto.
Qed.

Lemma clamp_bounds (b : float) :
  In b base_values ->
  ((0.50 <=? clamp (b + 0.05)) && (clamp (b + 0.05) <=? 0.95)
   && (0.50 <=? clamp (b - 0.10)) && (clamp (b - 0.10) <=? 0.95)
   && (0.50 <=? clamp b) && (clamp b <=? 0.95))%float = true.
Proof.
  intros H. repeat (destruct H as [<- | H]; [by vm_compute|]). destruct H.
Qed.

Lemma get_confidence_cases (ent : span) :
  get_confidence ent =
  clamp (if (15 <? len (text ent))%nat then (base_of (label_ ent) + 0.05)%float
         else if (len (text ent) <? 3)%nat then (base_of (label_ ent) - 0.10)%float
         else base_of (label_ ent)).
Proof. reflexivity. Qed.

(** C9. The confidence of a span is the base score of its label (0.70 for
    a label outside the table), plus 0.05 for a text longer than 15
    characters or minus 0.10 for one shorter than 3, clamped to
    [0.50, 0.95]; an ORG span of length 20 gets exactly 0.90, a span of
    length 2 with an unseen label exactly 0.60; the table has 8 entries,
    all between 0.70 and 0.90. *)
Theorem recognizer_confidence :
  (forall ent, 15 < len (text ent) ->
     get_confidence ent = clamp (base_of (label_ ent) + 0.05))
  /\ (forall ent, len (text ent) < 3 ->
        get_confidence ent = clamp (base_of (label_ ent) - 0.10))
  /\ (forall ent, 3 <= len (text ent) <= 15 ->
        get_confidence ent = clamp (base_of (label_ ent)))
  /\ (forall label, confidence_map !! label = None -> base_of label = 0.70%float)
  /\ (forall ent, (0.50 <=? get_confidence ent)%float = true
                  /\ (get_confidence ent <=? 0.95)%float = true)
  /\ (forall ent, label_ ent = "ORG" -> len (text ent) = 20 ->
        get_confidence ent = 0.90%float
        /\ PyFloat.min 0.95 (0.85 + 0.05) = 0.90%float)
  /\ (forall ent, confidence_map !! label_ ent = None -> len (text ent) = 2 ->
        get_confidence ent = 0.60%float
        /\ PyFloat.max 0.50 (0.70 - 0.10) = 0.60%float)
  /\ size confidence_map = 8
  /\ map_Forall (fun _ v => (0.70 <=? v)%float = true /\ (v <=? 0.90)%float = true)
       confidence_map.
Proof.
  split.
  { intros ent H. rewrite get_confidence_cases.
    by rewrite (proj2 (Nat.ltb_lt _ _)) by done. }
  split.
  { intros ent H. rewrite get_confidence_cases.
    rewrite (proj2 (Nat.ltb_ge _ _)) by lia.
    by rewrite (proj2 (Nat.ltb_lt _ _)) by done. }
  split.
  { intros ent H. rewrite get_confidence_cases.
    rewrite (proj2 (Nat.ltb_ge 15 _)) by lia.
    by rewrite (proj2 (Nat.ltb_ge _ 3)) by lia. }
  split.
  { intros label H. unfold base_of. by rewrite H. }
  split.
  { intros ent. rewrite get_confidence_cases.
    pose proof (clamp_bounds _ (base_of_cases (label_ ent))) as H.
    repeat (apply andb_prop in H as [H ?]).
    destruct (15 <? len (text ent))%nat; [done|].
    by destruct (len (text ent) <? 3)%nat. }
  split.
  { intros ent Hl Ht. rewrite get_confidence_cases, Hl, Ht. by vm_compute. }
  split.
  { intros ent Hl Ht. rewrite get_confidence_cases. unfold base_of.
    rewrite Hl, Ht. by vm_compute. }
  split; [by vm_compute|].
  intros label v H. apply confidence_map_entries in H.
  repeat (apply elem_of_cons in H as [[= -> ->] | H]; [by vm_compute|]).
  inversion H.
Qed.

End ConfidenceClaims.

(** ** The end-to-end scenario and the PDF fallback *)

Module ScenarioClaims.
Import PyStr Scenarios.

(** C2, as amended. The scenario text, as the paragraph text of a document
    without tables, parses to the notional list [200], the isin list
    [Us0378331005] (title-cased by normalization) and the coupon list [5%];
    the key-value scanner alone, on the text with its line breaks, yields
    the counterparty Goldman Sachs and the notional 200 mio. *)
Theorem scenario_parse :
  (DocxParser.parse scenario_doc !! "notional" = Some ["200"]
   /\ DocxParser.parse scenario_doc !! "isin" = Some ["Us0378331005"]
   /\ DocxParser.parse scenario_doc !! "coupon" = Some ["5%"])
  /\ DocxParser.parse scenario_doc_lines = DocxParser.parse scenario_doc
  /\ (DocxParser.extract_key_value_pairs scenario_text !! "counterparty"
        = Some ["Goldman Sachs"]
      /\ DocxParser.extract_key_value_pairs scenario_text !! "notional"
           = Some ["200 mio"]
      /\ DocxParser.extract_key_value_pairs scenario_text !! "coupon"
           = Some ["5%"]
      /\ DocxParser.extract_key_value_pairs scenario_text !! "isin" = None).
Proof. vm_compute. repeat split. Qed.

(** C2 fails as stated: [clean_text] turns the line breaks into spaces
    before the extractors run, so both counterparty extractors read past the
    end of the line, and the merge title-cases the ISIN. *)
Lemma scenario_counterexample :
  DocxParser.extract_text scenario_doc
    = "Counterparty: Goldman Sachs Notional: 200 mio ISIN: US0378331005 Coupon: 5%"
  /\ DocxParser.parse scenario_doc !! "counterparty"
       = Some ["Goldman Sachs Notional";
               "Goldman Sachs Notional: 200 mio ISIN: US0378331005 Coupon: 5%"]
  /\ DocxParser.parse scenario_doc !! "isin" = Some ["Us0378331005"]
  /\ ~ scenario_expected (DocxParser.parse scenario_doc)
  /\ ~ scenario_expected (DocxParser.parse scenario_doc_lines).
Proof.
  split; [by vm_compute|]. split; [by vm_compute|]. split; [by vm_compute|].
  split; intros (H & _); vm_compute in H; discriminate H.
Qed.

End ScenarioClaims.

Module PdfClaims.
Import PyStr Scenarios PdfLLM.

(** C6, as amended. When the client is absent or its call raises, [extract]
    returns the entities of the pattern path, and no error as long as the
    PDF has text; when the call answers, the entities are parsed from the
    answer. [_process_pdf] tags every result with the same method,
    [llm_rag], whichever strategy ran. *)
Theorem pdf_fallback :
  (forall text_parts,
     is_empty (extract_text_from_pdf text_parts) = false ->
     extract None text_parts =
     Ok (Extraction (extract_with_patterns (extract_text_from_pdf text_parts))
                    (extract_text_from_pdf text_parts)))
  /\ (forall completion text_parts,
        is_empty (extract_text_from_pdf text_parts) = false ->
        completion (extract_text_from_pdf text_parts) = None ->
        extract (Some completion) text_parts =
        Ok (Extraction (extract_with_patterns (extract_text_from_pdf text_parts))
                       (extract_text_from_pdf text_parts)))
  /\ (forall completion text_parts answer,
        is_empty (extract_text_from_pdf text_parts) = false ->
        completion (extract_text_from_pdf text_parts) = Some answer ->
        extract (Some completion) text_parts =
        Ok (Extraction (parse_llm_response answer)
                       (extract_text_from_pdf text_parts)))
  /\ (forall self_client text_parts filename,
        is_empty (extract_text_from_pdf text_parts) = false ->
        exists entities,
          extract self_client text_parts = Ok entities
          /\ DocumentRouter.process_pdf self_client text_parts filename =
             Ok (DocumentRouter.Routed "pdf" filename "llm_rag" entities)).
Proof.
  split.
  { intros parts H. unfold extract. by rewrite H. }
  split.
  { intros f parts H Hf. unfold extract, extract_with_llm. by rewrite H, Hf. }
  split.
  { intros f parts answer H Hf. unfold extract, extract_with_llm. by rewrite H, Hf. }
  intros c parts filename H. unfold DocumentRouter.process_pdf, extract.
  rewrite H. by eexists.
Qed.

(** C6 fails as stated: the tag is [llm_rag] when the pattern fallback
    produced the entities, with no client and with a failing one, exactly
    as when the LLM did. *)
Lemma method_tag_counterexample :
  strategy_used None pdf_parts = Patterns
  /\ strategy_used failing pdf_parts = Patterns
  /\ strategy_used answering pdf_parts = LLM
  /\ entities_of (DocumentRouter.process_pdf None pdf_parts "a.pdf")
       = Some (extract_with_patterns "ISIN: US0378331005")
  /\ entities_of (DocumentRouter.process_pdf failing pdf_parts "a.pdf")
       = Some (extract_with_patterns "ISIN: US0378331005")
  /\ method_of (DocumentRouter.process_pdf None pdf_parts "a.pdf") = Some "llm_rag"
  /\ method_of (DocumentRouter.process_pdf failing pdf_parts "a.pdf") = Some "llm_rag"
  /\ method_of (DocumentRouter.process_pdf answering pdf_parts "a.pdf") = Some "llm_rag".
Proof. by vm_compute. Qed.

End PdfClaims.

(** ** The classifier *)

Module ClassifierFacts.
Import PyStr DocumentClassifier ClassifierSpec.

Lemma order_ok_true : order_check keyed = true.
Proof. vm_compute. reflexivity. Qed.

Lemma order_check_zero (ks : list (float * Z)) (x : float) (kx : Z) :
  order_check ks = true -> In (x, kx) ks ->
  (0 <= kx)%Z /\ (x =? 0)%float = (kx =? 0)%Z.
Proof.
  unfold order_check. rewrite forallb_forall. intros Hok H.
  apply Hok in H. cbn beta iota in H.
  apply andb_prop in H as [H _]. apply andb_prop in H as [H1 H2].
  split; [by apply Z.leb_le | by apply eqb_prop].
Qed.

Lemma order_check_order (ks : list (float * Z)) (x y : float) (kx ky : Z) :
  order_check ks = true -> In (x, kx) ks -> In (y, ky) ks ->
  (x <? y)%float = (kx <? ky)%Z /\ (x <=? y)%float = (kx <=? ky)%Z.
Proof.
  unfold order_check. rewrite forallb_forall. intros Hok Hx Hy.
  apply Hok in Hx. cbn beta iota in Hx.
  apply andb_prop in Hx as [_ Hx]. rewrite forallb_forall in Hx.
  apply Hx in Hy. cbn beta iota in Hy.
  apply andb_prop in Hy as [H1 H2]. split; by apply eqb_prop.
Qed.

Lemma attainable_keyed (x : float) : In x attainable -> In (x, key x) keyed.
Proof. intros H. unfold keyed. apply in_map_iff. by exists x. Qed.

Lemma attainable_zero (x : float) :
  In x attainable -> (0 <= key x)%Z /\ (x =? 0)%float = (key x =? 0)%Z.
Proof.
  intros H.
  exact (order_check_zero keyed x (key x) order_ok_true (attainable_keyed x H)).
Qed.

Lemma attainable_order (x y : float) :
  In x attainable -> In y attainable ->
  (x <? y)%float = (key x <? key y)%Z /\ (x <=? y)%float = (key x <=? key y)%Z.
Proof.
  intros Hx Hy.
  exact (order_check_order keyed x y (key x) (key y) order_ok_true
           (attainable_keyed x Hx) (attainable_keyed y Hy)).
Qed.

(** *** The score table in closed form *)

Lemma bump_table (key : string) (delta : float) (g : string -> config -> float)
  (l : list (string * config)) :
  bump key delta (table g l) =
  table (fun c cfg => if String.eqb c key then (g c cfg + delta)%float else g c cfg) l.
Proof.
  unfold bump, table. rewrite List.map_map. apply List.map_ext.
  intros [c cfg]. by destruct (String.eqb c key).
Qed.

Lemma table_ext (g h : string -> config -> float) (l : list (string * config)) :
  (forall c cfg, g c cfg = h c cfg) -> table g l = table h l.
Proof. intros H. unfold table. apply List.map_ext. intros [c cfg]. by rewrite H. Qed.

Ltac eqb_cases :=
  match goal with
  | |- context [String.eqb ?c "structured_note"] =>
      destruct (String.eqb c "structured_note") eqn:E1,
               (String.eqb c "trade_confirmation") eqn:E2,
               (String.eqb c "trading_chat") eqn:E3;
      try apply String.eqb_eq in E1; try apply String.eqb_eq in E2;
      try apply String.eqb_eq in E3; subst;
      try congruence; try reflexivity
  end.

Lemma adjust_table (g : string -> config -> float)
  (entities : gmap string (list string)) (l : list (string * config)) :
  adjust_with_entities (table g l) entities =
  table (fun c cfg => boosted c entities (g c cfg)) l.
Proof.
  unfold adjust_with_entities, boosted, many_persons.
  destruct (present "isin" entities),
           (present "trade_references" entities),
           (1 <? length (default [] (entities !! "person")))%nat,
           (present "coupon" entities && present "barrier" entities);
    rewrite ?bump_table; apply table_ext; intros c cfg; unfold add_if;
    eqb_cases.
Qed.

Lemma boosted_empty (c : string) (v : float) : boosted c ∅ v = v.
Proof. unfold boosted. eqb_cases. Qed.

Lemma scores_of_table (text : string)
  (entities : option (gmap string (list string))) :
  scores_of text entities =
  table (fun c cfg => boosted c (default ∅ entities)
                        (category_score cfg (lower text))) categories.
Proof.
  unfold scores_of, base_scores. fold (table (fun _ cfg => category_score cfg (lower text)) categories).
  destruct (truthy entities) eqn:E.
  - by rewrite adjust_table.
  - apply table_ext. intros c cfg.
    assert (Hd : default ∅ entities = ∅).
    { destruct entities as [m|]; [|done]. simpl in *.
      apply negb_false_iff, bool_decide_eq_true in E. by subst. }
    by rewrite Hd, boosted_empty.
Qed.


(** *** Every score is attainable *)

Lemma filter_length_bound {A : Type} (p : A -> bool) (l : list A) :
  length (List.filter p l) <= length l.
Proof. induction l as [|x l IH]; simpl; [lia|]. destruct (p x); simpl; lia. Qed.

Lemma category_score_at (cfg : config) (t : string) :
  category_score cfg t =
  score_at cfg (keyword_matches cfg t) (pattern_matches cfg t).
Proof. reflexivity. Qed.

Lemma score_at_values (cfg : config) (k p : nat) :
  k <= length (keywords cfg) -> p <= length (patterns cfg) ->
  In (score_at cfg k p) (score_values cfg).
Proof.
  intros Hk Hp. unfold score_values. apply in_flat_map. exists k. split.
  - apply in_seq. lia.
  - apply in_map. apply in_seq. lia.
Qed.

Lemma boosted_boosts (c : string) (entities : gmap string (list string))
  (v : float) : In (boosted c entities v) (boosts c v).
Proof.
  unfold boosted, boosts, flag_pairs.
  destruct (String.eqb c "structured_note").
  { destruct (present "coupon" entities && present "barrier" entities),
             (present "isin" entities); simpl; tauto. }
  destruct (String.eqb c "trade_confirmation").
  { destruct (present "trade_references" entities),
             (present "isin" entities); simpl; tauto. }
  destruct (String.eqb c "trading_chat").
  { destruct (many_persons entities); simpl; tauto. }
  simpl. tauto.
Qed.

Lemma boosted_attainable (c : string) (cfg : config)
  (entities : gmap string (list string)) (t : string) :
  In (c, cfg) categories ->
  In (boosted c entities (category_score cfg t)) attainable.
Proof.
  intros H. unfold attainable. apply in_flat_map. exists (c, cfg).
  split; [exact H|]. apply in_flat_map. exists (category_score cfg t). split.
  - rewrite category_score_at. apply score_at_values; apply filter_length_bound.
  - apply boosted_boosts.
Qed.

Lemma scores_attainable (text : string)
  (entities : option (gmap string (list string))) (kv : string * float) :
  In kv (scores_of text entities) -> In kv.2 attainable.
Proof.
  rewrite scores_of_table. unfold table. intros H.
  apply in_map_iff in H as ([c cfg] & <- & Hin). simpl.
  by apply boosted_attainable.
Qed.

(** *** The code's accumulation against the specification's formula *)

Lemma zero_plus (k : nat) :
  k <= 6 -> (0.0 + PyFloat.of_nat k * 0.3 = PyFloat.of_nat k * 0.3)%float.
Proof.
  intros H. do 7 (destruct k as [|k]; [vm_compute; reflexivity|]). lia.
Qed.

Lemma categories_cases (P : string -> config -> Prop) :
  (forall c cfg, In (c, cfg) categories -> P c cfg) <->
  Forall (fun '(c, cfg) => P c cfg) categories.
Proof.
  rewrite Forall_forall. split.
  - intros H [c cfg] Hin. apply H. by apply list_elem_of_In.
  - intros H c cfg Hin. apply list_elem_of_In in Hin. by apply (H (c, cfg)).
Qed.

Lemma keywords_at_most_six (c : string) (cfg : config) :
  In (c, cfg) categories -> length (keywords cfg) <= 6.
Proof.
  revert c cfg. apply categories_cases. unfold categories.
  repeat constructor; simpl; lia.
Qed.

Lemma category_score_spec (c : string) (cfg : config) (t : string) :
  In (c, cfg) categories -> category_score cfg t = spec_score cfg t.
Proof.
  intros H. unfold category_score, spec_score. cbn zeta.
  rewrite zero_plus; [reflexivity|].
  etransitivity; [apply filter_length_bound | by eapply keywords_at_most_six].
Qed.

Lemma get_table (g : string -> config -> float) (c : string) (cfg : config) :
  In (c, cfg) categories -> get c (table g categories) = Some (g c cfg).
Proof.
  revert c cfg. apply categories_cases. unfold categories.
  repeat constructor.
Qed.


(** *** The largest score and its first key *)

Lemma max_value_pair (rest : list (string * float)) :
  forall b : string * float,
  fold_left (fun best kv => if (best <? kv.2)%float then kv.2 else best) rest b.2
  = (fold_left step_pair rest b).2.
Proof.
  induction rest as [|x r IH]; intros b; simpl; [reflexivity|].
  unfold step_pair at 2. destruct (b.2 <? x.2)%float; apply IH.
Qed.

Lemma fold_max (rest : list (string * float)) :
  forall (pre : list (string * float)) (b : string * float) (i : nat),
  within (pre ++ rest) ->
  pre !! i = Some b ->
  (forall j x, pre !! j = Some x -> (key x.2 <= key b.2)%Z) ->
  (forall j x, j < i -> pre !! j = Some x -> (key x.2 < key b.2)%Z) ->
  exists i',
    (pre ++ rest) !! i' = Some (fold_left step_pair rest b)
    /\ (forall j x, (pre ++ rest) !! j = Some x ->
          (key x.2 <= key (fold_left step_pair rest b).2)%Z)
    /\ (forall j x, j < i' -> (pre ++ rest) !! j = Some x ->
          (key x.2 < key (fold_left step_pair rest b).2)%Z).
Proof.
  induction rest as [|x r IH]; intros pre b i Hok Hb Hle Hlt.
  - exists i. rewrite app_nil_r. simpl. done.
  - assert (Hbin : In b.2 attainable).
    { apply Hok, in_or_app. left. apply list_elem_of_In.
      by eapply list_elem_of_lookup_2. }
    assert (Hxin : In x.2 attainable).
    { apply Hok, in_or_app. right. by left. }
    assert (Hi : i < length pre) by by eapply lookup_lt_Some.
    destruct (attainable_order _ _ Hbin Hxin) as [Hcmp _].
    assert (Happ : pre ++ x :: r = (pre ++ [x]) ++ r) by by rewrite <- app_assoc.
    rewrite Happ in *. simpl fold_left.
    assert (Hs : step_pair b x = if (key b.2 <? key x.2)%Z then x else b)
      by (unfold step_pair; by rewrite Hcmp).
    rewrite Hs. destruct (key b.2 <? key x.2)%Z eqn:E.
    + apply Z.ltb_lt in E. apply (IH (pre ++ [x]) x (length pre)); [done| | |].
      * by rewrite list_lookup_middle.
      * intros j y Hy. apply lookup_app_Some in Hy as [Hy | [_ Hy]].
        -- specialize (Hle j y Hy). lia.
        -- apply list_lookup_singleton_Some in Hy as [_ <-]. lia.
      * intros j y Hj Hy. rewrite lookup_app_l in Hy by done.
        specialize (Hle j y Hy). lia.
    + apply Z.ltb_ge in E. apply (IH (pre ++ [x]) b i); [done| | |].
      * by apply lookup_app_l_Some.
      * intros j y Hy. apply lookup_app_Some in Hy as [Hy | [_ Hy]].
        -- by apply (Hle j y).
        -- by apply list_lookup_singleton_Some in Hy as [_ <-].
      * intros j y Hj Hy. rewrite lookup_app_l in Hy by lia.
        by apply (Hlt j y).
Qed.

Lemma decide_scores_spec (scores : list (string * float)) :
  scores <> [] -> within scores ->
  exists i k v,
    first_max scores i k v
    /\ decide_scores scores =
       if (v =? 0)%float then Classification "Unknown" []
       else Classification (format_category_name k)
              (List.map (fun '(k, v) => (format_category_name k, PyFloat.round2 v))
                        (firstn 3 (sorted_desc scores))).
Proof.
  intros Hne Hok. destruct scores as [|kv0 rest]; [done|].
  destruct (fold_max rest [kv0] kv0 0 Hok eq_refl) as (i & Hi & Hle & Hlt).
  { intros [|j] x Hx; [injection Hx as <-; lia | done]. }
  { intros j x Hj. lia. }
  change ([kv0] ++ rest) with (kv0 :: rest) in *.
  destruct (fold_left step_pair rest kv0) as [k v] eqn:Hf.
  assert (Hv : In v attainable).
  { apply (Hok (k, v)), list_elem_of_In. by eapply list_elem_of_lookup_2. }
  exists i, k, v. split.
  - split; [exact Hi|]. split.
    + intros j kj vj Hj.
      assert (Hvj : In vj attainable).
      { apply (Hok (kj, vj)), list_elem_of_In. by eapply list_elem_of_lookup_2. }
      destruct (attainable_order _ _ Hvj Hv) as [_ ->].
      apply Z.leb_le. apply (Hle j (kj, vj) Hj).
    + intros j kj vj Hlti Hj.
      assert (Hvj : In vj attainable).
      { apply (Hok (kj, vj)), list_elem_of_In. by eapply list_elem_of_lookup_2. }
      destruct (attainable_order _ _ Hvj Hv) as [-> _].
      apply Z.ltb_lt. apply (Hlt j (kj, vj) Hlti Hj).
  - unfold decide_scores, max_value, max_key. destruct kv0 as [k0 v0].
    change v0 with (k0, v0).2 at 1. rewrite max_value_pair.
    fold step_pair. rewrite Hf. reflexivity.
Qed.

(** *** The sorted table *)

Lemma insert_desc_perm (x : string * float) (l : list (string * float)) :
  insert_desc x l ≡ₚ x :: l.
Proof.
  induction l as [|y l IH]; simpl; [done|].
  destruct (x.2 <? y.2)%float; [|done].
  rewrite IH. apply Permutation_swap.
Qed.

Lemma sorted_desc_perm (l : list (string * float)) : sorted_desc l ≡ₚ l.
Proof.
  induction l as [|x l IH]; simpl; [done|].
  unfold sorted_desc in *. simpl. by rewrite insert_desc_perm, IH.
Qed.

Lemma desc_trans (a b c : string * float) :
  In a.2 attainable -> In b.2 attainable -> In c.2 attainable ->
  desc a b -> desc b c -> desc a c.
Proof.
  unfold desc. intros Ha Hb Hc.
  destruct (attainable_order _ _ Hb Ha) as [_ ->].
  destruct (attainable_order _ _ Hc Hb) as [_ ->].
  destruct (attainable_order _ _ Hc Ha) as [_ ->].
  rewrite !Z.leb_le. lia.
Qed.

Lemma insert_desc_sorted (x : string * float) (l : list (string * float)) :
  within (x :: l) -> StronglySorted desc l -> StronglySorted desc (insert_desc x l).
Proof.
  intros Hok Hs. induction Hs as [|y l Hs IH Hy]; simpl.
  - repeat constructor.
  - assert (Hx : In x.2 attainable) by (apply Hok; by left).
    assert (Hyin : In y.2 attainable) by (apply Hok; right; by left).
    destruct (attainable_order _ _ Hx Hyin) as [Hlt Hle].
    destruct (x.2 <? y.2)%float eqn:E.
    + constructor.
      * apply IH. intros kv [<- | H]; apply Hok; [by left | right; by right].
      * rewrite insert_desc_perm. constructor; [|exact Hy].
        unfold desc. rewrite Hle. apply Z.leb_le.
        symmetry in Hlt. apply Z.ltb_lt in Hlt. lia.
    + assert (Hxy : desc x y).
      { unfold desc. destruct (attainable_order _ _ Hyin Hx) as [_ ->].
        apply Z.leb_le. symmetry in Hlt. apply Z.ltb_ge in Hlt. lia. }
      constructor; [by constructor|]. constructor; [exact Hxy|].
      rewrite Forall_forall in Hy. apply Forall_forall. intros z Hz.
      apply (desc_trans x y z); [exact Hx | exact Hyin | | exact Hxy | by apply Hy].
      apply Hok. right; right. by apply list_elem_of_In.
Qed.

Lemma sorted_desc_sorted (l : list (string * float)) :
  within l -> StronglySorted desc (sorted_desc l).
Proof.
  induction l as [|x l IH]; intros Hok; [constructor|].
  unfold sorted_desc in *. simpl. apply insert_desc_sorted.
  - intros kv [<- | H]; [apply Hok; by left|].
    apply Hok. right. apply list_elem_of_In.
    rewrite <- (sorted_desc_perm l). by apply list_elem_of_In.
  - apply IH. intros kv H. apply Hok. by right.
Qed.


(** *** The claims about [classify] *)

Lemma classify_decide (text : string)
  (entities : option (gmap string (list string))) :
  classify text entities = decide_scores (scores_of text entities).
Proof. reflexivity. Qed.

Lemma scores_length (text : string)
  (entities : option (gmap string (list string))) :
  length (scores_of text entities) = 8.
Proof. rewrite scores_of_table. unfold table. by rewrite length_map. Qed.

Lemma scores_nonempty (text : string)
  (entities : option (gmap string (list string))) :
  scores_of text entities <> [].
Proof.
  intros H. pose proof (scores_length text entities) as Hl.
  rewrite H in Hl. discriminate Hl.
Qed.

Lemma scores_within (text : string)
  (entities : option (gmap string (list string))) :
  within (scores_of text entities).
Proof. intros kv. apply scores_attainable. Qed.

Lemma scores_keys (text : string)
  (entities : option (gmap string (list string))) :
  List.map fst (scores_of text entities) = List.map fst categories.
Proof.
  rewrite scores_of_table. unfold table. rewrite List.map_map.
  apply List.map_ext. by intros [c cfg].
Qed.

Lemma classify_spec (text : string)
  (entities : option (gmap string (list string))) :
  exists i k v,
    first_max (scores_of text entities) i k v
    /\ classify text entities =
       if (v =? 0)%float then Classification "Unknown" []
       else Classification (format_category_name k)
              (List.map (fun '(k, v) => (format_category_name k, PyFloat.round2 v))
                        (firstn 3 (sorted_desc (scores_of text entities)))).
Proof.
  rewrite classify_decide.
  apply decide_scores_spec; [apply scores_nonempty | apply scores_within].
Qed.

(** C7. The score of a category is (keyword hits x 0.3 + pattern hits x
    0.5) x weight; with an entity map the boosts of [_adjust_with_entities],
    and only those, are added to it; the score table keeps the insertion
    order of the category table; and, unless the largest score is zero, the
    document type is the category of the largest score, the first of them
    in that order. *)
Theorem classifier_scoring :
  (forall text category cfg, (category, cfg) ∈ categories ->
     get category (scores_of text None) = Some (spec_score cfg (lower text)))
  /\ (forall text entities category cfg, (category, cfg) ∈ categories ->
        get category (scores_of text (Some entities)) =
        Some (boosted category entities (spec_score cfg (lower text))))
  /\ (forall text entities,
        List.map fst (scores_of text entities) = List.map fst categories)
  /\ (forall text entities, exists i k v,
        first_max (scores_of text entities) i k v
        /\ if (v =? 0)%float
           then classify text entities = Classification "Unknown" []
           else document_type (classify text entities) = format_category_name k)
  /\ (get "trading_chat" (scores_of "chat invoice" None) = Some 0.27%float
      /\ get "invoice" (scores_of "chat invoice" None) = Some 0.27%float
      /\ document_type (classify "chat invoice" None) = "Trading Chat").
Proof.
  split.
  { intros text c cfg H%list_elem_of_In. rewrite scores_of_table.
    rewrite (get_table _ c cfg H). simpl.
    by rewrite boosted_empty, (category_score_spec c cfg _ H). }
  split.
  { intros text entities c cfg H%list_elem_of_In. rewrite scores_of_table.
    rewrite (get_table _ c cfg H). simpl.
    by rewrite (category_score_spec c cfg _ H). }
  split; [exact scores_keys|].
  split; [|by vm_compute].
  intros text entities.
  destruct (classify_spec text entities) as (i & k & v & Hmax & Hc).
  exists i, k, v. split; [exact Hmax|].
  rewrite Hc. by destruct (v =? 0)%float.
Qed.

Lemma filter_none {A : Type} (p : A -> bool) (l : list A) :
  (forall x, x ∈ l -> p x = false) -> List.filter p l = [].
Proof.
  induction l as [|x l IH]; intros H; simpl; [done|].
  rewrite (H x) by (apply elem_of_cons; by left).
  apply IH. intros y Hy. apply H. apply elem_of_cons; by right.
Qed.

Lemma zero_counts_zero (c : string) (cfg : config) :
  In (c, cfg) categories -> (score_at cfg 0 0 =? 0)%float = true.
Proof.
  revert c cfg. apply categories_cases. unfold categories.
  repeat constructor.
Qed.

Lemma all_zero_unknown (text : string)
  (entities : option (gmap string (list string))) :
  (forall k v, (k, v) ∈ scores_of text entities -> (v =? 0)%float = true) ->
  classify text entities = Classification "Unknown" [].
Proof.
  intros H. destruct (classify_spec text entities) as (i & k & v & Hmax & ->).
  destruct Hmax as (Hi & _). apply list_elem_of_lookup_2 in Hi.
  by rewrite (H k v Hi).
Qed.

Lemma format_not_unknown (c : string) (cfg : config) :
  In (c, cfg) categories -> format_category_name c <> "Unknown".
Proof.
  revert c cfg. apply categories_cases. unfold categories.
  repeat constructor; by vm_compute.
Qed.

(** C8. When every score, boosts included, is zero, and so for a text with
    no keyword and no pattern that is classified without entities, the
    result is Unknown with an empty score table. Otherwise the table has
    three entries: the first three of the scores sorted with the larger
    first, each rounded to two decimals, under the formatted names. *)
Theorem classifier_zero_case :
  (forall text entities,
     (forall k v, (k, v) ∈ scores_of text entities -> (v =? 0)%float = true) ->
     classify text entities = Classification "Unknown" [])
  /\ (forall text, no_hit (lower text) ->
        classify text None = Classification "Unknown" [])
  /\ (forall text entities k v,
        (k, v) ∈ scores_of text entities -> (v =? 0)%float = false ->
        exists sorted,
          sorted ≡ₚ scores_of text entities
          /\ StronglySorted desc sorted
          /\ all_scores (classify text entities) =
             List.map (fun '(k, v) => (format_category_name k, PyFloat.round2 v))
                      (firstn 3 sorted)
          /\ length (all_scores (classify text entities)) = 3
          /\ document_type (classify text entities) <> "Unknown").
Proof.
  split; [exact all_zero_unknown|]. split.
  { intros text Hno. apply all_zero_unknown. intros k v Hkv.
    rewrite scores_of_table in Hkv. unfold table in Hkv.
    apply list_elem_of_In, in_map_iff in Hkv as ([c cfg] & [= <- <-] & Hin).
    simpl. rewrite boosted_empty, category_score_at.
    destruct (Hno c cfg ltac:(by apply list_elem_of_In)) as [Hkw Hpat].
    unfold keyword_matches, pattern_matches.
    rewrite (filter_none _ _ Hkw), (filter_none _ _ Hpat). simpl.
    by apply (zero_counts_zero c). }
  intros text entities k v Hkv Hv.
  destruct (classify_spec text entities) as (i & k' & v' & Hmax & Hc).
  destruct Hmax as (Hi & Hle & _).
  apply list_elem_of_lookup_2 in Hi as Hin'.
  apply list_elem_of_lookup_1 in Hkv as [j Hj].
  assert (Hvin : In v attainable).
  { apply (scores_within text entities (k, v)), list_elem_of_In.
    by eapply list_elem_of_lookup_2. }
  assert (Hvin' : In v' attainable).
  { by apply (scores_within text entities (k', v')), list_elem_of_In. }
  assert (Hv' : (v' =? 0)%float = false).
  { destruct (attainable_zero v Hvin) as [H0 Hz].
    destruct (attainable_zero v' Hvin') as [H0' Hz'].
    specialize (Hle j k v Hj).
    destruct (attainable_order _ _ Hvin Hvin') as [_ Hcmp].
    rewrite Hcmp in Hle. apply Z.leb_le in Hle.
    rewrite Hz in Hv. apply Z.eqb_neq in Hv.
    rewrite Hz'. apply Z.eqb_neq. lia. }
  rewrite Hv' in Hc. exists (sorted_desc (scores_of text entities)).
  split; [apply sorted_desc_perm|].
  split; [apply sorted_desc_sorted, scores_within|].
  rewrite Hc. simpl. split; [reflexivity|]. split.
  - rewrite length_map, length_firstn, (Permutation_length (sorted_desc_perm _)).
    by rewrite scores_length.
  - rewrite scores_of_table in Hin'. unfold table in Hin'.
    apply list_elem_of_In, in_map_iff in Hin' as ([c cfg] & [= <- _] & Hin).
    by apply (format_not_unknown c cfg).
Qed.

End ClassifierFacts.

(** ** What cleaning and normalizing leave *)

Module TidyFacts.
Import PyStr PyStrFacts Re TextSpec ReFacts NormalizeFacts MergeFacts TidySpec.

Lemma space_fixed_c (c : ascii) :
  isspace_c c = true -> upper_c c = c /\ lower_c c = c
                        /\ isupper_c c = false /\ islower_c c = false.
Proof. destruct c as [[] [] [] [] [] [] [] []]; vm_compute; try discriminate; tauto. Qed.

Lemma single_spaced_fixed (s : string) :
  forall b, single_spaced b s = true -> collapse_from b s = s.
Proof.
  induction s as [|c t IH]; intros b H; simpl in *; [reflexivity|].
  destruct (isspace_c c) eqn:Hc.
  - apply andb_prop in H as [H Ht]. apply andb_prop in H as [Heq Hb].
    apply Ascii.eqb_eq in Heq. apply negb_true_iff in Hb. subst b c.
    by rewrite (IH true Ht).
  - by rewrite (IH false H).
Qed.

Lemma collapse_from_single_spaced (s : string) :
  forall b, single_spaced b (collapse_from b s) = true.
Proof.
  induction s as [|c t IH]; intros b; simpl; [reflexivity|].
  destruct (isspace_c c) eqn:Hc.
  - destruct b; [apply IH|]. simpl. apply IH.
  - simpl. rewrite Hc. apply IH.
Qed.

Lemma single_spaced_lstrip (s : string) :
  forall b, single_spaced b s = true -> single_spaced false (lstrip s) = true.
Proof.
  induction s as [|c t IH]; intros b H; simpl in *; [reflexivity|].
  destruct (isspace_c c) eqn:Hc.
  - apply andb_prop in H as [_ Ht]. by apply (IH true).
  - simpl. by rewrite Hc.
Qed.

Lemma single_spaced_rstrip (s : string) :
  forall b, single_spaced b s = true -> single_spaced b (rstrip s) = true.
Proof.
  induction s as [|c t IH]; intros b H; simpl in *; [reflexivity|].
  destruct (isspace_c c) eqn:Hc; simpl.
  - apply andb_prop in H as [H Ht].
    destruct (is_empty (rstrip t)); [reflexivity|].
    simpl. rewrite Hc, H. by apply IH.
  - rewrite Hc. by apply IH.
Qed.

Lemma single_spaced_strip (s : string) :
  single_spaced false s = true -> single_spaced false (strip s) = true.
Proof.
  intros H. unfold strip. apply single_spaced_rstrip. by eapply single_spaced_lstrip.
Qed.

Lemma single_spaced_no_nl (s : string) :
  forall b, single_spaced b s = true -> sany (Ascii.eqb nl) s = false.
Proof.
  induction s as [|c t IH]; intros b H; [reflexivity|].
  cbn [sany]. cbn [single_spaced] in H.
  destruct (Ascii.eqb nl c) eqn:E.
  - apply Ascii.eqb_eq in E. subst c. vm_compute in H. discriminate H.
  - destruct (isspace_c c).
    + apply andb_prop in H as [_ Ht]. exact (IH true Ht).
    + exact (IH false H).
Qed.

(** [\n\s*\n] finds nothing in a text without line breaks. *)
Lemma sub_blank_lines_none (fuel : nat) (repl : string) :
  forall (o : option ascii) (s : string),
  sany (Ascii.eqb nl) s = false ->
  sub_from fuel TextProcessor.blank_lines repl o s = s.
Proof.
  induction fuel as [|fuel IH]; intros o s H; [reflexivity|].
  destruct s as [|c t]; [reflexivity|].
  cbn [sany] in H. apply orb_false_iff in H as [Hc Ht].
  cbn [sub_from].
  assert (Hm : match_at TextProcessor.blank_lines o (String c t) = None).
  { unfold match_at, TextProcessor.blank_lines.
    change (run (seqs [chr nl; Star space; chr nl]) Some (MState o (String c t) None))
      with (if Ascii.eqb nl c
            then run (Seq (Star space) (chr nl)) Some (MState (Some c) t None)
            else None).
    by rewrite Hc. }
  rewrite Hm. f_equal. by apply IH.
Qed.

(** [clean_text] is whitespace collapsing followed by trimming: its third
    step never finds a line break to normalize. *)
Lemma clean_text_collapse (text : string) :
  TextProcessor.clean_text text = strip (collapse text).
Proof.
  unfold TextProcessor.clean_text. rewrite sub_ws_run. unfold sub.
  apply sub_blank_lines_none. apply (single_spaced_no_nl _ false).
  apply single_spaced_strip. apply collapse_from_single_spaced.
Qed.

Lemma clean_text_single_spaced (text : string) :
  single_spaced false (TextProcessor.clean_text text) = true.
Proof.
  rewrite clean_text_collapse. apply single_spaced_strip, collapse_from_single_spaced.
Qed.

Lemma contains_chr (a : ascii) (s : string) :
  contains (String a EmptyString) s = sany (Ascii.eqb a) s.
Proof.
  induction s as [|c t IH]; [reflexivity|].
  cbn [contains startswith sany]. by rewrite IH, andb_true_r.
Qed.

Lemma split_chr_none (a : ascii) (s : string) :
  sany (Ascii.eqb a) s = false -> split_chr a s = [s].
Proof.
  induction s as [|c t IH]; [reflexivity|].
  cbn [sany split_chr]. intros [Hc Ht]%orb_false_iff.
  rewrite Ascii.eqb_sym, Hc, (IH Ht). reflexivity.
Qed.

(** X1. The text [clean_text] returns is the input with its whitespace
    collapsed and its ends trimmed: single spaces are its only whitespace,
    so it holds no line break and is one line for [split], and cleaning it
    again changes nothing. *)
Theorem clean_text_flat (text : string) :
  TextProcessor.clean_text text = strip (collapse text)
  /\ strip (TextProcessor.clean_text text) = TextProcessor.clean_text text
  /\ single_spaced false (TextProcessor.clean_text text) = true
  /\ contains nl_s (TextProcessor.clean_text text) = false
  /\ split_chr nl (TextProcessor.clean_text text) = [TextProcessor.clean_text text]
  /\ TextProcessor.clean_text (TextProcessor.clean_text text)
     = TextProcessor.clean_text text.
Proof.
  pose proof (clean_text_single_spaced text) as Hs.
  pose proof (single_spaced_no_nl _ _ Hs) as Hn.
  split; [apply clean_text_collapse|].
  split; [rewrite clean_text_collapse; apply strip_idemp|].
  split; [exact Hs|].
  split; [unfold nl_s; by rewrite contains_chr|].
  split; [by apply split_chr_none|].
  rewrite (clean_text_collapse (TextProcessor.clean_text text)).
  unfold collapse. rewrite (single_spaced_fixed _ _ Hs).
  rewrite clean_text_collapse. apply strip_idemp.
Qed.

(** *** [normalize_entity] is idempotent *)

Lemma class_upper_c (c : ascii) :
  isalpha_c (upper_c c) = isalpha_c c /\ isalnum_c (upper_c c) = isalnum_c c
  /\ isdigit_c (upper_c c) = isdigit_c c /\ islower_c (upper_c c) = false.
Proof. destruct c as [[] [] [] [] [] [] [] []]; vm_compute; tauto. Qed.

Lemma class_lower_c (c : ascii) :
  isalpha_c (lower_c c) = isalpha_c c /\ isalnum_c (lower_c c) = isalnum_c c
  /\ isdigit_c (lower_c c) = isdigit_c c /\ isupper_c (lower_c c) = false
  /\ lower_c (lower_c c) = lower_c c.
Proof. destruct c as [[] [] [] [] [] [] [] []]; vm_compute; tauto. Qed.

Lemma title_from_idemp (s : string) :
  forall b, title_from b (title_from b s) = title_from b s.
Proof.
  induction s as [|c t IH]; intros b; simpl; [reflexivity|].
  destruct (class_upper_c c) as (Hu & _), (class_lower_c c) as (Hl & _ & _ & _ & Hll).
  destruct b.
  - rewrite Hll, Hl. by rewrite IH.
  - rewrite upper_upper_c, Hu. by rewrite IH.
Qed.

Lemma is_empty_title_from (b : bool) (s : string) :
  is_empty (title_from b s) = is_empty s.
Proof. by destruct s. Qed.

Lemma title_from_rstrip (s : string) :
  forall b, title_from b (rstrip s) = rstrip (title_from b s).
Proof.
  induction s as [|c t IH]; intros b; simpl; [reflexivity|].
  rewrite <- IH, is_empty_title_from.
  assert (Hsp : isspace_c (if b then lower_c c else upper_c c) = isspace_c c)
    by (destruct b; [apply isspace_lower_c | apply isspace_upper_c]).
  rewrite Hsp. by destruct (isspace_c c && is_empty (rstrip t)).
Qed.

Lemma title_lstrip (s : string) : title (lstrip s) = lstrip (title s).
Proof.
  unfold title. induction s as [|c t IH]; simpl; [reflexivity|].
  rewrite isspace_upper_c. destruct (isspace_c c) eqn:Hc; [|reflexivity].
  destruct (space_fixed_c c Hc) as (_ & _ & Hu & Hl).
  unfold isalpha_c. rewrite Hu, Hl. exact IH.
Qed.

Lemma title_strip (s : string) : title (strip s) = strip (title s).
Proof. unfold strip, title. rewrite title_from_rstrip. f_equal. apply title_lstrip. Qed.

Lemma single_spaced_title_from (s : string) :
  forall b b', single_spaced b (title_from b' s) = single_spaced b s.
Proof.
  induction s as [|c t IH]; intros b b'; simpl; [reflexivity|].
  assert (Hsp : isspace_c (if b' then lower_c c else upper_c c) = isspace_c c)
    by (destruct b'; [apply isspace_lower_c | apply isspace_upper_c]).
  rewrite Hsp, !IH. destruct (isspace_c c) eqn:Hc; [|reflexivity].
  destruct (space_fixed_c c Hc) as (Hu & Hl & _). by destruct b'; rewrite ?Hu, ?Hl.
Qed.

Lemma sany_lstrip (p : ascii -> bool) (s : string) :
  (forall c, isspace_c c = true -> p c = false) ->
  sany p (lstrip s) = sany p s.
Proof.
  intros Hp. induction s as [|c t IH]; simpl; [reflexivity|].
  destruct (isspace_c c) eqn:Hc; [|reflexivity]. by rewrite (Hp c Hc).
Qed.

Lemma sany_rstrip (p : ascii -> bool) (s : string) :
  (forall c, isspace_c c = true -> p c = false) ->
  sany p (rstrip s) = sany p s.
Proof.
  intros Hp. induction s as [|c t IH]; [reflexivity|].
  cbn [rstrip sany]. rewrite <- IH.
  destruct (isspace_c c) eqn:Hc; cbn [andb]; [|reflexivity].
  destruct (rstrip t) eqn:E; cbn; [by rewrite (Hp c Hc) | reflexivity].
Qed.

Lemma isupper_strip (s : string) : isupper (strip s) = isupper s.
Proof.
  unfold isupper, strip.
  rewrite !sany_rstrip, !sany_lstrip; try done;
    intros c Hc; by destruct (space_fixed_c c Hc) as (_ & _ & ? & ?).
Qed.

Lemma len_rstrip (s : string) : len (rstrip s) <= len s.
Proof.
  induction s as [|c t IH]; simpl; [lia|].
  destruct (isspace_c c && is_empty (rstrip t)); unfold len in *; simpl; lia.
Qed.

Lemma len_strip (s : string) : len (strip s) <= len s.
Proof.
  unfold strip. etransitivity; [apply len_rstrip | apply len_lstrip].
Qed.

Lemma normalize_entity_single_spaced (v : string) :
  single_spaced false (TextProcessor.normalize_entity v) = true.
Proof.
  rewrite normalize_entity_collapse. apply single_spaced_strip.
  destruct (isupper (collapse v) && (3 <? len (collapse v))%nat).
  - unfold title. rewrite single_spaced_title_from. apply collapse_from_single_spaced.
  - apply collapse_from_single_spaced.
Qed.

Lemma normalize_entity_idemp (v : string) :
  TextProcessor.normalize_entity (TextProcessor.normalize_entity v)
  = TextProcessor.normalize_entity v.
Proof.
  pose proof (normalize_entity_single_spaced v) as Hs.
  assert (Hfix : collapse (TextProcessor.normalize_entity v)
                 = TextProcessor.normalize_entity v)
    by apply (single_spaced_fixed _ _ Hs).
  rewrite (normalize_entity_collapse (TextProcessor.normalize_entity v)), !Hfix.
  clear Hfix. destruct (isupper (TextProcessor.normalize_entity v)
            && (3 <? len (TextProcessor.normalize_entity v))%nat) eqn:E;
    [|apply normalize_entity_stripped].
  apply andb_prop in E as [Hu Hl].
  rewrite normalize_entity_collapse in *.
  destruct (isupper (collapse v) && (3 <? len (collapse v))%nat) eqn:E'.
  - rewrite title_strip, strip_idemp. unfold title. by rewrite title_from_idemp.
  - exfalso. rewrite isupper_strip in Hu. rewrite Hu in E'. simpl in E'.
    apply Nat.ltb_lt in Hl. apply Nat.ltb_ge in E'.
    pose proof (len_strip (collapse v)). lia.
Qed.

(** X2. A normalized entity is trimmed, has single spaces as its only
    whitespace, and normalizing it again changes nothing. *)
Theorem normalize_entity_idempotent (v : string) :
  TextProcessor.normalize_entity (TextProcessor.normalize_entity v)
  = TextProcessor.normalize_entity v
  /\ strip (TextProcessor.normalize_entity v) = TextProcessor.normalize_entity v
  /\ single_spaced false (TextProcessor.normalize_entity v) = true
  /\ collapse (TextProcessor.normalize_entity v) = TextProcessor.normalize_entity v.
Proof.
  pose proof (normalize_entity_single_spaced v) as Hs.
  split; [apply normalize_entity_idemp|].
  split; [apply normalize_entity_stripped|].
  split; [exact Hs | apply (single_spaced_fixed _ _ Hs)].
Qed.

End TidyFacts.

(** ** Merging in stages *)

Module StagedMergeFacts.
Import PyStr PyStrFacts Dedup DedupFacts MergeFacts TidyFacts.

Section Staged.
Variable f : string -> string.
Variable ok : string -> bool.

Lemma kept_app (A B : list string) :
  forall seen : gset string,
  kept f ok seen (A ++ B) =
  kept f ok seen A
  ++ kept f ok (list_to_set (lower <$> kept f ok seen A) ∪ seen) B.
Proof.
  induction A as [|v A IH]; intros seen; simpl.
  - f_equal. set_solver.
  - destruct (ok (f v) && negb (bool_decide (lower (f v) ∈ seen))); simpl.
    + f_equal. rewrite IH. f_equal. f_equal. set_solver.
    + apply IH.
Qed.

Lemma kept_fixed (A : list string) :
  (forall v, f (f v) = f v) ->
  Forall (fun w => f w = w /\ ok w = true) (kept f ok ∅ A).
Proof.
  intros Hf. apply Forall_forall. intros w Hw. split; [|by eapply kept_ok].
  pose proof (elem_of_sublist _ _ _ Hw (kept_sublist f ok ∅ A)) as H.
  apply list_elem_of_fmap in H as (v & -> & _). apply Hf.
Qed.

Lemma kept_staged (A B : list string) :
  (forall v, f (f v) = f v) ->
  kept f ok ∅ (kept f ok ∅ A ++ B) = kept f ok ∅ (A ++ B).
Proof.
  intros Hf. rewrite (kept_app A B ∅).
  apply kept_canonical_app;
    [by apply kept_fixed | apply kept_NoDup
     | intros v _; apply not_elem_of_empty].
Qed.

End Staged.

Lemma lists_of_app (t : string) (a b : list (gmap string (list string))) :
  lists_of t (a ++ b) = lists_of t a ++ lists_of t b.
Proof. unfold lists_of. apply omap_app. Qed.

Lemma docx_staged (ds1 ds2 : list (gmap string (list string))) :
  DocxParser.merge_entities (DocxParser.merge_entities ds1 :: ds2)
  = DocxParser.merge_entities (ds1 ++ ds2).
Proof.
  apply map_eq. intros t. rewrite !docx_merge_lookup, !merged_values_kept.
  f_equal. rewrite lists_of_app, concat_app.
  rewrite <- (kept_staged _ _ (concat (lists_of t ds1)))
    by apply normalize_entity_idemp.
  f_equal. unfold lists_of at 1. cbn [omap list_omap].
  rewrite docx_merge_lookup, merged_values_kept.
  fold (lists_of t ds2).
  by destruct (kept TextProcessor.normalize_entity nonempty ∅
                 (concat (lists_of t ds1))).
Qed.

Lemma docx_output_canonical (ds : list (gmap string (list string))) :
  canonical (DocxParser.merge_entities ds).
Proof.
  intros t l. rewrite docx_merge_lookup, merged_values_kept.
  set (A := concat (lists_of t ds)). intros H.
  assert (Hl : l = kept TextProcessor.normalize_entity nonempty ∅ A /\ l <> []).
  { destruct (kept _ _ ∅ A); [done|]. by injection H as <-. }
  destruct Hl as [-> Hne]. split; [exact Hne|]. split; [apply kept_NoDup|].
  eapply Forall_impl; [apply kept_fixed, normalize_entity_idemp|].
  intros w [Hw Hok]. split; [exact Hw|]. unfold nonempty in Hok. by destruct w.
Qed.

(** X3. The DOCX merge can be done in stages: merging an earlier merge
    result with further maps gives what merging all the maps at once gives.
    Its result has no empty list and no empty value, every value is its own
    normal form, and merging the result again, alone, returns it. *)
Theorem docx_merge_staged :
  (forall ds1 ds2,
     DocxParser.merge_entities (DocxParser.merge_entities ds1 :: ds2)
     = DocxParser.merge_entities (ds1 ++ ds2))
  /\ (forall ds, canonical (DocxParser.merge_entities ds))
  /\ (forall ds,
        DocxParser.merge_entities [DocxParser.merge_entities ds]
        = DocxParser.merge_entities ds).
Proof.
  split; [exact docx_staged|]. split; [exact docx_output_canonical|].
  intros ds. rewrite docx_staged. by rewrite app_nil_r.
Qed.

Lemma chat_staged (ds1 ds2 : list (gmap string (list string))) :
  ChatNER.merge_entities (ChatNER.merge_entities ds1 :: ds2)
  = ChatNER.merge_entities (ds1 ++ ds2).
Proof.
  apply map_eq. intros t. rewrite !chat_merge_lookup.
  rewrite lists_of_app. unfold lists_of at 1. cbn [omap list_omap].
  fold (lists_of t ds2). rewrite chat_merge_lookup.
  destruct (lists_of t ds1) as [|l ls] eqn:E; [done|].
  rewrite <- E. assert (Hne : lists_of t ds1 ++ lists_of t ds2 <> [])
    by (rewrite E; discriminate).
  destruct (lists_of t ds1 ++ lists_of t ds2) as [|y ys] eqn:E2; [done|].
  rewrite <- E2, concat_app. f_equal.
  unfold ChatNER.deduplicate. rewrite !dedup_from_kept.
  change (concat (kept strip always ∅ (concat (lists_of t ds1)) :: lists_of t ds2))
    with (kept strip always ∅ (concat (lists_of t ds1)) ++ concat (lists_of t ds2)).
  apply kept_staged, strip_idemp.
Qed.

Lemma chat_values_stripped (ds : list (gmap string (list string)))
  (t : string) (l : list string) (v : string) :
  ChatNER.merge_entities ds !! t = Some l -> v ∈ l -> strip v = v.
Proof.
  rewrite chat_merge_lookup. destruct (lists_of t ds) as [|x xs]; [done|].
  intros [= <-] Hv. unfold ChatNER.deduplicate in Hv. rewrite dedup_from_kept in Hv.
  pose proof (elem_of_sublist _ _ _ Hv (kept_sublist _ _ _ _)) as H.
  apply list_elem_of_fmap in H as (u & -> & _). apply strip_idemp.
Qed.

(** X4. The chat merge can be done in stages as well, merging its result
    again returns it, and every value it stores is trimmed. *)
Theorem chat_merge_staged :
  (forall ds1 ds2,
     ChatNER.merge_entities (ChatNER.merge_entities ds1 :: ds2)
     = ChatNER.merge_entities (ds1 ++ ds2))
  /\ (forall ds,
        ChatNER.merge_entities [ChatNER.merge_entities ds]
        = ChatNER.merge_entities ds)
  /\ (forall ds t l v,
        ChatNER.merge_entities ds !! t = Some l -> v ∈ l -> strip v = v).
Proof.
  split; [exact chat_staged|]. split; [|exact chat_values_stripped].
  intros ds. rewrite chat_staged. by rewrite app_nil_r.
Qed.

End StagedMergeFacts.

(** ** What the scanners keep *)

Module ScannerFacts.
Import PyStr PyStrFacts TidyFacts ScannerSpec DocxParser.

Lemma dom_append (key value : string) (m : gmap string (list string)) :
  dom (append key value m) = dom m.
Proof. unfold append. apply dom_alter_L. Qed.

Lemma dom_extend (key : string) (values : list string)
  (m : gmap string (list string)) :
  dom (extend key values m) = dom m.
Proof. unfold extend. apply dom_alter_L. Qed.

Lemma dom_kv_line (line : string) (m : gmap string (list string)) :
  dom (kv_line line m) = dom m.
Proof.
  unfold kv_line. destruct (split_first is_key_sep (strip line)) as [[a b]|]; [|done].
  repeat match goal with
  | |- context [if ?c then _ else _] => destruct c
  end; by rewrite ?dom_append.
Qed.

Lemma dom_table_pair (key value : string) (m : gmap string (list string)) :
  dom (table_pair key value m) = dom m.
Proof.
  unfold table_pair.
  repeat match goal with
  | |- context [if ?c then _ else _] => destruct c
  | |- context [match ?l with [] => _ | _ :: _ => _ end] => destruct l
  end; by rewrite ?dom_append, ?dom_extend.
Qed.

Lemma dom_table_row (cells : list string) :
  forall m : gmap string (list string), dom (table_row cells m) = dom m.
Proof.
  induction cells as [|key cells IH]; intros m; [done|].
  destruct cells as [|value cells]; [done|].
  change (table_row (key :: value :: cells) m)
    with (table_row (value :: cells) (table_pair (lower key) value m)).
  by rewrite IH, dom_table_pair.
Qed.

Lemma dom_fold_left {A : Type} (step : gmap string (list string) -> A ->
                                      gmap string (list string))
  (l : list A) :
  (forall m x, dom (step m x) = dom m) ->
  forall m, dom (fold_left step l m) = dom m.
Proof.
  intros Hstep. induction l as [|x l IH]; intros m; simpl; [done|].
  by rewrite IH, Hstep.
Qed.

(** X5. Whatever the text or the tables, the key-value scanner returns a
    map with exactly its eight entity types and the table walker one with
    exactly its nine, each with a list that may be empty: no type is ever
    added or removed. *)
Theorem scanners_keep_their_types :
  (forall text,
     dom (extract_key_value_pairs text) = list_to_set kv_types)
  /\ (forall doc, dom (extract_from_tables doc) = list_to_set table_types).
Proof.
  split.
  - intros text. unfold extract_key_value_pairs.
    rewrite dom_fold_left by (intros; apply dom_kv_line). by vm_compute.
  - intros doc. unfold extract_from_tables.
    rewrite dom_fold_left; [by vm_compute|].
    intros m table. apply dom_fold_left. intros m' row. apply dom_table_row.
Qed.

Lemma kv_line_shape (line : string) (m : gmap string (list string)) :
  kv_line line m = m
  \/ exists key value, key ∈ kv_types /\ kv_line line m = append key value m.
Proof.
  unfold kv_line. destruct (split_first is_key_sep (strip line)) as [[a b]|];
    [|by left].
  repeat match goal with
  | |- context [if ?c then _ else _] => destruct c
  end; try (by left);
  right; eexists _, _; (split; [|reflexivity]); unfold kv_types; set_solver.
Qed.

(** X6. In [parse] the key-value scanner reads the cleaned text, which is
    a single line: so it contributes at most one value in all, that of the
    first separator of the whole document text. *)
Theorem parse_scans_one_line (doc : document) :
  extract_key_value_pairs (extract_text doc)
  = kv_line (extract_text doc) (empty_lists kv_types)
  /\ (extract_key_value_pairs (extract_text doc) = empty_lists kv_types
      \/ exists key value,
           key ∈ kv_types
           /\ extract_key_value_pairs (extract_text doc)
              = append key value (empty_lists kv_types))
  /\ (forall t l, extract_key_value_pairs (extract_text doc) !! t = Some l ->
        length l <= 1).
Proof.
  assert (H1 : extract_key_value_pairs (extract_text doc)
               = kv_line (extract_text doc) (empty_lists kv_types)).
  { unfold extract_key_value_pairs, extract_text.
    rewrite split_chr_none; [reflexivity|].
    apply (single_spaced_no_nl _ false), clean_text_single_spaced. }
  split; [exact H1|]. rewrite H1.
  pose proof (kv_line_shape (extract_text doc) (empty_lists kv_types)) as Hs.
  split; [exact Hs|]. intros t l Hl.
  assert (He : forall t l, empty_lists kv_types !! t = Some l -> l = []).
  { intros t' l' H. unfold empty_lists in H.
    apply elem_of_list_to_map_2, list_elem_of_In, in_map_iff in H
      as (k & [= _ <-] & _). reflexivity. }
  destruct Hs as [Hs | (key & value & _ & Hs)]; rewrite Hs in Hl.
  - rewrite (He t l Hl). simpl. lia.
  - unfold append in Hl. rewrite lookup_alter in Hl. case_decide.
    + destruct (empty_lists kv_types !! key) as [l0|] eqn:E; [|done].
      simpl in Hl. injection Hl as <-. rewrite (He key l0 E). simpl. lia.
    + rewrite (He t l Hl). simpl. lia.
Qed.

End ScannerFacts.

(** ** The LLM answer parser and the PDF extractor *)

Module LlmFacts.
Import PyStr PyStrFacts PdfLLM LlmSpec.

Lemma split_first_app (p : ascii -> bool) (key value : string) (c : ascii) :
  sany p key = false -> p c = true ->
  split_first p (key ++ String c value)%string = Some (key, value).
Proof.
  intros Hk Hc. induction key as [|k key IH].
  - change (split_first p (String c value) = Some (EmptyString, value)).
    change (split_first p (String c value))
      with (if p c then Some (EmptyString, value)
            else match split_first p value with
                 | Some (a, b) => Some (String c a, b)
                 | None => None
                 end).
    by rewrite Hc.
  - change (sany p (String k key)) with (p k || sany p key) in Hk.
    apply orb_false_iff in Hk as [Hk1 Hk2].
    change (split_first p (String k key ++ String c value)%string)
      with (if p k then Some (EmptyString, (key ++ String c value)%string)
            else match split_first p (key ++ String c value)%string with
                 | Some (a, b) => Some (String k a, b)
                 | None => None
                 end).
    by rewrite Hk1, (IH Hk2).
Qed.

Lemma setdefault_append_parsed (key value : string)
  (m : gmap string (list string)) :
  parsed m -> key ∈ llm_types -> real_value value ->
  parsed (setdefault_append key value m).
Proof.
  intros Hm Hk Hv t l. unfold setdefault_append.
  destruct (decide (key = t)) as [<-|Hne].
  - rewrite lookup_insert_eq. intros [= <-]. split; [exact Hk|].
    split; [by destruct (default [] (m !! key))|].
    apply Forall_app. split; [|by constructor].
    destruct (m !! key) as [l0|] eqn:E; [|constructor].
    by destruct (Hm key l0 E) as (_ & _ & H).
  - rewrite lookup_insert_ne by done. apply Hm.
Qed.

Lemma parse_line_parsed (m : gmap string (list string)) (line : string) :
  parsed m -> parsed (parse_line m line).
Proof.
  intros Hm. unfold parse_line.
  destruct (split_first is_colon line) as [[a b]|]; [|exact Hm].
  destruct (one_of sentinels (lower (strip b))) eqn:Hs; [exact Hm|].
  assert (Hv : real_value (strip b)).
  { split; [apply strip_idemp|]. split; [|exact Hs].
    intros He. rewrite He in Hs. by vm_compute in Hs. }
  repeat match goal with
  | |- context [if ?c then _ else _] => destruct c
  end; try exact Hm;
  (apply setdefault_append_parsed; [exact Hm | unfold llm_types; set_solver | exact Hv]).
Qed.

Lemma parse_llm_response_parsed (response_text : string) :
  parsed (parse_llm_response response_text).
Proof.
  unfold parse_llm_response.
  assert (H : forall lines m, parsed m -> parsed (fold_left parse_line lines m)).
  { induction lines as [|x lines IH]; intros m Hm; simpl; [exact Hm|].
    apply IH, parse_line_parsed, Hm. }
  apply H. intros t l Hl. by rewrite lookup_empty in Hl.
Qed.

Lemma extract_with_patterns_lookup (text t : string) (l : list string) :
  extract_with_patterns text !! t = Some l ->
  l <> [] /\ FinancialPatterns.extract_all text !! t = Some l.
Proof.
  unfold extract_with_patterns. intros H.
  apply map_lookup_filter_Some in H as [H1 H2]. by split.
Qed.

(** X7. From any answer the parser builds a map whose types are among the
    eleven it knows, whose lists are not empty, and whose values are
    trimmed, not empty and never one of the sentinels for an absent value;
    a line without a colon, or whose value after the first colon is such
    a sentinel, changes nothing. *)
Theorem llm_answer_parsed :
  (forall response_text, parsed (parse_llm_response response_text))
  /\ (forall m line, split_first is_colon line = None -> parse_line m line = m)
  /\ (forall m key value,
        sany is_colon key = false ->
        one_of sentinels (lower (strip value)) = true ->
        parse_line m (key ++ ":" ++ value)%string = m).
Proof.
  split; [exact parse_llm_response_parsed|]. split.
  - intros m line H. unfold parse_line. by rewrite H.
  - intros m key value Hk Hs.
    assert (Hsplit : split_first is_colon (key ++ ":" ++ value)%string
                     = Some (key, value))
      by (by apply split_first_app).
    unfold parse_line. by rewrite Hsplit, Hs.
Qed.

(** X8. [extract] raises exactly when the PDF yields no text; otherwise it
    returns that text and, whichever strategy ran, entity lists none of
    which is empty. *)
Theorem pdf_extract_total :
  (forall self_client text_parts,
     is_empty (extract_text_from_pdf text_parts) = true ->
     extract self_client text_parts = Raise "Could not extract text from PDF")
  /\ (forall self_client text_parts ex,
        extract self_client text_parts = Ok ex ->
        is_empty (extract_text_from_pdf text_parts) = false
        /\ _full_text ex = extract_text_from_pdf text_parts
        /\ forall t l, entities ex !! t = Some l -> l <> []).
Proof.
  split.
  - intros c parts H. unfold extract. by rewrite H.
  - intros c parts ex. unfold extract.
    destruct (is_empty (extract_text_from_pdf parts)); [discriminate|].
    intros [= <-]. split; [reflexivity|]. split; [reflexivity|].
    intros t l. cbn [entities].
    assert (Hp : forall text, extract_with_patterns text !! t = Some l -> l <> [])
      by (intros text H; by apply extract_with_patterns_lookup in H as [? _]).
    destruct c as [completion|]; [|apply Hp].
    unfold extract_with_llm.
    destruct (completion (extract_text_from_pdf parts)) as [answer|]; [|apply Hp].
    intros H. by destruct (parse_llm_response_parsed answer t l H) as (_ & ? & _).
Qed.

End LlmFacts.

(** ** The ISIN pattern and the validation *)

Module PatternFacts.
Import PyStr PyStrFacts Re TextSpec IsinSpec NormalizeFacts IsinClaims
  PostProcessClaims TidyFacts PatternSpec.

Lemma findall_from_item (fuel : nat) (r : regex) (p : option ascii)
  (s v : string) :
  In v (findall_from fuel r p s) ->
  exists p' s' m, match_at r p' s' = Some m /\ v = item r s' m.
Proof.
  revert p s. induction fuel as [|fuel IH]; intros p s; [intros []|].
  cbn [findall_from].
  assert (Ht : In v match s with
                    | String c t => findall_from fuel r (Some c) t
                    | EmptyString => []
                    end ->
               exists p' s' m, match_at r p' s' = Some m /\ v = item r s' m).
  { destruct s as [|c t]; [intros []|apply IH]. }
  destruct (match_at r p s) as [m|] eqn:E; [|exact Ht].
  destruct (len (rest m) <? len s)%nat.
  - intros [<-|H]; [by exists p, s, m|]. by apply IH in H.
  - intros [<-|H]; [by exists p, s, m|]. by apply Ht.
Qed.

Lemma findall_from_step (fuel : nat) (r : regex) (p : option ascii)
  (s : string) (m : mstate) :
  match_at r p s = Some m -> (len (rest m) <? len s)%nat = true ->
  findall_from (S fuel) r p s
  = item r s m :: findall_from fuel r (prev m) (rest m).
Proof. intros H1 H2. cbn [findall_from]. by rewrite H1, H2. Qed.

Lemma findall_from_end (fuel : nat) (r : regex) (p : option ascii) :
  match_at r p EmptyString = None -> findall_from fuel r p EmptyString = [].
Proof. intros H. destruct fuel; [reflexivity|]. cbn [findall_from]. by rewrite H. Qed.

Lemma match_at_ISIN_end (p : option ascii) :
  match_at FinancialPatterns.ISIN p EmptyString = None.
Proof.
  unfold FinancialPatterns.ISIN, match_at.
  cbn [seqs times run rest prev grp isword_hd].
  by destruct (xorb (isword_o p) false).
Qed.

Lemma upper_class_c (c : ascii) :
  isupper_c c = true ->
  isalpha_c c = true /\ isalnum_c c = true /\ isword_c c = true
  /\ isspace_c c = false /\ islower_c c = false.
Proof. revert c. intros [[] [] [] [] [] [] [] []]; vm_compute; intros; try done. Qed.

Lemma digit_class_c (c : ascii) :
  isdigit_c c = true ->
  isalnum_c c = true /\ isword_c c = true /\ isspace_c c = false
  /\ islower_c c = false.
Proof. revert c. intros [[] [] [] [] [] [] [] []]; vm_compute; intros; try done. Qed.

Lemma alnum_class_c (c : ascii) :
  isupper_c c || isdigit_c c = true ->
  isalnum_c c = true /\ isspace_c c = false /\ islower_c c = false.
Proof. revert c. intros [[] [] [] [] [] [] [] []]; vm_compute; intros; try done. Qed.

Ltac shape_chars H :=
  repeat match type of H with
  | context [isupper_c ?x || isdigit_c ?x] =>
      destruct (isupper_c x || isdigit_c x) eqn:?; cbn in H; [|discriminate H]
  | context [isupper_c ?x] =>
      destruct (isupper_c x) eqn:?; cbn in H; [|discriminate H]
  | context [isdigit_c ?x] =>
      destruct (isdigit_c x) eqn:?; cbn in H; [|discriminate H]
  end.

(** A string of the shape is what [ISIN] matches at its start. *)
Lemma match_at_ISIN (p : option ascii) (s : string) (m : mstate) :
  match_at FinancialPatterns.ISIN p s = Some m ->
  exists v, s = (v ++ rest m)%string /\ isin_shape v = true.
Proof.
  unfold match_at, FinancialPatterns.ISIN.
  cbn [seqs times run rest prev grp]. intros H.
  repeat match type of H with
  | (if ?b then _ else _) = Some _ =>
      destruct b eqn:?; [|discriminate H]; cbn [rest prev grp] in H
  | match ?s with String _ _ => _ | EmptyString => _ end = Some _ =>
      destruct s as [|? ?]; [discriminate H|]; cbn [rest prev grp] in H
  end.
  injection H as <-. cbn [rest].
  match goal with
  | |- exists v, String ?a (String ?b (String ?c (String ?d (String ?e
         (String ?f (String ?g (String ?h (String ?i (String ?j (String ?k
         (String ?l ?t))))))))))) = _ /\ _ =>
      exists (String a (String b (String c (String d (String e (String f
        (String g (String h (String i (String j (String k (String l
        EmptyString))))))))))))
  end.
  split; [reflexivity|]. unfold isin_shape. cbn.
  repeat match goal with
  | H : ?x = true |- context [?x] => rewrite H
  end. reflexivity.
Qed.

Lemma take_app_len (v t : string) :
  take (len (v ++ t)%string - len t) (v ++ t)%string = v.
Proof.
  assert (Hl : len (v ++ t)%string - len t = len v).
  { assert (Ha : len (v ++ t)%string = len v + len t).
    { unfold len. induction v as [|c v IH]; simpl; [reflexivity | by rewrite IH]. }
    rewrite Ha. lia. }
  rewrite Hl. clear Hl. unfold len.
  induction v as [|c v IH]; simpl; [by destruct t | by rewrite IH].
Qed.

Lemma findall_ISIN_shape (text v : string) :
  In v (findall FinancialPatterns.ISIN text) -> isin_shape v = true.
Proof.
  intros H. apply findall_from_item in H as (p & s & m & Hm & ->).
  apply match_at_ISIN in Hm as (w & -> & Hw).
  unfold item. change (has_grp FinancialPatterns.ISIN) with false.
  cbv iota. by rewrite take_app_len.
Qed.

Lemma isin_shape_facts (v : string) :
  isin_shape v = true ->
  ChatNER.validate_isin v = true /\ nows v /\ isupper v = true
  /\ len v = 12 /\ Re.findall FinancialPatterns.ISIN v = [v].
Proof.
  unfold isin_shape. intros H.
  destruct (len v =? 12)%nat eqn:Hl; [|discriminate H].
  apply Nat.eqb_eq in Hl.
  twelve v; try (exfalso; unfold len in Hl; simpl in Hl; lia).
  cbn in H. shape_chars H.
  repeat match goal with
  | H : isupper_c ?x || isdigit_c ?x = true |- _ =>
      destruct (alnum_class_c x H) as (? & ? & ?); revert H
  | H : isupper_c ?x = true |- _ =>
      destruct (upper_class_c x H) as (? & ? & ? & ? & ?); revert H
  | H : isdigit_c ?x = true |- _ =>
      destruct (digit_class_c x H) as (? & ? & ? & ?); revert H
  end. intros.
  split; [|split; [|split; [|split]]].
  - unfold ChatNER.validate_isin. cbn.
    repeat match goal with
    | H : ?x = true |- context [?x] => rewrite H
    end. reflexivity.
  - unfold nows. cbn.
    repeat match goal with
    | H : ?x = false |- context [?x] => rewrite H
    end. reflexivity.
  - unfold isupper. cbn.
    repeat match goal with
    | H : ?x = _ |- context [?x] => rewrite H
    end. reflexivity.
  - reflexivity.
  - assert (Hm : match_at FinancialPatterns.ISIN None
                   (String a (String a0 (String a1 (String a2 (String a3
                   (String a4 (String a5 (String a6 (String a7 (String a8
                   (String a9 (String a10 EmptyString))))))))))))
                 = Some (MState (Some a10) EmptyString None)).
    { unfold FinancialPatterns.ISIN, match_at.
      cbn [seqs times run rest prev grp isword_o isword_hd].
      repeat match goal with
      | H : ?x = _ |- context [?x] => rewrite H
      end. reflexivity. }
    unfold findall. cbn [len String.length].
    rewrite (findall_from_step _ _ _ _ _ Hm) by reflexivity.
    cbn [rest prev]. rewrite findall_from_end by apply match_at_ISIN_end.
    unfold item. change (has_grp FinancialPatterns.ISIN) with false.
    reflexivity.
Qed.

Lemma index_title_from (b : bool) (s : string) (i : nat) (c' : ascii) :
  index i (title_from b s) = Some c' ->
  exists c, index i s = Some c /\ (c' = upper_c c \/ c' = lower_c c).
Proof.
  revert b i. induction s as [|c s IH]; intros b i; [discriminate|].
  destruct i as [|i]; cbn.
  - intros [= <-]. exists c. split; [reflexivity|]. destruct b; tauto.
  - apply IH.
Qed.

Lemma len_title_from (b : bool) (s : string) : len (title_from b s) = len s.
Proof.
  revert b. induction s as [|c s IH]; intros b; [reflexivity|].
  unfold len in *. cbn. by rewrite IH.
Qed.

(** Title-casing keeps the ISIN format. *)
Lemma isin_format_title (v : string) : isin_format v -> isin_format (title v).
Proof.
  intros (Hl & Ha & Hn & Hd). unfold title.
  split; [by rewrite len_title_from|]. split; [|split].
  - intros i c' Hi (c & Hc & [-> | ->])%index_title_from;
      [destruct (class_upper_c c) as (-> & _) | destruct (class_lower_c c) as (-> & _)];
      by apply (Ha i).
  - intros i c' Hi (c & Hc & [-> | ->])%index_title_from;
      [destruct (class_upper_c c) as (_ & -> & _) | destruct (class_lower_c c) as (_ & -> & _)];
      by apply (Hn i).
  - intros c' (c & Hc & [-> | ->])%index_title_from;
      [destruct (class_upper_c c) as (_ & _ & -> & _) | destruct (class_lower_c c) as (_ & _ & -> & _)];
      by apply Hd.
Qed.

Lemma process_value_isin_shape (v : string) :
  isin_shape v = true ->
  ChatNER.process_value "isin" v = Some (title v)
  /\ ChatNER.validate_isin (title v) = true.
Proof.
  intros H. destruct (isin_shape_facts v H) as (Hv & Hn & Hu & Hl & _).
  assert (Ht : ChatNER.validate_isin (title v) = true)
    by (by apply validate_isin_format, isin_format_title, validate_isin_format).
  split; [|exact Ht].
  rewrite process_value_isin by lia.
  rewrite normalize_entity_nows by done. rewrite Hu, Hl. cbn [andb Nat.ltb Nat.leb].
  by rewrite Ht.
Qed.

(** X9. Whatever the pattern [ISIN] finds in a text has the shape of an
    upper-case ISIN and passes [_validate_isin]; post-processing keeps it,
    in title case, which passes the validation as well. A string of that
    shape is found when it is the whole text. *)
Theorem isin_matches_are_kept :
  (forall text,
     Forall (fun v => isin_shape v = true
                      /\ ChatNER.validate_isin v = true
                      /\ ChatNER.process_value "isin" v = Some (title v)
                      /\ ChatNER.validate_isin (title v) = true)
            (Re.findall FinancialPatterns.ISIN text))
  /\ (forall v, isin_shape v = true ->
        Re.findall FinancialPatterns.ISIN v = [v]).
Proof.
  split.
  - intros text. apply List.Forall_forall. intros v Hv%findall_ISIN_shape.
    destruct (isin_shape_facts v Hv) as (? & _).
    destruct (process_value_isin_shape v Hv) as (? & ?). done.
  - intros v Hv. by destruct (isin_shape_facts v Hv) as (_ & _ & _ & _ & ?).
Qed.

End PatternFacts.

(** ** What the classifier reads *)

Module VerdictFacts.
Import PyStr DocumentClassifier ClassifierSpec ClassifierFacts VerdictSpec.

Lemma get_In (c : string) (scores : list (string * float)) (v : float) :
  get c scores = Some v -> In (c, v) scores.
Proof.
  induction scores as [|[k w] scores IH]; [discriminate|]. cbn [get].
  destruct (String.eqb k c) eqn:E.
  - apply String.eqb_eq in E as ->. intros [= ->]. by left.
  - intros H. right. by apply IH.
Qed.

Lemma boosted_hints (c : string) (e e' : gmap string (list string)) (v : float) :
  hints e = hints e' -> boosted c e v = boosted c e' v.
Proof.
  unfold hints, boosted. intros [= H1 H2 H3 H4]. by rewrite H1, H2, H3, H4.
Qed.

Lemma boosted_no_hints (c : string) (e : gmap string (list string)) (v : float) :
  hints e = (false, false, false, false) -> boosted c e v = v.
Proof.
  unfold hints, boosted. intros [= H1 H2 H3 H4]. rewrite H1, H2, H3, H4.
  unfold add_if. by repeat destruct (String.eqb _ _).
Qed.

Lemma classify_table (text : string)
  (entities : option (gmap string (list string))) :
  classify text entities =
  decide_scores (table (fun c cfg => boosted c (default ∅ entities)
                                       (category_score cfg (lower text)))
                       categories).
Proof. by rewrite classify_decide, scores_of_table. Qed.

Lemma format_in_types (c : string) (cfg : config) :
  In (c, cfg) categories -> In (format_category_name c) document_types.
Proof.
  intros H. unfold categories in H.
  repeat (destruct H as [H|H];
          [apply (f_equal fst) in H; cbn [fst] in H; subst c; vm_compute; tauto|]).
  destruct H.
Qed.

Lemma scores_entry (text : string)
  (entities : option (gmap string (list string))) (i : nat) (k : string)
  (v : float) :
  scores_of text entities !! i = Some (k, v) ->
  exists cfg, In (k, cfg) categories
    /\ v = boosted k (default ∅ entities) (category_score cfg (lower text)).
Proof.
  intros H%list_elem_of_lookup_2%list_elem_of_In.
  rewrite scores_of_table in H. unfold table in H.
  apply in_map_iff in H as ([c cfg] & [= <- <-] & Hin). by exists cfg.
Qed.

Lemma classify_in_types (text : string)
  (entities : option (gmap string (list string))) :
  In (document_type (classify text entities)) document_types.
Proof.
  destruct (classify_spec text entities) as (i & k & v & (Hi & _) & ->).
  destruct (v =? 0)%float; [by left|]. cbn [document_type].
  apply scores_entry in Hi as (cfg & Hin & _). by eapply format_in_types.
Qed.

Lemma boosts_check_true : boosts_check = true.
Proof. vm_compute. reflexivity. Qed.

Lemma boosted_above (c : string) (cfg : config)
  (e : gmap string (list string)) (t : string) :
  In (c, cfg) categories ->
  (category_score cfg t <=? boosted c e (category_score cfg t))%float = true
  /\ ((category_score cfg t =? 0)%float = false ->
      (boosted c e (category_score cfg t) =? 0)%float = false).
Proof.
  intros H. pose proof boosts_check_true as Hc. unfold boosts_check in Hc.
  rewrite forallb_forall in Hc. apply Hc in H as Hcfg. cbn beta iota in Hcfg.
  rewrite forallb_forall in Hcfg.
  assert (Hv : In (category_score cfg t) (score_values cfg)).
  { rewrite category_score_at. apply score_at_values; apply filter_length_bound. }
  apply Hcfg in Hv. rewrite forallb_forall in Hv.
  specialize (Hv _ (boosted_boosts c e (category_score cfg t))).
  apply andb_prop in Hv as [H1 H2]. split; [exact H1|].
  intros H0. rewrite H0 in H2. cbn in H2. by apply negb_true_iff in H2.
Qed.

Lemma classified_stays (text : string) (e : gmap string (list string)) :
  document_type (classify text None) <> "Unknown" ->
  document_type (classify text (Some e)) <> "Unknown".
Proof.
  intros H.
  destruct (classify_spec text None) as (i & k & v & (Hi & _) & Hc).
  rewrite Hc in H. destruct (v =? 0)%float eqn:Hv; [done|]. clear Hc H.
  apply scores_entry in Hi as (cfg & Hin & ->). cbn [default] in Hv.
  rewrite boosted_empty in Hv.
  destruct (boosted_above k cfg e (lower text) Hin) as (_ & Hb).
  specialize (Hb Hv).
  destruct (classify_spec text (Some e)) as (j & k' & w & (Hj & Hle & _) & ->).
  destruct (w =? 0)%float eqn:Hw.
  - exfalso.
    assert (Hin' : In (k, boosted k e (category_score cfg (lower text)))
                      (scores_of text (Some e))).
    { rewrite scores_of_table. unfold table. apply in_map_iff.
      by exists (k, cfg). }
    pose proof Hin' as Hx. apply list_elem_of_In, list_elem_of_lookup_1 in Hx as (n & Hn).
    specialize (Hle _ _ _ Hn).
    apply scores_attainable in Hin'. cbn [snd] in Hin'.
    apply list_elem_of_lookup_2, list_elem_of_In, scores_attainable in Hj.
    cbn [snd] in Hj.
    destruct (attainable_zero _ Hin') as (H0 & Hz).
    destruct (attainable_zero _ Hj) as (_ & Hz').
    destruct (attainable_order _ _ Hin' Hj) as (_ & Ho).
    rewrite Ho in Hle. rewrite Hz' in Hw. rewrite Hz in Hb.
    apply Z.leb_le in Hle. apply Z.eqb_eq in Hw. apply Z.eqb_neq in Hb. lia.
  - cbn [document_type].
    apply scores_entry in Hj as (cfg' & Hin' & _).
    by eapply format_not_unknown.
Qed.

(** X10. The document type is one of nine names. The classification
    depends on the text only through its lower-case form, and on the
    entities only through the five hints [_adjust_with_entities] reads:
    maps with the same hints classify alike, and a map with none of them
    classifies as no map does. *)
Theorem classifier_reads_hints :
  (forall text entities,
     In (document_type (classify text entities)) document_types)
  /\ (forall a b entities, lower a = lower b ->
        classify a entities = classify b entities)
  /\ (forall text e e', hints e = hints e' ->
        classify text (Some e) = classify text (Some e'))
  /\ (forall text e, hints e = (false, false, false, false) ->
        classify text (Some e) = classify text None).
Proof.
  split; [exact classify_in_types|]. split; [|split].
  - intros a b entities H. by rewrite !classify_table, H.
  - intros text e e' H. rewrite !classify_table. f_equal.
    apply table_ext. intros c cfg. by apply boosted_hints.
  - intros text e H. rewrite !classify_table. f_equal.
    apply table_ext. intros c cfg. cbn [default].
    by rewrite boosted_empty, boosted_no_hints.
Qed.

(** X11. Entity hints only raise scores: the score of every category with
    an entity map is at least its score without, and a document that is
    classified without entities is not Unknown with them. *)
Theorem hints_only_raise :
  (forall text e category v v',
     get category (scores_of text None) = Some v ->
     get category (scores_of text (Some e)) = Some v' ->
     (v <=? v')%float = true)
  /\ (forall text e,
        document_type (classify text None) <> "Unknown" ->
        document_type (classify text (Some e)) <> "Unknown").
Proof.
  split; [|exact classified_stays].
  intros text e c v v' Hv Hv'.
  pose proof (get_In _ _ _ Hv) as Hin.
  rewrite scores_of_table in Hin. unfold table in Hin.
  apply in_map_iff in Hin as ([c' cfg] & [= -> _] & Hin).
  rewrite scores_of_table, (get_table _ c cfg Hin) in Hv.
  rewrite scores_of_table, (get_table _ c cfg Hin) in Hv'.
  injection Hv as <-. injection Hv' as <-. cbn [default].
  rewrite boosted_empty. by apply boosted_above.
Qed.

End VerdictFacts.

(** ** How the spaCy pass files its spans *)

Module CategoryFacts.
Import PyStr SpacyNERPipeline CategorySpec.

Lemma texts_of_snoc (ents : list span) (ent : span) (label : string) :
  texts_of (ents ++ [ent]) label =
  texts_of ents label
  ++ (if String.eqb (label_ ent) label then [text ent] else []).
Proof.
  unfold texts_of. rewrite List.filter_app, List.map_app. cbn [List.filter].
  by destruct (String.eqb (label_ ent) label).
Qed.

Lemma labels_cases (key label : string) :
  labels !! key = Some label ->
  (key, label) ∈ [("counterparty", "ORG"); ("person", "PERSON");
                  ("currency_amounts", "MONEY"); ("dates", "DATE");
                  ("percentages", "PERCENT"); ("numbers", "CARDINAL");
                  ("organizations", "ORG"); ("locations", "GPE")].
Proof. apply elem_of_list_to_map_2. Qed.

Lemma lookup_add (key value i : string) (m : gmap string (list string)) :
  add key value m !! i
  = if decide (key = i) then (fun l => l ++ [value]) <$> m !! i else m !! i.
Proof.
  unfold add. destruct (decide (key = i)) as [->|H].
  - by rewrite lookup_alter_eq.
  - by rewrite lookup_alter_ne.
Qed.

Lemma categorize_filled (ents : list span) (ent : span) :
  categorize (filled ents)
    (Entity (text ent) (label_ ent) (start_char ent) (end_char ent)
            (get_confidence ent))
  = filled (ents ++ [ent]).
Proof.
  apply map_eq. intros i. unfold filled. rewrite lookup_fmap.
  unfold categorize. cbn [e_label e_text].
  destruct (labels !! i) as [label|] eqn:Hi.
  - cbn [fmap option_fmap option_map]. rewrite texts_of_snoc.
    apply labels_cases in Hi. destruct ent as [t l s e]. cbn [text label_].
    repeat (apply elem_of_cons in Hi as [[= -> ->]|Hi];
      [repeat match goal with
       | |- context [String.eqb l ?c] =>
           let E := fresh "E" in
           destruct (String.eqb l c) eqn:E;
           [apply String.eqb_eq in E; subst l|]
       end;
       rewrite ?lookup_add, ?lookup_fmap; cbn; rewrite ?app_nil_r; reflexivity|]).
    by apply elem_of_nil in Hi.
  - assert (Hn : forall key value m, m !! i = None ->
                   add key value m !! i = None).
    { intros key value m Hm. rewrite lookup_add, Hm. by destruct (decide _). }
    assert (H0 : (texts_of ents <$> labels) !! i = None)
      by (by rewrite lookup_fmap, Hi).
    repeat match goal with
    | |- context [if ?b then _ else _] => destruct b
    end; rewrite ?Hn; try done. by rewrite Hn.
Qed.

Lemma fold_categorize (ents2 ents1 : list span) :
  fold_left categorize (extract_entities ents2) (filled ents1)
  = filled (ents1 ++ ents2).
Proof.
  revert ents1. induction ents2 as [|ent ents2 IH]; intros ents1.
  - by rewrite app_nil_r.
  - cbn [extract_entities List.map fold_left].
    rewrite categorize_filled.
    change (List.map _ ents2) with (extract_entities ents2).
    rewrite IH. by rewrite <- app_assoc.
Qed.

Lemma extract_financial_entities_filled (ents : list span) :
  extract_financial_entities ents
  = filter (fun kv => kv.2 <> []) (filled ents).
Proof.
  unfold extract_financial_entities. f_equal.
  exact (fold_categorize ents []).
Qed.

Lemma extract_financial_entities_lookup (ents : list span) (key : string) :
  extract_financial_entities ents !! key
  = labels !! key ≫= (fun label => nonempty (texts_of ents label)).
Proof.
  rewrite extract_financial_entities_filled. unfold filled.
  destruct (labels !! key) as [label|] eqn:Hk; cbn [mbind option_bind].
  - destruct (texts_of ents label) as [|x l] eqn:Ht; cbn [nonempty].
    + apply map_lookup_filter_None. right. intros l Hl.
      rewrite lookup_fmap, Hk in Hl. cbn [fmap option_fmap option_map] in Hl. injection Hl as <-.
      cbn [snd]. rewrite Ht. tauto.
    + apply map_lookup_filter_Some. rewrite lookup_fmap, Hk. cbn [fmap option_fmap option_map snd].
      by rewrite Ht.
  - apply map_lookup_filter_None. left. by rewrite lookup_fmap, Hk.
Qed.

(** X12. [extract_financial_entities] files the span texts by label: a
    category holds, in document order, the texts of the spans of its label,
    and is absent when there is none; the counterparties are the
    organizations; every value filed is the text of a span; and a span of
    any other label (PRODUCT included) is dropped. *)
Theorem spacy_categories :
  (forall ents key,
     extract_financial_entities ents !! key
     = labels !! key ≫= (fun label => nonempty (texts_of ents label)))
  /\ (forall ents,
        extract_financial_entities ents !! "counterparty"
        = extract_financial_entities ents !! "organizations")
  /\ (forall ents key l,
        extract_financial_entities ents !! key = Some l ->
        l <> [] /\ forall v, v ∈ l -> exists ent, ent ∈ ents /\ text ent = v)
  /\ (forall ents ent,
        label_ ent ∉ ["ORG"; "PERSON"; "MONEY"; "DATE"; "PERCENT";
                      "CARDINAL"; "GPE"] ->
        extract_financial_entities (ents ++ [ent])
        = extract_financial_entities ents).
Proof.
  split; [exact extract_financial_entities_lookup|]. split; [|split].
  - intros ents. by rewrite !extract_financial_entities_lookup.
  - intros ents key l. rewrite extract_financial_entities_lookup.
    destruct (labels !! key) as [label|]; [|discriminate]. cbn [mbind option_bind].
    destruct (texts_of ents label) as [|x r] eqn:Ht; [discriminate|].
    cbn [nonempty]. intros [= <-]. split; [done|]. intros v Hv. rewrite <- Ht in Hv.
    unfold texts_of in Hv. apply list_elem_of_fmap in Hv as (ent & -> & Hin).
    exists ent. split; [|done].
    apply list_elem_of_In in Hin. apply filter_In in Hin as [Hin _].
    by apply list_elem_of_In.
  - intros ents ent Hl. apply map_eq. intros key.
    rewrite !extract_financial_entities_lookup.
    destruct (labels !! key) as [label|] eqn:Hk; [|done]. cbn [mbind option_bind].
    rewrite texts_of_snoc.
    destruct (String.eqb (label_ ent) label) eqn:E; [|by rewrite app_nil_r].
    exfalso. apply String.eqb_eq in E. apply Hl. rewrite E.
    apply labels_cases in Hk.
    repeat (apply elem_of_cons in Hk as [[= _ ->]|Hk]; [set_solver|]).
    by apply elem_of_nil in Hk.
Qed.

End CategoryFacts.

(** ** The figures of the formatter *)

Module FormatterFacts.
Import PyStr PyStrFacts EntityFormatter FormatterSpec.

Lemma fold_append (t : string) (vs : list string) (acc : list item) :
  fold_left (fun standardized value => standardized ++ [Item t (strip value)])
            vs acc
  = acc ++ List.map (fun v => Item t (strip v)) vs.
Proof.
  revert acc. induction vs as [|v vs IH]; intros acc; cbn [fold_left List.map].
  - by rewrite app_nil_r.
  - rewrite IH. by rewrite <- app_assoc.
Qed.

Lemma standardize_entities_entries (entities : list (string * values)) :
  standardize_entities entities = flat_map entries entities.
Proof.
  unfold standardize_entities.
  assert (H : forall acc,
    fold_left
      (fun standardized '(entity_type, values) =>
         if negb (truthy values) then standardized
         else fold_left
                (fun standardized value =>
                   standardized ++ [Item entity_type (strip value)])
                (value_list values) standardized)
      entities acc
    = acc ++ flat_map entries entities).
  { induction entities as [|[t vs] entities IH]; intros acc;
      cbn [fold_left flat_map]; [by rewrite app_nil_r|].
    rewrite IH. unfold entries at 2. cbn [fst snd].
    destruct (truthy vs); cbn [negb]; [|reflexivity].
    by rewrite fold_append, <- app_assoc. }
  apply (H []).
Qed.

Lemma count_snoc (t : string) (items : list item) (e : item) :
  count t (items ++ [e])
  = count t items + (if String.eqb (type e) t then 1 else 0).
Proof.
  unfold count. rewrite List.filter_app, length_app. cbn [List.filter].
  by destruct (String.eqb (type e) t).
Qed.

Lemma count_app (t : string) (a b : list item) :
  count t (a ++ b) = count t a + count t b.
Proof. unfold count. by rewrite List.filter_app, length_app. Qed.

Lemma stats_snoc (items : list item) (e : item) :
  entity_types (calculate_stats (items ++ [e]))
  = <[type e := default 0 (entity_types (calculate_stats items) !! type e) + 1]>
      (entity_types (calculate_stats items)).
Proof. unfold calculate_stats. cbn [entity_types]. by rewrite fold_left_app. Qed.

Lemma entity_types_count (items : list item) (t : string) :
  entity_types (calculate_stats items) !! t = positive (count t items).
Proof.
  induction items as [|e items IH] using rev_ind; [reflexivity|].
  rewrite stats_snoc, count_snoc.
  destruct (String.eqb (type e) t) eqn:E.
  - apply String.eqb_eq in E. subst t. rewrite lookup_insert_eq, IH.
    destruct (count (type e) items) as [|n]; cbn; [reflexivity|].
    f_equal.
  - apply String.eqb_neq in E. rewrite lookup_insert_ne by done.
    by rewrite IH, Nat.add_0_r.
Qed.

Lemma sum_counts_bump (m : gmap string nat) (t : string) :
  sum_counts (<[t := default 0 (m !! t) + 1]> m) = S (sum_counts m).
Proof.
  unfold sum_counts.
  assert (Hc : forall z1 z2 y : nat, z1 + (z2 + y) = z2 + (z1 + y))
    by (intros; lia).
  destruct (m !! t) as [n|] eqn:E; cbn [default id].
  - rewrite <- insert_delete_eq.
    rewrite map_fold_insert_L; [|intros; apply Hc | apply lookup_delete_eq].
    rewrite (map_fold_delete_L _ _ t n m); [unfold id; lia | intros; apply Hc | done].
  - rewrite map_fold_insert_L; [unfold id; lia | intros; apply Hc | done].
Qed.

Lemma sum_counts_total (items : list item) :
  sum_counts (entity_types (calculate_stats items)) = length items.
Proof.
  induction items as [|e items IH] using rev_ind; [reflexivity|].
  rewrite stats_snoc, sum_counts_bump, IH, length_app. cbn. lia.
Qed.

Lemma count_entries_other (t : string) (kv : string * values) :
  kv.1 <> t -> count t (entries kv) = 0.
Proof.
  intros H. unfold entries, count. destruct (truthy kv.2); [|reflexivity].
  induction (value_list kv.2) as [|v l IH]; [reflexivity|].
  cbn [List.map List.filter type].
  by rewrite (proj2 (String.eqb_neq _ _) H).
Qed.

Lemma count_entries_same (kv : string * values) :
  count kv.1 (entries kv) = if truthy kv.2 then length (value_list kv.2) else 0.
Proof.
  unfold entries, count. destruct (truthy kv.2); [|reflexivity].
  induction (value_list kv.2) as [|v l IH]; [reflexivity|].
  cbn [List.map List.filter type]. rewrite String.eqb_refl. cbn [length].
  by rewrite IH.
Qed.

Lemma count_flat_absent (t : string) (entities : list (string * values)) :
  t ∉ entities.*1 -> count t (flat_map entries entities) = 0.
Proof.
  induction entities as [|kv entities IH]; [reflexivity|].
  cbn [flat_map fmap list_fmap]. intros H. apply not_elem_of_cons in H as [H1 H2].
  rewrite count_app, IH by done. rewrite count_entries_other by done. lia.
Qed.

Lemma count_flat_key (entities : list (string * values)) (t : string)
  (vs : values) :
  NoDup entities.*1 -> (t, vs) ∈ entities ->
  count t (flat_map entries entities)
  = if truthy vs then length (value_list vs) else 0.
Proof.
  induction entities as [|kv entities IH]; intros Hnd Hin;
    [by apply elem_of_nil in Hin|].
  cbn [flat_map fmap list_fmap] in *. apply NoDup_cons in Hnd as [Hk Hnd].
  rewrite count_app. apply elem_of_cons in Hin as [<-|Hin].
  - pose proof (count_entries_same (t, vs)) as Hs. cbn [fst snd] in Hs.
    rewrite Hs, count_flat_absent by done. lia.
  - rewrite IH by done. rewrite count_entries_other; [lia|].
    intros <-. apply Hk. apply list_elem_of_fmap. by exists (kv.1, vs).
Qed.

(** X13. The formatter's figures agree with its list. The entries are the
    trimmed values of the non-empty entries of the dict, in its order;
    the count of a type in the statistics is the number of entries of that
    type, a type without entries being absent; the counts add up to the
    total, which is the length of the list and the [entity_count] of the
    metadata; and the count of a key of the dict is the length of its
    list. *)
Theorem formatter_statistics :
  (forall entities, standardize_entities entities = flat_map entries entities)
  /\ (forall items t,
        entity_types (calculate_stats items) !! t = positive (count t items))
  /\ (forall items,
        sum_counts (entity_types (calculate_stats items))
        = total_entities (calculate_stats items))
  /\ (forall raw name,
        entity_count (format raw name) = length (entities (format raw name))
        /\ sum_counts (entity_types (statistics (format raw name)))
           = entity_count (format raw name)
        /\ Forall (fun e => strip (value e) = value e)
                  (entities (format raw name)))
  /\ (forall entities t vs,
        NoDup entities.*1 -> (t, vs) ∈ entities ->
        entity_types (calculate_stats (standardize_entities entities)) !! t
        = if truthy vs then positive (length (value_list vs)) else None).
Proof.
  split; [exact standardize_entities_entries|].
  split; [exact entity_types_count|].
  split; [exact sum_counts_total|]. split.
  - intros raw name. unfold format.
    cbn [entity_count entities statistics total_entities calculate_stats].
    split; [reflexivity|]. split.
    + apply (sum_counts_total (standardize_entities (default [] (raw_entities raw)))).
    + rewrite standardize_entities_entries. apply Forall_forall.
      intros e He. apply list_elem_of_In, in_flat_map in He as (kv & _ & He).
      unfold entries in He. destruct (truthy kv.2); [|destruct He].
      apply in_map_iff in He as (v & <- & _). cbn [value]. apply strip_idemp.
  - intros entities t vs Hnd Hin.
    rewrite entity_types_count, standardize_entities_entries.
    rewrite (count_flat_key entities t vs Hnd Hin).
    by destruct (truthy vs).
Qed.

End FormatterFacts.

(** ** The chunker: when it returns and when it does not *)

Module ChunkingFacts.
Import PyStr PyStrFacts TidyFacts Chunking ChunkingSpec.

Lemma len_take (k : nat) (s : string) : len (take k s) = Nat.min k (len s).
Proof.
  unfold len. revert k. induction s as [|c s IH]; intros [|k]; simpl; try lia.
  rewrite IH. lia.
Qed.

Lemma len_drop (k : nat) (s : string) : len (drop k s) = len s - k.
Proof.
  unfold len. revert k. induction s as [|c s IH]; intros [|k]; simpl; try lia.
  apply IH.
Qed.

Lemma len_slice (a b : nat) (s : string) :
  len (slice a b s) = Nat.min (b - a) (len s - a).
Proof. unfold slice. by rewrite len_take, len_drop. Qed.

(** A window of width [m] holds at most [m] characters, wherever it is. *)
Lemma len_py_slice_window (a m : Z) (s : string) :
  (0 <= m)%Z -> (Z.of_nat (len (py_slice a (a + m) s)) <= m)%Z.
Proof.
  intros Hm. unfold py_slice. rewrite len_slice. unfold clamp_index.
  destruct (a <? 0)%Z eqn:Ea, (a + m <? 0)%Z eqn:Eb; lia.
Qed.

Lemma len_py_slice_inside (a m : Z) (s : string) :
  (0 <= a)%Z -> (0 <= m)%Z -> (a + m <= Z.of_nat (len s))%Z ->
  Z.of_nat (len (py_slice a (a + m) s)) = m.
Proof.
  intros Ha Hm Hn. unfold py_slice. rewrite len_slice. unfold clamp_index.
  destruct (a <? 0)%Z eqn:Ea, (a + m <? 0)%Z eqn:Eb; lia.
Qed.

Lemma take_all (k : nat) (s : string) : len s <= k -> take k s = s.
Proof.
  unfold len. revert k. induction s as [|c s IH]; intros [|k]; simpl;
    try reflexivity; try lia.
  intros H. rewrite IH; [reflexivity | lia].
Qed.

Lemma py_slice_all (b : Z) (s : string) :
  (Z.of_nat (len s) <= b)%Z -> py_slice 0 b s = s.
Proof.
  intros H. unfold py_slice, clamp_index.
  destruct (0 <? 0)%Z eqn:E0; [lia|]. destruct (b <? 0)%Z eqn:Eb; [lia|].
  unfold slice. cbn [Z.to_nat Nat.min drop].
  replace (Nat.min 0 (len s)) with 0 by lia. cbn [drop].
  apply take_all. lia.
Qed.

Lemma rfind_from_range (c : ascii) (s : string) (i last : Z) :
  rfind_from c s i last = last
  \/ (i <= rfind_from c s i last < i + Z.of_nat (len s))%Z.
Proof.
  unfold len. revert i last. induction s as [|x s IH]; intros i last;
    cbn [rfind_from String.length]; [by left|].
  destruct (IH (i + 1)%Z (if Ascii.eqb x c then i else last)) as [-> | H].
  - destruct (Ascii.eqb x c); [right; lia | by left].
  - right. lia.
Qed.

Lemma rfind_range (c : ascii) (s : string) :
  (-1 <= rfind c s < Z.of_nat (len s))%Z.
Proof. unfold rfind. destruct (rfind_from_range c s 0 (-1)); lia. Qed.

Lemma rfind_from_none (c : ascii) (s : string) (i last : Z) :
  sany (fun x => Ascii.eqb x c) s = false -> rfind_from c s i last = last.
Proof.
  revert i last. induction s as [|x s IH]; intros i last; [reflexivity|].
  cbn [sany rfind_from]. intros [Hx Hs]%orb_false_iff. by rewrite Hx, IH.
Qed.

Lemma sany_take (p : ascii -> bool) (k : nat) (s : string) :
  sany p s = false -> sany p (take k s) = false.
Proof.
  revert k. induction s as [|x s IH]; intros [|k]; try reflexivity.
  cbn [sany take]. intros [Hx Hs]%orb_false_iff. by rewrite Hx, IH.
Qed.

Lemma sany_drop (p : ascii -> bool) (k : nat) (s : string) :
  sany p s = false -> sany p (drop k s) = false.
Proof.
  revert k. induction s as [|x s IH]; intros [|k]; try done.
  cbn [sany drop]. intros [Hx Hs]%orb_false_iff. by apply IH.
Qed.

Lemma sany_py_slice (p : ascii -> bool) (a b : Z) (s : string) :
  sany p s = false -> sany p (py_slice a b s) = false.
Proof. intros H. unfold py_slice, slice. by apply sany_take, sany_drop. Qed.

Lemma sany_is_break (c : ascii) (s : string) :
  sany is_break s = false ->
  c = "."%char \/ c = "?"%char \/ c = "!"%char ->
  sany (fun x => Ascii.eqb x c) s = false.
Proof.
  intros H Hc. induction s as [|x s IH]; [reflexivity|].
  cbn [sany] in *. apply orb_false_iff in H as [Hx Hs]. rewrite IH by done.
  unfold is_break in Hx. apply orb_false_iff in Hx as [Hx H3].
  apply orb_false_iff in Hx as [H1 H2].
  destruct Hc as [-> | [-> | ->]]; by rewrite ?H1, ?H2, ?H3.
Qed.

Lemma rfind_no_break (a b : Z) (s : string) (c : ascii) :
  sany is_break s = false ->
  c = "."%char \/ c = "?"%char \/ c = "!"%char ->
  rfind c (py_slice a b s) = (-1)%Z.
Proof.
  intros H Hc. unfold rfind. apply rfind_from_none.
  apply sany_is_break; [|exact Hc]. by apply sany_py_slice.
Qed.

(** The end of a chunk is never beyond the window. *)
Lemma chunk_end_upper (text : string) (max_length start : Z) :
  (0 <= max_length)%Z ->
  (chunk_end text max_length start <= start + max_length)%Z.
Proof.
  intros Hm. unfold chunk_end. cbn zeta.
  destruct (start + max_length <? Z.of_nat (len text))%Z; [|lia].
  set (chunk := py_slice start (start + max_length) text).
  destruct (Z.of_nat (len chunk) - 100 <? _)%Z; [|lia].
  pose proof (len_py_slice_window start max_length text Hm) as Hl.
  fold chunk in Hl.
  pose proof (rfind_range "." chunk). pose proof (rfind_range "?" chunk).
  pose proof (rfind_range "!" chunk). lia.
Qed.

Lemma chunk_end_from (text : string) (max_length start : Z) :
  (0 <= max_length)%Z -> (start <= chunk_end text max_length start)%Z.
Proof.
  intros Hm. unfold chunk_end. cbn zeta.
  destruct (start + max_length <? Z.of_nat (len text))%Z; [|lia].
  set (chunk := py_slice start (start + max_length) text).
  destruct (Z.of_nat (len chunk) - 100 <? _)%Z; [|lia].
  pose proof (rfind_range "." chunk). lia.
Qed.

(** With a window of 99 characters or more, a chunk that starts inside the
    text ends at least [max_length - 98] characters further. *)
Lemma chunk_end_lower (text : string) (max_length start : Z) :
  (0 <= start)%Z -> (99 <= max_length)%Z ->
  (start + max_length - 98 <= chunk_end text max_length start)%Z.
Proof.
  intros Hs Hm. unfold chunk_end. cbn zeta.
  destruct (start + max_length <? Z.of_nat (len text))%Z eqn:E; [|lia].
  set (chunk := py_slice start (start + max_length) text).
  assert (Hl : Z.of_nat (len chunk) = max_length)
    by (apply len_py_slice_inside; lia).
  destruct (Z.of_nat (len chunk) - 100 <? _)%Z eqn:Eb; lia.
Qed.

Lemma chunk_end_whole (text : string) (max_length : Z) :
  (Z.of_nat (len text) <= max_length)%Z ->
  chunk_end text max_length 0 = max_length.
Proof.
  intros H. unfold chunk_end. cbn zeta.
  destruct (0 + max_length <? Z.of_nat (len text))%Z eqn:E; lia.
Qed.

Section Loop.
Variable text : string.
Variables max_length overlap : Z.

Lemma chunk_ok_strip (start : Z) :
  (0 <= max_length)%Z ->
  chunk_ok max_length
    (strip (py_slice start (chunk_end text max_length start) text)).
Proof.
  intros Hm. split; [apply strip_idemp|].
  pose proof (len_strip (py_slice start (chunk_end text max_length start) text)).
  pose proof (chunk_end_upper text max_length start Hm) as Hu.
  assert (Hw : (Z.of_nat (len (py_slice start (chunk_end text max_length start) text))
                <= max_length)%Z).
  { pose proof (chunk_end_from text max_length start Hm) as Hf.
    unfold py_slice. rewrite len_slice. unfold clamp_index.
    destruct (start <? 0)%Z eqn:Ea,
             (chunk_end text max_length start <? 0)%Z eqn:Eb; lia. }
  lia.
Qed.

(** Enough fuel brings the loop to its end. *)
Lemma chunk_loop_returns (k : nat) :
  (0 <= overlap)%Z -> (overlap + 99 <= max_length)%Z ->
  forall start chunks,
    (0 <= start)%Z -> (Z.of_nat (len text) - start <= Z.of_nat k)%Z ->
    exists more,
      (forall fuel, k < fuel ->
         chunk_loop fuel text max_length overlap start chunks
         = Some (chunks ++ more))
      /\ length more <= k
      /\ Forall (chunk_ok max_length) more.
Proof.
  intros Ho Hm. induction k as [|k IH]; intros start chunks Hs Hk.
  - exists []. split; [|split; [simpl; lia | constructor]].
    intros [|fuel] Hf; [lia|]. cbn [chunk_loop].
    destruct (start <? Z.of_nat (len text))%Z eqn:E; [lia|].
    by rewrite app_nil_r.
  - destruct (start <? Z.of_nat (len text))%Z eqn:E.
    + pose proof (chunk_end_lower text max_length start Hs ltac:(lia)) as Hl.
      destruct (IH (chunk_end text max_length start - overlap)%Z
                  (chunks ++ [strip (py_slice start
                                (chunk_end text max_length start) text)])
                  ltac:(lia) ltac:(lia)) as (more & Hloop & Hlen & Hok).
      exists (strip (py_slice start (chunk_end text max_length start) text)
              :: more).
      split; [|split].
      * intros [|fuel] Hf; [lia|]. cbn [chunk_loop]. rewrite E.
        rewrite Hloop by lia. by rewrite <- app_assoc.
      * simpl. lia.
      * constructor; [apply chunk_ok_strip; lia | exact Hok].
    + exists []. split; [|split; [simpl; lia | constructor]].
      intros [|fuel] Hf; [lia|]. cbn [chunk_loop]. rewrite E.
      by rewrite app_nil_r.
Qed.

(** A loop whose start never gets past zero does not end. *)
Lemma chunk_loop_stuck (fuel : nat) :
  text <> EmptyString ->
  (forall start, (start <= 0)%Z ->
     (chunk_end text max_length start - overlap <= 0)%Z) ->
  forall start chunks, (start <= 0)%Z ->
    chunk_loop fuel text max_length overlap start chunks = None.
Proof.
  intros Hne Hstep. induction fuel as [|fuel IH]; intros start chunks Hs;
    [reflexivity|].
  cbn [chunk_loop].
  assert (Hn : (0 < Z.of_nat (len text))%Z).
  { destruct text; [done|]. unfold len. simpl. lia. }
  destruct (start <? Z.of_nat (len text))%Z eqn:E; [|lia].
  apply IH. by apply Hstep.
Qed.

End Loop.

Lemma chunk_text_short (text : string) (max_length overlap : Z) (fuel : nat) :
  text <> EmptyString ->
  (Z.of_nat (len text) <= max_length - overlap)%Z -> (0 <= overlap)%Z ->
  chunk_text (S (S fuel)) text max_length overlap = Some [strip text].
Proof.
  intros Hne Hl Ho. unfold chunk_text.
  assert (Hn : (0 < Z.of_nat (len text))%Z).
  { destruct text; [done|]. unfold len. simpl. lia. }
  cbn [chunk_loop]. destruct (0 <? Z.of_nat (len text))%Z eqn:E; [|lia].
  rewrite chunk_end_whole by lia.
  destruct (max_length - overlap <? Z.of_nat (len text))%Z eqn:E'; [lia|].
  rewrite py_slice_all by lia. reflexivity.
Qed.

(** X14. With an overlap that is not negative and a window at least 99
    characters wider than the overlap (as with the defaults 1000 and 100),
    [chunk_text] returns: one round per character of the text is enough.
    It gives at most that many chunks, each trimmed and no longer than the
    window; none for the empty text, and the trimmed text alone when the
    text is no longer than the window less the overlap. *)
Theorem chunk_text_returns (text : string) (max_length overlap : Z) :
  (0 <= overlap)%Z -> (overlap + 99 <= max_length)%Z ->
  exists chunks,
    (forall fuel, len text < fuel ->
       chunk_text fuel text max_length overlap = Some chunks)
    /\ length chunks <= len text
    /\ Forall (chunk_ok max_length) chunks
    /\ (text = EmptyString -> chunks = [])
    /\ (text <> EmptyString ->
        (Z.of_nat (len text) <= max_length - overlap)%Z ->
        chunks = [strip text]).
Proof.
  intros Ho Hm.
  destruct (chunk_loop_returns text max_length overlap (len text) Ho Hm 0 []
              ltac:(lia) ltac:(lia)) as (chunks & Hloop & Hlen & Hok).
  exists chunks. split; [exact Hloop|]. split; [exact Hlen|].
  split; [exact Hok|]. split.
  - intros ->. destruct chunks; [reflexivity|]. simpl in Hlen. lia.
  - intros Hne Hl.
    pose proof (chunk_text_short text max_length overlap (len text) Hne Hl Ho) as H1.
    unfold chunk_text in H1. rewrite Hloop in H1 by lia. by injection H1.
Qed.

Lemma chunk_text_returns_witness :
  (0 <= 100)%Z /\ (100 + 99 <= 1000)%Z
  /\ exists chunks,
       (forall fuel, len "Coupon 5%. Barrier 60%." < fuel ->
          chunk_text fuel "Coupon 5%. Barrier 60%." 1000 100 = Some chunks)
       /\ length chunks <= len "Coupon 5%. Barrier 60%."
       /\ Forall (chunk_ok 1000) chunks
       /\ ("Coupon 5%. Barrier 60%." = EmptyString -> chunks = [])
       /\ ("Coupon 5%. Barrier 60%." <> EmptyString ->
           (Z.of_nat (len "Coupon 5%. Barrier 60%.") <= 1000 - 100)%Z ->
           chunks = [strip "Coupon 5%. Barrier 60%."]).
Proof.
  split; [lia|]. split; [lia|].
  apply (chunk_text_returns "Coupon 5%. Barrier 60%." 1000 100); lia.
Defined.

(** X15. [chunk_text] does not return, whatever the number of rounds, on a
    text that is not empty when the overlap is at least the window; nor,
    with a window under 99 characters and an overlap that is not negative,
    on a text longer than the window that holds none of the characters
    [.], [?] and [!]. *)
Theorem chunk_text_loops :
  (forall text max_length overlap fuel,
     text <> EmptyString -> (0 <= max_length <= overlap)%Z ->
     chunk_text fuel text max_length overlap = None)
  /\ (forall text max_length overlap fuel,
        (0 <= overlap)%Z -> (0 <= max_length < 99)%Z ->
        (max_length < Z.of_nat (len text))%Z ->
        sany is_break text = false ->
        chunk_text fuel text max_length overlap = None).
Proof.
  split.
  - intros text max_length overlap fuel Hne Hm. unfold chunk_text.
    apply chunk_loop_stuck; [exact Hne | | lia].
    intros start Hs.
    pose proof (chunk_end_upper text max_length start ltac:(lia)). lia.
  - intros text max_length overlap fuel Ho Hm Hl Hb. unfold chunk_text.
    apply chunk_loop_stuck;
      [intros ->; unfold len in Hl; simpl in Hl; lia | | lia].
    intros start Hs. unfold chunk_end. cbn zeta.
    destruct (start + max_length <? Z.of_nat (len text))%Z eqn:E; [|lia].
    rewrite !rfind_no_break by (tauto).
    pose proof (len_py_slice_window start max_length text ltac:(lia)).
    match goal with
    | |- context [if ?b then _ else _] => destruct b eqn:Eb
    end; lia.
Qed.

End ChunkingFacts.

(** ** The sentence splitter *)

Module SentencesFacts.
Import PyStr PyStrFacts Re Sentences SentencesSpec TidyFacts.

Lemma len_skip_ends (s : string) : len (skip_ends s) <= len s.
Proof.
  induction s as [|c t IH]; simpl; [lia|].
  destruct (is_end c); simpl; unfold len in *; lia.
Qed.

(** A greedy run of sentence ends takes them all. *)
Lemma star_loop_ends (n : nat) :
  forall (o : option ascii) (s : string) (g : option string),
  len s < n ->
  exists o', star_loop (run (Chr is_end)) Some n (MState o s g)
             = Some (MState o' (skip_ends s) g).
Proof.
  induction n as [|n IH]; intros o s g Hn; [lia|].
  destruct s as [|c t].
  - exists o. reflexivity.
  - change (star_loop (run (Chr is_end)) Some (S n) (MState o (String c t) g))
      with (match (if is_end c
                   then if (len t <? len (String c t))%nat
                        then star_loop (run (Chr is_end)) Some n
                                       (MState (Some c) t g)
                        else None
                   else None) with
            | Some x => Some x
            | None => Some (MState o (String c t) g)
            end).
    cbn [skip_ends]. destruct (is_end c) eqn:Hc.
    + assert (Ht : len t < n) by (unfold len in *; simpl in Hn; lia).
      destruct (IH (Some c) t g Ht) as [o' Ho'].
      exists o'.
      assert (Hlt : (len t <? len (String c t))%nat = true)
        by (apply Nat.ltb_lt; unfold len; simpl; lia).
      rewrite Hlt, Ho'. reflexivity.
    + exists o. reflexivity.
Qed.

Lemma match_at_sentence_end (o : option ascii) (s : string) :
  match s with
  | String c t =>
      if is_end c
      then exists o', match_at sentence_end o s
                      = Some (MState o' (skip_ends t) None)
      else match_at sentence_end o s = None
  | EmptyString => match_at sentence_end o s = None
  end.
Proof.
  destruct s as [|c t]; [reflexivity|].
  unfold match_at, sentence_end, plus.
  change (run (Seq (Chr is_end) (Star (Chr is_end))) Some
              (MState o (String c t) None))
    with (if is_end c
          then star_loop (run (Chr is_end)) Some (S (len t))
                         (MState (Some c) t None)
          else None).
  destruct (is_end c) eqn:Hc; [|reflexivity].
  apply star_loop_ends. lia.
Qed.

Lemma pieces_true (s : string) :
  pieces true s EmptyString = pieces false (skip_ends s) EmptyString.
Proof.
  induction s as [|c t IH]; [reflexivity|].
  cbn [pieces skip_ends]. destruct (is_end c) eqn:Hc; [exact IH|].
  cbn [pieces]. by rewrite Hc.
Qed.

Lemma split_from_pieces (fuel : nat) :
  forall (o : option ascii) (s piece : string),
  len s < fuel ->
  split_from fuel sentence_end o s piece = pieces false s piece.
Proof.
  induction fuel as [|fuel IH]; intros o s piece Hf; [lia|].
  pose proof (match_at_sentence_end o s) as Hm.
  destruct s as [|c t]; cbn [split_from pieces].
  - by rewrite Hm.
  - destruct (is_end c) eqn:Hc.
    + destruct Hm as [o' ->]. cbn [rest prev].
      pose proof (len_skip_ends t) as Hl.
      assert (Hlt : (len (skip_ends t) <? len (String c t))%nat = true).
      { apply Nat.ltb_lt. unfold len in *. simpl. lia. }
      rewrite Hlt, IH by (unfold len in *; simpl in Hf; lia).
      by rewrite pieces_true.
    + rewrite Hm. apply IH. unfold len in *. simpl in Hf. lia.
Qed.

(** [re.split(r'[.!?]+', text)], in closed form. *)
Lemma split_pieces (text : string) :
  split sentence_end text = pieces false text EmptyString.
Proof. unfold split. apply split_from_pieces. lia. Qed.

Lemma stripped_app (a b : list string) :
  stripped (a ++ b) = stripped a ++ stripped b.
Proof. unfold stripped. by rewrite List.filter_app, List.map_app. Qed.

Lemma stripped_cons (x : string) (l : list string) :
  stripped (x :: l) = stripped [x] ++ stripped l.
Proof. apply (stripped_app [x] l). Qed.

Lemma stripped_pieces_true (s : string) :
  stripped (pieces true s EmptyString) = stripped (pieces false s EmptyString).
Proof.
  destruct s as [|c t]; [reflexivity|]. cbn [pieces].
  destruct (is_end c); [|reflexivity].
  by rewrite (stripped_cons EmptyString).
Qed.

Lemma stripped_pieces_app (a b : string) (c : ascii) :
  is_end c = true ->
  forall (r : bool) (piece : string),
  (r = true -> piece = EmptyString) ->
  stripped (pieces r (a ++ String c b)%string piece)
  = stripped (pieces r a piece) ++ stripped (pieces false b EmptyString).
Proof.
  intros Hc. induction a as [|x a IH]; intros r piece Hr.
  - change (EmptyString ++ String c b)%string with (String c b).
    cbn [pieces]. rewrite Hc. destruct r.
    + rewrite (Hr eq_refl). by rewrite stripped_pieces_true.
    + by rewrite stripped_cons, stripped_pieces_true.
  - change (String x a ++ String c b)%string
      with (String x (a ++ String c b)%string).
    cbn [pieces]. destruct (is_end x).
    + destruct r.
      * by apply IH.
      * rewrite stripped_cons, (stripped_cons piece (pieces true a _)).
        rewrite IH by done. by rewrite app_assoc.
    + apply IH. discriminate.
Qed.

Lemma sany_append_chr (p : ascii -> bool) (s : string) (c : ascii) :
  sany p (s ++ String c EmptyString)%string = sany p s || p c.
Proof.
  induction s as [|x s IH]; [simpl; by rewrite orb_false_r|].
  change (sany p (String x s ++ String c EmptyString)%string)
    with (p x || sany p (s ++ String c EmptyString)%string).
  cbn [sany]. by rewrite IH, orb_assoc.
Qed.

Lemma pieces_no_end (s : string) :
  forall (r : bool) (piece : string),
  sany is_end piece = false ->
  Forall (fun x => sany is_end x = false) (pieces r s piece).
Proof.
  induction s as [|c t IH]; intros r piece Hp; cbn [pieces].
  - by constructor.
  - destruct (is_end c) eqn:Hc.
    + destruct r; [by apply IH|]. constructor; [exact Hp | by apply IH].
    + apply IH. by rewrite sany_append_chr, Hp, Hc.
Qed.

Lemma append_empty (s : string) : (s ++ EmptyString)%string = s.
Proof.
  induction s as [|x s IH]; [reflexivity|].
  change (String x s ++ EmptyString)%string
    with (String x (s ++ EmptyString)%string).
  by rewrite IH.
Qed.

Lemma append_chr (piece t : string) (c : ascii) :
  ((piece ++ String c EmptyString) ++ t)%string = (piece ++ String c t)%string.
Proof.
  induction piece as [|x p IH]; [reflexivity|].
  change (String x ((p ++ String c EmptyString) ++ t)%string
          = String x (p ++ String c t)%string).
  by rewrite IH.
Qed.

Lemma pieces_plain (s : string) :
  forall piece, sany is_end s = false ->
  pieces false s piece = [(piece ++ s)%string].
Proof.
  induction s as [|c t IH]; intros piece; cbn [pieces sany].
  - intros _. by rewrite append_empty.
  - intros [Hc Ht]%orb_false_iff. rewrite Hc, IH by done.
    by rewrite append_chr.
Qed.

Lemma is_end_not_space (c : ascii) : isspace_c c = true -> is_end c = false.
Proof. revert c. intros [[] [] [] [] [] [] [] []]; vm_compute; intros; try done. Qed.

Lemma stripped_ok (l : list string) :
  Forall (fun x => sany is_end x = false) l ->
  Forall (fun s => strip s = s /\ s <> EmptyString /\ sany is_end s = false)
         (stripped l).
Proof.
  intros H. unfold stripped. apply Forall_forall. intros s Hs.
  apply list_elem_of_In, in_map_iff in Hs as (x & <- & Hx).
  apply filter_In in Hx as [Hx Hne].
  split; [apply strip_idemp|]. split.
  - intros He. by rewrite He in Hne.
  - rewrite Forall_forall in H. apply list_elem_of_In, H in Hx.
    unfold strip. rewrite sany_rstrip, sany_lstrip; [exact Hx | |];
      apply is_end_not_space.
Qed.

(** X16. [extract_sentences] cuts the text at every run of [.], [!] and
    [?]: each sentence is trimmed, not empty and holds none of these
    characters; a text without them is one sentence, or none when it is
    blank; and the sentences of a text with a sentence end between two
    parts are those of the first part, then those of the second. *)
Theorem sentences_split :
  (forall text,
     Forall (fun s => strip s = s /\ s <> EmptyString /\ sany is_end s = false)
            (extract_sentences text))
  /\ (forall text, sany is_end text = false ->
        extract_sentences text
        = if is_empty (strip text) then [] else [strip text])
  /\ (forall a b c, is_end c = true ->
        extract_sentences (a ++ String c b)%string
        = extract_sentences a ++ extract_sentences b).
Proof.
  split; [|split].
  - intros text. unfold extract_sentences. rewrite split_pieces.
    by apply stripped_ok, pieces_no_end.
  - intros text H. unfold extract_sentences.
    rewrite split_pieces, pieces_plain by done.
    change (EmptyString ++ text)%string with text.
    unfold stripped. cbn [List.filter].
    by destruct (is_empty (strip text)).
  - intros a b c Hc. unfold extract_sentences. rewrite !split_pieces.
    by apply stripped_pieces_app.
Qed.

End SentencesFacts.

(** ** File types and routing *)

Module RoutingFacts.
Import PyStr PyStrFacts Chunking ChunkingFacts FileHandler Routing RoutingSpec PdfLLM.















End RoutingFacts.

(** ** The chat pipeline, end to end, on ISINs *)

Module ChatIsinFacts.
Import PyStr PyStrFacts Re TextSpec Dedup DedupFacts MergeFacts MergeClaims
  NormalizeFacts StagedMergeFacts PatternSpec PatternFacts CategorySpec
  CategoryFacts ChatIsinSpec.

Lemma lookup_put_if_any (key t : string) (matches : list string)
  (m : gmap string (list string)) :
  ChatNER.put_if_any key matches m !! t
  = if decide (key = t)
    then match matches with [] => m !! t | _ => Some matches end
    else m !! t.
Proof.
  unfold ChatNER.put_if_any. destruct matches as [|x l].
  - by destruct (decide (key = t)).
  - rewrite lookup_insert. by destruct (decide (key = t)).
Qed.

Lemma chat_specific_isin (text : string) :
  ChatNER.extract_chat_specific text !! "isin"
  = some_list (Re.findall FinancialPatterns.ISIN text).
Proof.
  unfold ChatNER.extract_chat_specific. cbn zeta.
  rewrite !lookup_put_if_any.
  repeat (destruct (decide (_ = "isin")) as [?|_]; [discriminate|]).
  destruct (decide ("isin" = "isin")) as [_|?]; [|done].
  rewrite lookup_empty. by destruct (Re.findall _ _).
Qed.

Lemma extract_all_isin (text : string) :
  FinancialPatterns.extract_all text !! "isin"
  = Some (Re.findall FinancialPatterns.ISIN text).
Proof.
  unfold FinancialPatterns.extract_all.
  cbn [list_to_map foldr fst snd uncurry]. apply lookup_insert_eq.
Qed.

Lemma spacy_no_isin (ents : list SpacyNERPipeline.span) :
  SpacyNERPipeline.extract_financial_entities ents !! "isin" = None.
Proof. by rewrite extract_financial_entities_lookup. Qed.

Lemma deduplicate_twice (M : list string) :
  ChatNER.deduplicate (M ++ M) = ChatNER.deduplicate M.
Proof.
  unfold ChatNER.deduplicate. rewrite !dedup_from_kept.
  rewrite (kept_app strip always M M ∅).
  rewrite (kept_all_seen strip always
             (list_to_set (lower <$> kept strip always ∅ M) ∪ ∅) M);
    [by rewrite app_nil_r|].
  intros v Hv.
  destruct (kept_complete strip always ∅ M v Hv eq_refl) as [H|(w & Hw & Hl)];
    [set_solver|].
  apply elem_of_union_l, elem_of_list_to_set, list_elem_of_fmap.
  by exists w.
Qed.

Lemma merged_isin (ner : gmap string (list string)) (text : string) :
  ner !! "isin" = None ->
  ChatNER.merge_entities
    [ner; FinancialPatterns.extract_all text; ChatNER.extract_chat_specific text]
    !! "isin"
  = Some (ChatNER.deduplicate (Re.findall FinancialPatterns.ISIN text)).
Proof.
  intros Hn. rewrite chat_merge_lookup. unfold lists_of.
  cbn [omap list_omap]. rewrite Hn, extract_all_isin, chat_specific_isin.
  destruct (Re.findall FinancialPatterns.ISIN text) as [|x l] eqn:E;
    cbn [some_list concat]; [reflexivity|].
  rewrite app_nil_r. by rewrite deduplicate_twice.
Qed.

Lemma upper_lower_id_c (c : ascii) :
  islower_c c = false -> upper_c (lower_c c) = c.
Proof. revert c. intros [[] [] [] [] [] [] [] []]; vm_compute; intros; try done. Qed.

Lemma upper_lower_id (s : string) :
  sany islower_c s = false -> upper (lower s) = s.
Proof.
  unfold upper, lower. induction s as [|c s IH]; [reflexivity|].
  cbn [sany smap]. intros [Hc Hs]%orb_false_iff.
  by rewrite upper_lower_id_c, IH.
Qed.

Lemma isin_shape_upper (v : string) :
  isin_shape v = true -> sany islower_c v = false /\ strip v = v.
Proof.
  intros H. destruct (isin_shape_facts v H) as (_ & Hn & Hu & _).
  split; [|by apply nows_strip].
  unfold isupper in Hu. apply andb_prop in Hu as [_ Hu].
  by apply negb_true_iff in Hu.
Qed.

Lemma strip_shaped (M : list string) :
  Forall (fun v => isin_shape v = true) M -> strip <$> M = M.
Proof.
  induction 1 as [|v M Hv HM IH]; [reflexivity|]. cbn [fmap list_fmap].
  destruct (isin_shape_upper v Hv) as [_ ->]. f_equal. exact IH.
Qed.

Lemma deduplicate_shaped (M : list string) :
  Forall (fun v => isin_shape v = true) M ->
  Forall (fun v => isin_shape v = true) (ChatNER.deduplicate M)
  /\ NoDup (ChatNER.deduplicate M)
  /\ (forall v, v ∈ M <-> v ∈ ChatNER.deduplicate M)
  /\ ChatNER.deduplicate M `sublist_of` M.
Proof.
  intros HM. unfold ChatNER.deduplicate. rewrite dedup_from_kept.
  pose proof (kept_sublist strip always ∅ M) as Hsub.
  rewrite (strip_shaped M HM) in Hsub.
  assert (Hin : forall v, v ∈ kept strip always ∅ M -> v ∈ M)
    by (intros v Hv; by eapply elem_of_sublist).
  rewrite Forall_forall in HM.
  split; [|split; [|split; [|exact Hsub]]].
  - apply Forall_forall. intros v Hv. by apply HM, Hin.
  - eapply NoDup_fmap_1. apply (kept_NoDup strip always ∅ M).
  - intros v. split; [|apply Hin]. intros Hv.
    destruct (kept_complete strip always ∅ M v Hv eq_refl) as [H|(w & Hw & Hl)];
      [set_solver|].
    destruct (isin_shape_upper v (HM v Hv)) as [Hlv Hsv]. rewrite Hsv in Hl.
    destruct (isin_shape_upper w (HM w (Hin w Hw))) as [Hlw _].
    assert (w = v) as <-; [|exact Hw].
    by rewrite <- (upper_lower_id w Hlw), <- (upper_lower_id v Hlv), Hl.
Qed.

Lemma process_values_shaped (l : list string) :
  Forall (fun v => isin_shape v = true) l ->
  ChatNER.process_values "isin" l = title <$> l.
Proof.
  unfold ChatNER.process_values.
  induction 1 as [|v l Hv Hl IH]; [reflexivity|].
  cbn [omap list_omap fmap list_fmap].
  destruct (process_value_isin_shape v Hv) as [-> _].
  cbn. f_equal. exact IH.
Qed.

Lemma chat_extract_isin (nlp : string -> list SpacyNERPipeline.span)
  (text : string) :
  chat_extract nlp text !! "isin"
  = some_list (title <$> ChatNER.deduplicate (isin_matches text)).
Proof.
  unfold chat_extract, ChatNER.extract, isin_matches. cbn zeta.
  rewrite post_process_lookup, merged_isin by apply spacy_no_isin.
  cbn [mbind option_bind].
  set (M := Re.findall FinancialPatterns.ISIN (TextProcessor.clean_text text)).
  assert (HM : Forall (fun v => isin_shape v = true) M).
  { apply Forall_forall. intros v Hv. apply list_elem_of_In in Hv.
    by apply findall_ISIN_shape in Hv. }
  destruct (deduplicate_shaped M HM) as (Hd & _).
  rewrite (process_values_shaped _ Hd).
  by destruct (ChatNER.deduplicate M).
Qed.

(** X18. What the chat pipeline reports under [isin]: the matches of the
    ISIN pattern in the cleaned text, each once, in the order of their first
    occurrence, and in title case (US0378331005 as Us0378331005); the key
    is absent when the pattern finds nothing. No value of the spaCy pass
    and no validation changes that list. *)
Theorem chat_isin_end_to_end :
  (forall nlp text,
     chat_extract nlp text !! "isin"
     = some_list (title <$> ChatNER.deduplicate (isin_matches text)))
  /\ (forall text,
        NoDup (ChatNER.deduplicate (isin_matches text))
        /\ (forall v, v ∈ isin_matches text
                      <-> v ∈ ChatNER.deduplicate (isin_matches text))
        /\ ChatNER.deduplicate (isin_matches text)
           `sublist_of` isin_matches text)
  /\ (forall nlp text v,
        v ∈ isin_matches text ->
        exists l, chat_extract nlp text !! "isin" = Some l
                  /\ title v ∈ l /\ (v ∈ l -> False)).
Proof.
  assert (HM : forall text, Forall (fun v => isin_shape v = true)
                                   (isin_matches text)).
  { intros text. apply Forall_forall. intros v Hv.
    apply list_elem_of_In in Hv. by apply findall_ISIN_shape in Hv. }
  split; [exact chat_extract_isin|]. split.
  - intros text.
    destruct (deduplicate_shaped _ (HM text)) as (Hd & Hn & Hi & Hsub).
    split; [exact Hn|]. split; [exact Hi | exact Hsub].
  - intros nlp text v Hv. rewrite chat_extract_isin.
    destruct (deduplicate_shaped _ (HM text)) as (Hd & Hn & Hi & _).
    apply Hi in Hv as Hv'.
    destruct (ChatNER.deduplicate (isin_matches text)) as [|x l] eqn:E;
      [by apply elem_of_nil in Hv'|].
    exists (title <$> (x :: l)). split; [reflexivity|]. split.
    + apply list_elem_of_fmap. by exists v.
    + intros (w & Hw & Hwl)%list_elem_of_fmap.
      rewrite Forall_forall in Hd. specialize (Hd w Hwl).
      pose proof (HM text) as HMt. rewrite Forall_forall in HMt.
      destruct (isin_shape_upper v (HMt v Hv)) as [Hlv _].
      (* a title-cased ISIN has a lower-case letter, an ISIN has none *)
      assert (Ht : sany islower_c (title w) = true).
      { revert Hd. clear. intros Hd.
        destruct (isin_shape_facts w Hd) as (_ & _ & _ & Hl & _).
        unfold isin_shape in Hd.
        rewrite (proj2 (Nat.eqb_eq _ _) Hl) in Hd. cbn [andb] in Hd.
        destruct w as [|a [|b w]]; try (unfold len in Hl; simpl in Hl; lia).
        cbn [take sall] in Hd.
        apply andb_prop in Hd as [Hd _]. apply andb_prop in Hd as [Hd _].
        apply andb_prop in Hd as [Ha Hb]. apply andb_prop in Hb as [Hb _].
        unfold title. cbn [title_from sany].
        assert (Hal : isalpha_c a = true) by (unfold isalpha_c; by rewrite Ha).
        rewrite Hal.
        assert (Hlb : islower_c (lower_c b) = true).
        { revert Hb. clear. revert b.
          intros [[] [] [] [] [] [] [] []]; vm_compute; intros; try done. }
        by rewrite Hlb, orb_true_r. }
      rewrite <- Hw in Ht. congruence.
Qed.

End ChatIsinFacts.
